(** * RE/flex abstract matcher (absmatcher.h): buffer, position tracking,
      options, lexer primitives and the match iterator.

    A shallow embedding of [reflex::AbstractMatcher] and of its nested
    [Iterator] class.  Positions and counters of type [size_t] are integers
    reduced modulo [2^64]; the [int] slots [got_] and [chr_] are plain
    integers; the buffer [buf_] is a list of bytes whose length is the size
    of the allocated array; the pointer [txt_] is kept as its offset
    [txt_ - buf_], which is the only way the class uses it. *)

From Stdlib Require Import ZArith Lia Ascii.
From stdpp Require Import base numbers list gmap strings.

Local Open Scope Z_scope.

(** ** Machine arithmetic *)

(** [size_t] is 64 bits wide. *)
Definition size_modulus : Z := 18446744073709551616.

(** Reduction of an integer to [size_t]. *)
Definition sz (z : Z) : Z := z mod size_modulus.

(** [static_cast<unsigned char>] of a byte, and the truncation of an [int]
    stored into a [char] cell. *)
Definition uchar (z : Z) : Z := z mod 256.

(** ** Constants ([AbstractMatcher::Const]) *)

Definition Method := Z.

Module Const.
Definition SCAN : Method := 0.
Definition FIND : Method := 1.
Definition SPLIT : Method := 2.
Definition MATCH : Method := 3.
Definition NUL : Z := 0.
Definition UNK : Z := 256.
Definition BOB : Z := 257.
Definition EOB : Z := -1.
Definition EMPTY : Z := 65535.
Definition BLOCK : Z := 4096.
End Const.

(** [EOF] of <cstdio>. *)
Definition EOF : Z := -1.

(** The newline byte. *)
Definition NL : Z := 10.

(** ** The byte source *)

(** Modelled from the spec: the [Input] class of input.h and its member
    [get], whose code absmatcher.h only calls.  The contract is
    [get(dst, n) -> k] with [0 <= k <= n] and [k = 0] signalling the end of
    the input.  A source is the list of bytes it has not delivered yet;
    [get] hands out the first [n] of them, or all of them when fewer
    remain. *)
Definition Input := list Z.

Definition Input_get (n : Z) (src : Input) : list Z * Input :=
  (take (Z.to_nat n) src, drop (Z.to_nat n) src).

(** ** Options ([AbstractMatcher::Option]) *)

Record Option := mkOption {
  opt_A : bool;  (* accept any/all (?^X) negative patterns *)
  opt_N : bool;  (* nullable, find may return empty match *)
  opt_T : Z      (* tab size *)
}.

(** ** The matcher state (data members of [AbstractMatcher]) *)

Record Matcher := mkMatcher {
  opt_ : Option;
  buf_ : list Z;
  txt_ : Z;      (* txt_ - buf_ *)
  len_ : Z;
  cap_ : Z;
  cur_ : Z;
  pos_ : Z;
  end_ : Z;
  max_ : Z;
  ind_ : Z;
  blk_ : Z;
  got_ : Z;
  chr_ : Z;
  lno_ : Z;
  cno_ : Z;
  num_ : Z;
  eof_ : bool;
  mat_ : bool;
  in_ : Input    (* the member [in] *)
}.

(** Assignment to one data member. *)
Definition with_opt (v : Option) (m : Matcher) : Matcher :=
  {| opt_ := v; buf_ := buf_ m; txt_ := txt_ m; len_ := len_ m;
     cap_ := cap_ m; cur_ := cur_ m; pos_ := pos_ m; end_ := end_ m;
     max_ := max_ m; ind_ := ind_ m; blk_ := blk_ m; got_ := got_ m;
     chr_ := chr_ m; lno_ := lno_ m; cno_ := cno_ m; num_ := num_ m;
     eof_ := eof_ m; mat_ := mat_ m; in_ := in_ m |}.
Definition with_buf (v : list Z) (m : Matcher) : Matcher :=
  {| opt_ := opt_ m; buf_ := v; txt_ := txt_ m; len_ := len_ m;
     cap_ := cap_ m; cur_ := cur_ m; pos_ := pos_ m; end_ := end_ m;
     max_ := max_ m; ind_ := ind_ m; blk_ := blk_ m; got_ := got_ m;
     chr_ := chr_ m; lno_ := lno_ m; cno_ := cno_ m; num_ := num_ m;
     eof_ := eof_ m; mat_ := mat_ m; in_ := in_ m |}.
Definition with_txt (v : Z) (m : Matcher) : Matcher :=
  {| opt_ := opt_ m; buf_ := buf_ m; txt_ := v; len_ := len_ m;
     cap_ := cap_ m; cur_ := cur_ m; pos_ := pos_ m; end_ := end_ m;
     max_ := max_ m; ind_ := ind_ m; blk_ := blk_ m; got_ := got_ m;
     chr_ := chr_ m; lno_ := lno_ m; cno_ := cno_ m; num_ := num_ m;
     eof_ := eof_ m; mat_ := mat_ m; in_ := in_ m |}.
Definition with_len (v : Z) (m : Matcher) : Matcher :=
  {| opt_ := opt_ m; buf_ := buf_ m; txt_ := txt_ m; len_ := v;
     cap_ := cap_ m; cur_ := cur_ m; pos_ := pos_ m; end_ := end_ m;
     max_ := max_ m; ind_ := ind_ m; blk_ := blk_ m; got_ := got_ m;
     chr_ := chr_ m; lno_ := lno_ m; cno_ := cno_ m; num_ := num_ m;
     eof_ := eof_ m; mat_ := mat_ m; in_ := in_ m |}.
Definition with_cap (v : Z) (m : Matcher) : Matcher :=
  {| opt_ := opt_ m; buf_ := buf_ m; txt_ := txt_ m; len_ := len_ m;
     cap_ := v; cur_ := cur_ m; pos_ := pos_ m; end_ := end_ m;
     max_ := max_ m; ind_ := ind_ m; blk_ := blk_ m; got_ := got_ m;
     chr_ := chr_ m; lno_ := lno_ m; cno_ := cno_ m; num_ := num_ m;
     eof_ := eof_ m; mat_ := mat_ m; in_ := in_ m |}.
Definition with_cur (v : Z) (m : Matcher) : Matcher :=
  {| opt_ := opt_ m; buf_ := buf_ m; txt_ := txt_ m; len_ := len_ m;
     cap_ := cap_ m; cur_ := v; pos_ := pos_ m; end_ := end_ m;
     max_ := max_ m; ind_ := ind_ m; blk_ := blk_ m; got_ := got_ m;
     chr_ := chr_ m; lno_ := lno_ m; cno_ := cno_ m; num_ := num_ m;
     eof_ := eof_ m; mat_ := mat_ m; in_ := in_ m |}.
Definition with_pos (v : Z) (m : Matcher) : Matcher :=
  {| opt_ := opt_ m; buf_ := buf_ m; txt_ := txt_ m; len_ := len_ m;
     cap_ := cap_ m; cur_ := cur_ m; pos_ := v; end_ := end_ m;
     max_ := max_ m; ind_ := ind_ m; blk_ := blk_ m; got_ := got_ m;
     chr_ := chr_ m; lno_ := lno_ m; cno_ := cno_ m; num_ := num_ m;
     eof_ := eof_ m; mat_ := mat_ m; in_ := in_ m |}.
Definition with_end (v : Z) (m : Matcher) : Matcher :=
  {| opt_ := opt_ m; buf_ := buf_ m; txt_ := txt_ m; len_ := len_ m;
     cap_ := cap_ m; cur_ := cur_ m; pos_ := pos_ m; end_ := v;
     max_ := max_ m; ind_ := ind_ m; blk_ := blk_ m; got_ := got_ m;
     chr_ := chr_ m; lno_ := lno_ m; cno_ := cno_ m; num_ := num_ m;
     eof_ := eof_ m; mat_ := mat_ m; in_ := in_ m |}.
Definition with_max (v : Z) (m : Matcher) : Matcher :=
  {| opt_ := opt_ m; buf_ := buf_ m; txt_ := txt_ m; len_ := len_ m;
     cap_ := cap_ m; cur_ := cur_ m; pos_ := pos_ m; end_ := end_ m;
     max_ := v; ind_ := ind_ m; blk_ := blk_ m; got_ := got_ m;
     chr_ := chr_ m; lno_ := lno_ m; cno_ := cno_ m; num_ := num_ m;
     eof_ := eof_ m; mat_ := mat_ m; in_ := in_ m |}.
Definition with_ind (v : Z) (m : Matcher) : Matcher :=
  {| opt_ := opt_ m; buf_ := buf_ m; txt_ := txt_ m; len_ := len_ m;
     cap_ := cap_ m; cur_ := cur_ m; pos_ := pos_ m; end_ := end_ m;
     max_ := max_ m; ind_ := v; blk_ := blk_ m; got_ := got_ m;
     chr_ := chr_ m; lno_ := lno_ m; cno_ := cno_ m; num_ := num_ m;
     eof_ := eof_ m; mat_ := mat_ m; in_ := in_ m |}.
Definition with_blk (v : Z) (m : Matcher) : Matcher :=
  {| opt_ := opt_ m; buf_ := buf_ m; txt_ := txt_ m; len_ := len_ m;
     cap_ := cap_ m; cur_ := cur_ m; pos_ := pos_ m; end_ := end_ m;
     max_ := max_ m; ind_ := ind_ m; blk_ := v; got_ := got_ m;
     chr_ := chr_ m; lno_ := lno_ m; cno_ := cno_ m; num_ := num_ m;
     eof_ := eof_ m; mat_ := mat_ m; in_ := in_ m |}.
Definition with_got (v : Z) (m : Matcher) : Matcher :=
  {| opt_ := opt_ m; buf_ := buf_ m; txt_ := txt_ m; len_ := len_ m;
     cap_ := cap_ m; cur_ := cur_ m; pos_ := pos_ m; end_ := end_ m;
     max_ := max_ m; ind_ := ind_ m; blk_ := blk_ m; got_ := v;
     chr_ := chr_ m; lno_ := lno_ m; cno_ := cno_ m; num_ := num_ m;
     eof_ := eof_ m; mat_ := mat_ m; in_ := in_ m |}.
Definition with_chr (v : Z) (m : Matcher) : Matcher :=
  {| opt_ := opt_ m; buf_ := buf_ m; txt_ := txt_ m; len_ := len_ m;
     cap_ := cap_ m; cur_ := cur_ m; pos_ := pos_ m; end_ := end_ m;
     max_ := max_ m; ind_ := ind_ m; blk_ := blk_ m; got_ := got_ m;
     chr_ := v; lno_ := lno_ m; cno_ := cno_ m; num_ := num_ m;
     eof_ := eof_ m; mat_ := mat_ m; in_ := in_ m |}.
Definition with_lno (v : Z) (m : Matcher) : Matcher :=
  {| opt_ := opt_ m; buf_ := buf_ m; txt_ := txt_ m; len_ := len_ m;
     cap_ := cap_ m; cur_ := cur_ m; pos_ := pos_ m; end_ := end_ m;
     max_ := max_ m; ind_ := ind_ m; blk_ := blk_ m; got_ := got_ m;
     chr_ := chr_ m; lno_ := v; cno_ := cno_ m; num_ := num_ m;
     eof_ := eof_ m; mat_ := mat_ m; in_ := in_ m |}.
Definition with_cno (v : Z) (m : Matcher) : Matcher :=
  {| opt_ := opt_ m; buf_ := buf_ m; txt_ := txt_ m; len_ := len_ m;
     cap_ := cap_ m; cur_ := cur_ m; pos_ := pos_ m; end_ := end_ m;
     max_ := max_ m; ind_ := ind_ m; blk_ := blk_ m; got_ := got_ m;
     chr_ := chr_ m; lno_ := lno_ m; cno_ := v; num_ := num_ m;
     eof_ := eof_ m; mat_ := mat_ m; in_ := in_ m |}.
Definition with_num (v : Z) (m : Matcher) : Matcher :=
  {| opt_ := opt_ m; buf_ := buf_ m; txt_ := txt_ m; len_ := len_ m;
     cap_ := cap_ m; cur_ := cur_ m; pos_ := pos_ m; end_ := end_ m;
     max_ := max_ m; ind_ := ind_ m; blk_ := blk_ m; got_ := got_ m;
     chr_ := chr_ m; lno_ := lno_ m; cno_ := cno_ m; num_ := v;
     eof_ := eof_ m; mat_ := mat_ m; in_ := in_ m |}.
Definition with_eof (v : bool) (m : Matcher) : Matcher :=
  {| opt_ := opt_ m; buf_ := buf_ m; txt_ := txt_ m; len_ := len_ m;
     cap_ := cap_ m; cur_ := cur_ m; pos_ := pos_ m; end_ := end_ m;
     max_ := max_ m; ind_ := ind_ m; blk_ := blk_ m; got_ := got_ m;
     chr_ := chr_ m; lno_ := lno_ m; cno_ := cno_ m; num_ := num_ m;
     eof_ := v; mat_ := mat_ m; in_ := in_ m |}.
Definition with_mat (v : bool) (m : Matcher) : Matcher :=
  {| opt_ := opt_ m; buf_ := buf_ m; txt_ := txt_ m; len_ := len_ m;
     cap_ := cap_ m; cur_ := cur_ m; pos_ := pos_ m; end_ := end_ m;
     max_ := max_ m; ind_ := ind_ m; blk_ := blk_ m; got_ := got_ m;
     chr_ := chr_ m; lno_ := lno_ m; cno_ := cno_ m; num_ := num_ m;
     eof_ := eof_ m; mat_ := v; in_ := in_ m |}.
Definition with_in (v : Input) (m : Matcher) : Matcher :=
  {| opt_ := opt_ m; buf_ := buf_ m; txt_ := txt_ m; len_ := len_ m;
     cap_ := cap_ m; cur_ := cur_ m; pos_ := pos_ m; end_ := end_ m;
     max_ := max_ m; ind_ := ind_ m; blk_ := blk_ m; got_ := got_ m;
     chr_ := chr_ m; lno_ := lno_ m; cno_ := cno_ m; num_ := num_ m;
     eof_ := eof_ m; mat_ := mat_ m; in_ := v |}.

(** ** Buffer cells *)

(** [buf[i]] read as [unsigned char].  An index outside the array is
    undefined in C++; the model reads 0 there. *)
Definition load (buf : list Z) (i : Z) : Z :=
  uchar (default 0 (buf !! Z.to_nat i)).

(** [buf[i] = c] with [c] an [int] truncated to a byte.  An index outside
    the array leaves the model's buffer unchanged. *)
Definition store (i : Z) (c : Z) (buf : list Z) : list Z :=
  <[Z.to_nat i := uchar c]> buf.

(** Overwrite the cells starting at offset [off] with [bytes]. *)
Definition write_at (off : Z) (bytes : list Z) (buf : list Z) : list Z :=
  take (Z.to_nat off) buf ++ bytes ++ drop (Z.to_nat off + length bytes) buf.

(** [std::memmove(buf + dst, buf + src, n)]. *)
Definition memmove (dst src n : Z) (buf : list Z) : list Z :=
  write_at dst (take (Z.to_nat n) (drop (Z.to_nat src) buf)) buf.

(** [new char[n]]: the fresh cells are indeterminate in C++; the model
    fills them with 0. *)
Definition new_char (n : Z) : list Z := replicate (Z.to_nat n) 0.

(** ** Computations on a matcher *)

(** A member function that returns a value, changes the matcher, and may
    fail to return (a loop that does not end, or a read beyond an array). *)
Definition M (A : Type) : Type := Matcher -> option (A * Matcher).

Definition ret {A} (a : A) : M A := fun m => Some (a, m).

Definition bind {A B} (c : M A) (k : A -> M B) : M B :=
  fun m => match c m with
           | Some (a, m') => k a m'
           | None => None
           end.

Definition modify (f : Matcher -> Matcher) : M unit := fun m => Some (tt, f m).

Definition gets {A} (f : Matcher -> A) : M A := fun m => Some (f m, m).

Declare Scope matcher_scope.
Delimit Scope matcher_scope with matcher.
Notation "x <- c ;; k" := (bind c (fun x => k))
  (at level 100, c at next level, right associativity) : matcher_scope.
Notation "c ;;; k" := (bind c (fun _ => k))
  (at level 100, right associativity) : matcher_scope.

(** Unfold the plumbing of a computation. *)
Ltac run_monad :=
  unfold bind, ret, modify, gets, id in *; cbn [fst snd] in *.

Local Open Scope matcher_scope.

(** ** Option strings and [reset] *)

(** [isdigit] on a character of the option string. *)
Definition isdigit (c : ascii) : bool :=
  (48 <=? Z.of_N (N_of_ascii c)) && (Z.of_N (N_of_ascii c) <=? 57).

(** [c - '0']. *)
Definition digit_value (c : ascii) : Z := Z.of_N (N_of_ascii c) - 48.

(** The loop of [reset] over the option string.  The list holds the bytes
    in memory from the pointer [opt] on: the C string ends at the first 0
    byte of the list, or at the end of the list when it holds none (the
    terminator then is the byte after the last one); what the list holds
    after a 0 byte is the memory that follows the terminator.  In the case
    ['T'] the pointer first skips one character, or two when the next one
    is ['='], and the loop increment then skips the character it landed
    on.  When it landed on the terminator the increment steps over it and
    the scan goes on in the memory after the string; where the list says
    nothing about that memory there is no result. *)
Fixpoint parse_options (s : string) (o : Option) : option Option :=
  match s with
  | EmptyString => Some o
  | String c s1 =>
      if Ascii.eqb c "000" then Some o
      else if Ascii.eqb c "A" then
        parse_options s1 (mkOption true (opt_N o) (opt_T o))
      else if Ascii.eqb c "N" then
        parse_options s1 (mkOption (opt_A o) true (opt_T o))
      else if Ascii.eqb c "T" then
        match
          match s1 with
          | String e s2 => if Ascii.eqb e "=" then s2 else s1
          | EmptyString => s1
          end
        with
        | EmptyString => None
        | String d s3 =>
            parse_options s3
              (mkOption (opt_A o) (opt_N o)
                        (if isdigit d then digit_value d else 0))
        end
      else parse_options s1 o
  end.

(** The assignments of [reset] after the option block: every member
    except [opt_], [max_], [in] and the cells of [buf_] after the first. *)
Definition reset_members (o : Option) (m : Matcher) : Matcher :=
  {| opt_ := o;
     buf_ := store 0 Const.NUL (buf_ m);
     txt_ := 0;
     len_ := 0;
     cap_ := 0;
     cur_ := 0;
     pos_ := 0;
     end_ := 0;
     max_ := max_ m;
     ind_ := 0;
     blk_ := 0;
     got_ := Const.BOB;
     chr_ := Const.UNK;
     lno_ := 1;
     cno_ := 0;
     num_ := 0;
     eof_ := false;
     mat_ := false;
     in_ := in_ m |}.

(** [reset(opt)]; [None] is the null pointer, for which the option block
    is skipped. *)
Definition reset (opt : option string) : M unit := fun m =>
  match
    match opt with
    | Some s => parse_options s (mkOption false false 8)
    | None => Some (opt_ m)
    end
  with
  | None => None
  | Some o => Some (tt, reset_members o m)
  end.

(** The object as [init] finds it: the buffer of [2 * BLOCK] cells is
    allocated and [in] is set; the other members are indeterminate until
    [reset] assigns them, and [reset(NULL)] does not assign [opt_]: [o0]
    stands for what [opt_] holds then. *)
Definition allocated (o0 : Option) (inp : Input) : Matcher :=
  {| opt_ := o0;
     buf_ := new_char (2 * Const.BLOCK);
     txt_ := 0; len_ := 0; cap_ := 0; cur_ := 0; pos_ := 0; end_ := 0;
     max_ := 2 * Const.BLOCK;
     ind_ := 0; blk_ := 0; got_ := 0; chr_ := 0; lno_ := 0; cno_ := 0;
     num_ := 0; eof_ := false; mat_ := false;
     in_ := inp |}.

(** The constructor [AbstractMatcher(inp, opt)] with [init(opt)]. *)
Definition init (o0 : Option) (opt : option string) (inp : Input) : option Matcher :=
  match reset opt (allocated o0 inp) with
  | Some (_, m) => Some m
  | None => None
  end.

(** [input(inp)]: set the source and reset. *)
Definition input_from (inp : Input) : M unit := fun m =>
  reset None (with_in inp m).

(** ** Position tracker *)

(** The loop of [update] over the cells before [txt_]: [s] is the offset
    of the cell at the head of [l], [t] the offset of the last newline seen
    (or 0). *)
Fixpoint update_loop (l : list Z) (s : Z) (lno t cno : Z) : Z * Z * Z :=
  match l with
  | [] => (lno, t, cno)
  | c :: l' =>
      if uchar c =? NL
      then update_loop l' (s + 1) (sz (lno + 1)) s 0
      else update_loop l' (s + 1) lno t cno
  end.

(** [update()]. *)
Definition update (m : Matcher) : Matcher :=
  let '(lno, t, cno) :=
    update_loop (take (Z.to_nat (txt_ m)) (buf_ m)) 0 (lno_ m) 0 (cno_ m) in
  with_num (sz (num_ m + txt_ m))
    (with_cno (sz (cno + (txt_ m - t)))
       (with_lno lno m)).

(** ** Accessors *)

Definition accept (m : Matcher) : Z := cap_ m.

(** [text()] is the pointer [txt_]; the model returns the [len_] cells it
    points to. *)
Definition text (m : Matcher) : list Z :=
  take (Z.to_nat (len_ m)) (drop (Z.to_nat (txt_ m)) (buf_ m)).

Definition size (m : Matcher) : Z := len_ m.

(** The number of newlines among the cells of [l]. *)
Fixpoint count_nl (l : list Z) : Z :=
  match l with
  | [] => 0
  | c :: l' => (if uchar c =? NL then 1 else 0) + count_nl l'
  end.

(** [lineno()]: [lno_] plus one for each newline before [txt_]. *)
Fixpoint lineno_loop (l : list Z) (n : Z) : Z :=
  match l with
  | [] => n
  | c :: l' => lineno_loop l' (sz (n + (if uchar c =? NL then 1 else 0)))
  end.

Definition lineno (m : Matcher) : Z :=
  lineno_loop (take (Z.to_nat (txt_ m)) (buf_ m)) (lno_ m).

(** The loop of [columno()], walking back from [txt_ - 1]: [l] holds the
    cells before [txt_] in reverse order and [k] counts the cells already
    walked over, which is [txt_ - s - 1] at the cell [s]. *)
Fixpoint columno_loop (l : list Z) (k : Z) : option Z :=
  match l with
  | [] => None
  | c :: l' => if uchar c =? NL then Some k else columno_loop l' (k + 1)
  end.

Definition columno (m : Matcher) : Z :=
  match columno_loop (rev (take (Z.to_nat (txt_ m)) (buf_ m))) 0 with
  | Some k => k
  | None => sz (cno_ m + txt_ m)
  end.

Definition first (m : Matcher) : Z := sz (num_ m + txt_ m).

Definition last (m : Matcher) : Z := sz (first m + size m).

Definition at_bob (m : Matcher) : bool := got_ m =? Const.BOB.

Definition hit_end (m : Matcher) : bool := (pos_ m =? end_ m) && eof_ m.

Definition at_bol (m : Matcher) : bool := got_ m =? NL.

Definition set_bol (bol : bool) (m : Matcher) : Matcher :=
  if bol then with_got NL m
  else if got_ m =? NL then with_got Const.UNK m
  else m.

Definition flush (m : Matcher) : Matcher := with_pos (end_ m) m.

Definition set_end (eof : bool) (m : Matcher) : Matcher :=
  with_eof eof (if eof then flush m else m).

Definition more (m : Matcher) : Matcher := with_cur (txt_ m) m.

(** [set_current(loc)].  The source starts with [assert(loc <= end_)],
    which ends the program when it fails; the model does not carry the
    assertion, and what is stated about [set_current] is stated for
    [loc <= end_]. *)
Definition set_current (loc : Z) (m : Matcher) : Matcher :=
  let m1 := with_cur loc (with_pos loc m) in
  let m2 :=
    if 0 <? cur_ m1
    then with_got (load (buf_ m1) (sz (loc - 1))) m1
    else with_got Const.UNK m1 in
  if loc <? end_ m2
  then with_chr (load (buf_ m2) loc) m2
  else with_chr Const.UNK m2.

(** ** Growing and refilling the buffer *)

(** The loop [while (max_ < newmax) max_ *= 2] of [grow].  After 64
    doublings a 64-bit value is 0 and stays 0, so a loop that has not
    stopped by then never stops: 64 rounds of fuel decide it. *)
Fixpoint grow_loop (fuel : nat) (mx newmax : Z) : option Z :=
  if mx <? newmax then
    match fuel with
    | O => None
    | S f => grow_loop f (sz (mx * 2)) newmax
    end
  else Some mx.

(** The four assignments [cur_ -= gap; ind_ -= gap; pos_ -= gap;
    end_ -= gap] shared by the two branches of [grow]. *)
Definition rebase (gap : Z) (m : Matcher) : Matcher :=
  with_end (sz (end_ m - gap))
    (with_pos (sz (pos_ m - gap))
       (with_ind (sz (ind_ m - gap))
          (with_cur (sz (cur_ m - gap)) m))).

(** [grow(need)]. *)
Definition grow (need : Z) : M bool := fun m =>
  if sz (max_ m - end_ m) >=? need then Some (false, m)
  else
    let gap := txt_ m in
    if gap >=? need then
      let m1 := rebase gap (update m) in
      Some (true,
            with_txt 0 (with_buf (memmove 0 gap (end_ m1) (buf_ m1)) m1))
    else
      let newmax := sz (sz (end_ m - gap) + need) in
      let oldmax := max_ m in
      match grow_loop 64 (max_ m) newmax with
      | None => None
      | Some mx =>
          let m0 := with_max mx m in
          if oldmax <? max_ m0 then
            let m1 := rebase gap (update m0) in
            let newbuf :=
              write_at 0
                (take (Z.to_nat (end_ m1)) (drop (Z.to_nat gap) (buf_ m1)))
                (new_char (max_ m1)) in
            Some (true, with_txt 0 (with_buf newbuf m1))
          else Some (true, m0)
      end.

(** [wrap()] of the base class. *)
Definition wrap : M bool := ret false.

(** The virtual [get(s, n)] of the base class, called with [s = buf_ + end_]:
    the bytes the source delivers go to the cells from [end_] on, and their
    number is returned. *)
Definition get_block (n : Z) : M Z := fun m =>
  let '(bytes, src) := Input_get n (in_ m) in
  Some (Z.of_nat (length bytes),
        with_in src (with_buf (write_at (end_ m) bytes (buf_ m)) m)).

(** [end_ += get(buf_ + end_, blk_ ? blk_ : max_ - end_)]. *)
Definition refill : M unit :=
  m <- gets id ;;
  k <- get_block (if blk_ m =? 0 then sz (max_ m - end_ m) else blk_ m) ;;
  modify (fun m => with_end (sz (end_ m + k)) m).

(** [if (end_ == max_) (void)grow()]. *)
Definition grow_if_full : M unit :=
  m <- gets id ;;
  if end_ m =? max_ m then (_ <- grow Const.BLOCK ;; ret tt) else ret tt.

(** The loop [while (true)] of [get()]. *)
Fixpoint get_loop (fuel : nat) : M Z :=
  match fuel with
  | O => fun _ => None
  | S f =>
      refill ;;;
      m <- gets id ;;
      if pos_ m <? end_ m then
        modify (with_pos (sz (pos_ m + 1))) ;;;
        ret (load (buf_ m) (pos_ m))
      else
        w <- wrap ;;
        if w : bool then get_loop f
        else modify (with_eof true) ;;; ret EOF
  end.

(** [get()].  The base [wrap()] returns false, so the loop returns in its
    first round. *)
Definition get : M Z :=
  m <- gets id ;;
  if pos_ m <? end_ m then
    modify (with_pos (sz (pos_ m + 1))) ;;;
    ret (load (buf_ m) (pos_ m))
  else if eof_ m then ret EOF
  else grow_if_full ;;; get_loop 1.

(** The loop [while (true)] of [peek()]. *)
Fixpoint peek_loop (fuel : nat) : M Z :=
  match fuel with
  | O => fun _ => None
  | S f =>
      refill ;;;
      m <- gets id ;;
      if pos_ m <? end_ m then ret (load (buf_ m) (pos_ m))
      else
        w <- wrap ;;
        if w : bool then peek_loop f
        else modify (with_eof true) ;;; ret EOF
  end.

(** [peek()]. *)
Definition peek : M Z :=
  m <- gets id ;;
  if pos_ m <? end_ m then ret (load (buf_ m) (pos_ m))
  else if eof_ m then ret EOF
  else grow_if_full ;;; peek_loop 1.

(** [at_end()]: [peek()] is called only when [pos_ == end_] and not
    [eof_]. *)
Definition at_end : M bool :=
  m <- gets id ;;
  if negb (pos_ m =? end_ m) then ret false
  else if eof_ m then ret true
  else c <- peek ;; ret (c =? EOF).

(** ** Lexer primitives *)

(** [input()]. *)
Definition input : M Z :=
  m <- gets id ;;
  (if pos_ m <? end_ m
   then modify (fun m => with_pos (sz (pos_ m + 1)) (with_got (chr_ m) m))
   else c <- get ;; modify (with_got c)) ;;;
  modify (fun m => if pos_ m <? end_ m
                   then with_chr (load (buf_ m) (pos_ m)) m else m) ;;;
  modify (fun m => with_cur (pos_ m) m) ;;;
  gets got_.

(** [unput(c)]. *)
Definition unput (c : Z) : M unit :=
  modify (fun m => if pos_ m <? end_ m
                   then with_buf (store (pos_ m) (chr_ m) (buf_ m)) m else m) ;;;
  m <- gets id ;;
  (if 0 <? pos_ m
   then modify (fun m => with_pos (sz (pos_ m - 1)) m)
   else
     modify (fun m => with_len 0 (with_txt 0 m)) ;;;
     grow_if_full ;;;
     modify (fun m => with_buf (memmove 1 0 (end_ m) (buf_ m)) m) ;;;
     modify (fun m => with_end (sz (end_ m + 1)) m)) ;;;
  modify (fun m => with_cur (pos_ m) (with_chr (uchar c) m)).

(** [less(n)]; a failed [assert] ends the program: no result. *)
Definition less (n : Z) : M unit :=
  m <- gets id ;;
  if n <? len_ m then
    if negb (pos_ m <? max_ m) then (fun _ => None)
    else
      modify (fun m => with_buf (store (pos_ m) (chr_ m) (buf_ m)) m) ;;;
      modify (fun m => with_pos (sz (txt_ m + n)) m) ;;;
      m1 <- gets id ;;
      if negb (pos_ m1 <? max_ m1) then (fun _ => None)
      else
        modify (fun m => with_chr (load (buf_ m) (pos_ m)) m) ;;;
        modify (fun m => with_buf (store (pos_ m) Const.NUL (buf_ m)) m) ;;;
        modify (fun m => with_cur (pos_ m) (with_len n m))
  else ret tt.

(** ** The engine, [matches] and the iterator *)

(** An iterator holds a pointer to its matcher; [None] is the null
    pointer, which is the end of the matches.  Matchers live in a store
    indexed by their addresses. *)
Record Iterator := mkIterator {
  matcher_ : option nat;
  method_ : Method
}.

(** Run a member function on the matcher at address [p]. *)
Definition at_address {A} (p : nat) (c : M A) (h : gmap nat Matcher)
  : option (A * gmap nat Matcher) :=
  match h !! p with
  | None => None
  | Some m =>
      match c m with
      | None => None
      | Some (a, m') => Some (a, <[p := m']> h)
      end
  end.

(** The default constructor [Iterator()]: [method_] is left indeterminate,
    [method] stands for what it holds. *)
Definition Iterator_default (method : Method) : Iterator :=
  mkIterator None method.

(** [operator==]. *)
Definition Iterator_eq (a b : Iterator) : bool :=
  bool_decide (matcher_ a = matcher_ b).

(** [operator!=]. *)
Definition Iterator_ne (a b : Iterator) : bool :=
  negb (bool_decide (matcher_ a = matcher_ b)).

Section Engine.

(** The pure virtual [match(method)], supplied by the engine. *)
Variable match_ : Method -> M Z.

(** [matches()]: [mat_ = match(Const::MATCH) && at_end()], with [at_end()]
    evaluated only after a nonzero [match]. *)
Definition matches : M Z :=
  m <- gets id ;;
  (if negb (mat_ m) && at_bob m then
     r <- match_ Const.MATCH ;;
     b <- (if r =? 0 then ret false else at_end) ;;
     modify (with_mat b)
   else ret tt) ;;;
  m' <- gets id ;;
  ret (if mat_ m' then 1 else 0).

(** [Iterator(matcher, method)]. *)
Definition Iterator_new (matcher : option nat) (method : Method)
    (h : gmap nat Matcher) : option (Iterator * gmap nat Matcher) :=
  match matcher with
  | None => Some (mkIterator None method, h)
  | Some p =>
      match at_address p (reset None ;;; match_ method) h with
      | None => None
      | Some (r, h') =>
          Some (mkIterator (if r =? 0 then None else Some p) method, h')
      end
  end.

(** [operator++()]; on the end iterator it dereferences the null
    pointer: no result. *)
Definition Iterator_incr (it : Iterator) (h : gmap nat Matcher)
    : option (Iterator * gmap nat Matcher) :=
  match matcher_ it with
  | None => None
  | Some p =>
      match at_address p (match_ (method_ it)) h with
      | None => None
      | Some (r, h') =>
          Some (mkIterator (if r =? 0 then None else Some p) (method_ it), h')
      end
  end.

End Engine.

(** ** Vocabulary of the statements *)

(** Does the character [c] occur in [s]? *)
Fixpoint has_char (c : ascii) (s : string) : bool :=
  match s with
  | EmptyString => false
  | String d s' => Ascii.eqb d c || has_char c s'
  end.

(** [n] calls of [c] in a row; the result is that of the last call, or [a]
    when there is none. *)
Fixpoint repeat_call {A} (n : nat) (c : M A) (a : A) : M A :=
  match n with
  | O => ret a
  | S k => x <- c ;; repeat_call k c x
  end.

(** The options a matcher has when built with the option string [""]. *)
Definition default_options : Option := mkOption false false 8.

(** A matcher right after construction on the source [inp]. *)
Definition started (inp : Input) : Matcher :=
  reset_members default_options (allocated default_options inp).

(** Three engines for the examples: one that reports its method as the
    accept index, one that takes all that is buffered and declares the end
    of the input, and one that never returns. *)
Definition engine_echo : Method -> M Z :=
  fun method m => Some (method, with_cap method m).

Definition engine_all : Method -> M Z :=
  fun _ m => Some (1, with_cap 1 (with_eof true (with_pos (end_ m) m))).

Definition engine_stuck : Method -> M Z :=
  fun _ _ => None.

(** A window of 8192 cells holding 8000 bytes, with the match at offset
    4000: 192 cells are free after [end_] and 4000 before [txt_]. *)
Definition crowded : Matcher :=
  {| opt_ := default_options;
     buf_ := new_char 8192;
     txt_ := 4000; len_ := 0; cap_ := 0; cur_ := 4000; pos_ := 4000;
     end_ := 8000; max_ := 8192;
     ind_ := 0; blk_ := 0; got_ := Const.UNK; chr_ := 0; lno_ := 1; cno_ := 0;
     num_ := 0; eof_ := false; mat_ := false;
     in_ := [] |}.

(** Run the calls of [cs] in order and collect what they return. *)
Fixpoint collect {A} (cs : list (M A)) : M (list A) :=
  match cs with
  | [] => ret []
  | c :: cs' => x <- c ;; xs <- collect cs' ;; ret (x :: xs)
  end.

(** The offset of the last newline of [l], if there is one: a scan from
    the front that remembers the latest newline seen. *)
Fixpoint last_nl_from (l : list Z) (i : Z) (seen : option Z) : option Z :=
  match l with
  | [] => seen
  | c :: l' => last_nl_from l' (i + 1) (if uchar c =? NL then Some i else seen)
  end.

Definition last_nl (l : list Z) : option Z := last_nl_from l 0 None.

(** The window of [m] shows the input [inp]: [inp] is the whole sequence
    of bytes of the source, of which the first [num_] have left the
    buffer, the next [end_] sit in the cells [0 .. end_) (the cell at
    [pos_] apart, which may hold the terminator of the match while [chr_]
    keeps its byte), and the rest is still in the source.  The tracker has
    counted the newlines of the part that left, and the column count is
    the length of that part as long as it holds no newline. *)
Record window_ok (inp : list Z) (m : Matcher) : Prop := {
  wo_txt : 0 <= txt_ m <= pos_ m;
  wo_pos : pos_ m <= end_ m;
  wo_end : end_ m <= max_ m;
  wo_max : 0 < max_ m < size_modulus;
  wo_buf : Z.of_nat (length (buf_ m)) = max_ m;
  wo_num : 0 <= num_ m;
  wo_inp : Z.of_nat (length inp) <= 2 ^ 62;
  wo_src : in_ m = drop (Z.to_nat (num_ m + end_ m)) inp;
  wo_len : num_ m + end_ m <= Z.of_nat (length inp);
  wo_cells : forall i : Z,
      0 <= i < end_ m -> i <> pos_ m ->
      buf_ m !! Z.to_nat i = inp !! Z.to_nat (num_ m + i);
  wo_lno : lno_ m = 1 + count_nl (take (Z.to_nat (num_ m)) inp);
  wo_cno : count_nl (take (Z.to_nat (num_ m)) inp) = 0 -> cno_ m = num_ m
}.

(** The window shows the input in every cell, the one at [pos_] included:
    no terminator is installed, as during a match. *)
Definition window_clean (inp : list Z) (m : Matcher) : Prop :=
  window_ok inp m /\
  (pos_ m < end_ m ->
   buf_ m !! Z.to_nat (pos_ m) = inp !! Z.to_nat (num_ m + pos_ m)).

(** [m'] is [m] with the cells before [txt_] dropped from the window and
    absorbed by the tracker, in a buffer of [mx] cells. *)
Record dropped_prefix (mx : Z) (m m' : Matcher) : Prop := {
  dp_txt : txt_ m' = 0;
  dp_pos : pos_ m' = sz (pos_ m - txt_ m);
  dp_cur : cur_ m' = sz (cur_ m - txt_ m);
  dp_end : end_ m' = sz (end_ m - txt_ m);
  dp_max : max_ m' = mx;
  dp_buf : Z.of_nat (length (buf_ m')) = mx;
  dp_num : num_ m' = sz (num_ m + txt_ m);
  dp_lno : lno_ m' = lineno m;
  dp_cno : count_nl (take (Z.to_nat (txt_ m)) (buf_ m)) = 0 ->
           cno_ m' = sz (cno_ m + txt_ m);
  dp_cells : forall i : Z,
      0 <= i < end_ m - txt_ m ->
      buf_ m' !! Z.to_nat i = buf_ m !! Z.to_nat (txt_ m + i);
  dp_same : len_ m' = len_ m /\ cap_ m' = cap_ m /\ got_ m' = got_ m /\
            chr_ m' = chr_ m /\ eof_ m' = eof_ m /\ mat_ m' = mat_ m /\
            blk_ m' = blk_ m /\ opt_ m' = opt_ m /\ in_ m' = in_ m
}.

(** The input ["a1 22\nfoo"] of the tokenizer scenario: nine bytes with a
    newline at offset 5. *)
Definition e1_input : list Z := [97; 49; 32; 50; 50; 10; 102; 111; 111].

(** The matcher on [e1_input] once nine calls of [get()] have read it. *)
Definition e1_read : Matcher :=
  {| opt_ := default_options;
     buf_ := e1_input ++ replicate (Z.to_nat 8183) 0;
     txt_ := 0; len_ := 0; cap_ := 0; cur_ := 0; pos_ := 9;
     end_ := 9; max_ := 8192;
     ind_ := 0; blk_ := 0; got_ := Const.BOB; chr_ := Const.UNK;
     lno_ := 1; cno_ := 0; num_ := 0; eof_ := false; mat_ := false;
     in_ := [] |}.

(** The same matcher when an engine has reported the match ["foo"]: three
    bytes from offset 6, the cursor after them. *)
Definition e1_foo : Matcher :=
  with_cap 1 (with_len 3 (with_txt 6 (set_current 9 e1_read))).

(** The matcher on the source ["123"] after [matches()] with the engine
    [engine_all]. *)
Definition memo_done : Matcher :=
  with_mat true (with_cap 1 (with_eof true (started [49; 50; 51]))).

(** ** More of [AbstractMatcher] *)

(** The virtual [get(s, n)] of the base class called with
    [s = buf_ + off]: the bytes delivered go to the cells from [off] on. *)
Definition get_block_at (off n : Z) : M Z := fun m =>
  let '(bytes, src) := Input_get n (in_ m) in
  Some (Z.of_nat (length bytes),
        with_in src (with_buf (write_at off bytes (buf_ m)) m)).

Section Sized.

(** [in.size()]: the number of bytes the source says it holds, 0 when it
    cannot tell.  [Input] is declared in input.h; its [size] is taken as
    given. *)
Variable Input_size : Input -> Z.

(** [buffer(blk)]. *)
Definition buffer (blk : Z) : M bool :=
  let blk := if blk >? Const.BLOCK then Const.BLOCK else blk in
  modify (with_blk blk) ;;;
  if blk =? 0 then
    m <- gets id ;;
    if negb (at_bob m) then ret false
    else
      let n := Input_size (in_ m) in
      if n =? 0 then ret false
      else
        _ <- grow n ;;
        m1 <- gets id ;;
        k <- get_block_at 0 (max_ m1) ;;
        if negb (k =? n) then ret false
        else modify (with_eof true) ;;; ret true
  else ret true.

(** [interactive()]. *)
Definition interactive : M unit := _ <- buffer 1 ;; ret tt.

End Sized.

(** The loop [while (!eof_)] of [rest()]. *)
Fixpoint rest_loop (fuel : nat) : M unit :=
  m <- gets id ;;
  if eof_ m then ret tt
  else
    match fuel with
    | O => fun _ => None
    | S f =>
        _ <- grow Const.BLOCK ;;
        modify (fun m => with_pos (end_ m) m) ;;;
        refill ;;;
        m1 <- gets id ;;
        if pos_ m1 =? end_ m1 then
          w <- wrap ;;
          if w : bool then rest_loop f else modify (with_eof true)
        else rest_loop f
    end.

(** [rest()].  The pointer returned is [txt_]; the model returns the
    [len_] cells it points to.  A round of the loop that does not end it
    has taken at least one byte from the source, so one round more than
    the source has bytes is fuel enough. *)
Definition rest : M (list Z) :=
  modify (fun m => if pos_ m <? end_ m
                   then with_buf (store (pos_ m) (chr_ m) (buf_ m)) m else m) ;;;
  modify (fun m =>
            if 0 <? pos_ m then
              let m1 := update (with_txt (pos_ m) m) in
              let m2 := with_end (sz (end_ m1 - pos_ m1)) m1 in
              with_buf (memmove 0 (pos_ m2) (end_ m2) (buf_ m2)) m2
            else m) ;;;
  modify (with_txt 0) ;;;
  m <- gets id ;;
  rest_loop (S (length (in_ m))) ;;;
  modify (fun m => with_pos 0 (with_cur 0 m)) ;;;
  modify (fun m => with_chr (load (buf_ m) 0) m) ;;;
  modify (fun m => with_len (end_ m) m) ;;;
  modify (fun m => with_buf (store (len_ m) Const.NUL (buf_ m)) m) ;;;
  gets text.

(** ** [Operation] *)

(** The functor behind [scan], [find] and [split]: a pointer to the
    matcher and a method. *)
Record Operation := mkOperation {
  op_matcher_ : nat;
  op_method_ : Method
}.

Section Walk.

Variable match_ : Method -> M Z.

(** [operator()]. *)
Definition Operation_call (op : Operation) (h : gmap nat Matcher)
    : option (Z * gmap nat Matcher) :=
  at_address (op_matcher_ op) (match_ (op_method_ op)) h.

(** [begin()]. *)
Definition Operation_begin (op : Operation) (h : gmap nat Matcher)
    : option (Iterator * gmap nat Matcher) :=
  Iterator_new match_ (Some (op_matcher_ op)) (op_method_ op) h.

(** [end()]; [method] stands for the indeterminate [method_]. *)
Definition Operation_end (method : Method) : Iterator :=
  Iterator_default method.

(** [n] times [operator++]. *)
Fixpoint advance (n : nat) (it : Iterator) (h : gmap nat Matcher)
    : option (Iterator * gmap nat Matcher) :=
  match n with
  | O => Some (it, h)
  | S k =>
      match Iterator_incr match_ it h with
      | Some (it', h') => advance k it' h'
      | None => None
      end
  end.

End Walk.

(** ** [PatternMatcher]: the pattern binding *)

(** The members [own_] and [pat_] of [PatternMatcher], with the set of
    pattern objects that are allocated.  A pattern object is known by its
    address; [None] is the null pointer. *)
Record Binding := mkBinding {
  own_ : bool;
  pat_ : option nat;
  live : gset nat
}.

(** [delete p]: nothing for the null pointer; an address that is not
    allocated cannot be deleted (no result). *)
Definition delete_pattern (p : option nat) (l : gset nat) : option (gset nat) :=
  match p with
  | None => Some l
  | Some a => if decide (a ∈ l) then Some (l ∖ {[a]}) else None
  end.

(** The constructors that take a pattern object or a pointer to one. *)
Definition Binding_borrowed (p : option nat) (l : gset nat) : Binding :=
  mkBinding false p l.

(** The constructors that take a regex: [pat_(new Pattern(regex))].  The
    new object gets an address that is not allocated. *)
Definition Binding_compiled (l : gset nat) : Binding :=
  mkBinding true (Some (fresh l)) (l ∪ {[fresh l]}).

(** [pattern(const Pattern& pat)], with [a] the address of [pat]. *)
Definition pattern_object (a : nat) (b : Binding) : option Binding :=
  if decide (pat_ b = Some a) then Some b
  else
    match (if own_ b then delete_pattern (pat_ b) (live b) else Some (live b)) with
    | None => None
    | Some l => Some (mkBinding false (Some a) l)
    end.

(** [pattern(const char *regex)] and [pattern(const std::string& regex)]. *)
Definition pattern_regex (b : Binding) : option Binding :=
  match (if own_ b then delete_pattern (pat_ b) (live b) else Some (live b)) with
  | None => None
  | Some l => Some (mkBinding true (Some (fresh l)) (l ∪ {[fresh l]}))
  end.

(** The part of [~PatternMatcher()] that concerns the pattern. *)
Definition Binding_destroy (b : Binding) : option (gset nat) :=
  if own_ b then delete_pattern (pat_ b) (live b) else Some (live b).

(** A call that rebinds the pattern. *)
Inductive Rebind :=
  | ToObject (a : nat)
  | ToRegex.

Definition rebind (op : Rebind) (b : Binding) : option Binding :=
  match op with
  | ToObject a => pattern_object a b
  | ToRegex => pattern_regex b
  end.

Fixpoint rebind_all (ops : list Rebind) (b : Binding) : option Binding :=
  match ops with
  | [] => Some b
  | op :: ops' =>
      match rebind op b with
      | Some b' => rebind_all ops' b'
      | None => None
      end
  end.

(** The patterns allocated beyond those of [l0] are the one pattern the
    matcher owns, if it owns one. *)
Definition binding_inv (l0 : gset nat) (b : Binding) : Prop :=
  (own_ b = false /\ live b = l0) \/
  (own_ b = true /\
   exists a : nat, pat_ b = Some a /\ (a ∉ l0) /\ live b = l0 ∪ {[a]}).

(** The held character [chr_] is the byte in the cell under the cursor,
    as [input()] and [set_current] leave it. *)
Definition held_ok (m : Matcher) : Prop :=
  pos_ m < end_ m -> chr_ m = load (buf_ m) (pos_ m).

(** What a reader sees from the offset [off] of the input [inp] on: its
    bytes, then [EOF] forever; the first [n] of them. *)
Definition bytes_from (inp : list Z) (off n : nat) : list Z :=
  map (fun i => from_option uchar EOF (inp !! i)) (seq off n).

(** ** Comparing the match with a string *)

(** [std::strcmp(a, b) == 0] for a C string [a], given by its bytes
    ([a] ends at its first 0 byte, or after its last byte), and the cells
    [b] from a pointer into the buffer to the end of the buffer.  The
    comparison goes on until the strings differ or both end; when it needs
    a cell after the last one of [b] it reads outside the buffer: no
    result. *)
Fixpoint cstr_equal (a b : list Z) : option bool :=
  match a, b with
  | [], [] => None
  | [], c :: _ => Some (uchar c =? 0)
  | _ :: _, [] => None
  | x :: a', c :: b' =>
      if uchar c =? uchar x
      then (if uchar x =? 0 then Some true else cstr_equal a' b')
      else Some false
  end.

(** [operator==(const char *rhs)]: [std::strcmp(rhs, text()) == 0]. *)
Definition equals_cstr (rhs : list Z) (m : Matcher) : option bool :=
  cstr_equal rhs (drop (Z.to_nat (txt_ m)) (buf_ m)).

(** [operator!=(const char *rhs)]. *)
Definition differs_cstr (rhs : list Z) (m : Matcher) : option bool :=
  negb <$> equals_cstr rhs m.

(** [operator==(const std::string& rhs)]:
    [rhs.compare(0, rhs.size(), text(), size()) == 0], on bytes. *)
Definition equals_string (rhs : list Z) (m : Matcher) : bool :=
  bool_decide (map uchar rhs = map uchar (text m)).

(** Closed comparisons of numbers, decided by evaluation. *)
Ltac closed_bound :=
  repeat split; vm_compute;
  first [reflexivity | discriminate | intro; discriminate].

(** * Properties *)

(** ** Arithmetic and monad plumbing *)

Lemma sz_small (z : Z) : 0 <= z < size_modulus -> sz z = z.
Proof. intros H. unfold sz. apply Z.mod_small. exact H. Qed.

Lemma sz_range (z : Z) : 0 <= sz z < size_modulus.
Proof. unfold sz. apply Z.mod_pos_bound. reflexivity. Qed.

Lemma uchar_range (z : Z) : 0 <= uchar z < 256.
Proof. unfold uchar. apply Z.mod_pos_bound. reflexivity. Qed.

Lemma uchar_idemp (z : Z) : uchar (uchar z) = uchar z.
Proof. unfold uchar. apply Z.mod_mod. discriminate. Qed.

(** ** [matches] *)

Section MatchesFacts.

Variable match_ : Method -> M Z.

Lemma matches_result (m m' : Matcher) (r : Z) :
  matches match_ m = Some (r, m') -> r = (if mat_ m' then 1 else 0).
Proof.
  unfold matches. run_monad.
  destruct (negb (mat_ m) && at_bob m).
  - destruct (match_ Const.MATCH m) as [[r0 m1]|]; [|discriminate].
    destruct (r0 =? 0).
    + intros [= <- <-]. reflexivity.
    + destruct (at_end m1) as [[b m2]|]; [|discriminate].
      intros [= <- <-]. reflexivity.
  - intros [= <- <-]. reflexivity.
Qed.

Lemma matches_memoized (m : Matcher) :
  mat_ m = true -> matches match_ m = Some (1, m).
Proof.
  intros H. unfold matches. run_monad. rewrite H. cbn. rewrite H. reflexivity.
Qed.

End MatchesFacts.

(** C6.  Once [matches()] has returned nonzero, any number of further calls
    return the same value and leave the matcher, its source included, as it
    is; this holds whatever engine is plugged in for the further calls, so
    the engine's [match] is not consulted. *)
Theorem matches_memo_stable (match_ match' : Method -> M Z)
    (m m' : Matcher) (r : Z) (n : nat) :
  matches match_ m = Some (r, m') ->
  r <> 0 ->
  repeat_call n (matches match') r m' = Some (r, m').
Proof.
  intros Hfirst Hr.
  pose proof (matches_result _ _ _ _ Hfirst) as Hres.
  assert (Hmat : mat_ m' = true) by (destruct (mat_ m'); [reflexivity | congruence]).
  rewrite Hmat in Hres. subst r.
  induction n as [|n IH]; [reflexivity|].
  cbn [repeat_call]. unfold bind at 1.
  rewrite (matches_memoized match' m' Hmat). exact IH.
Qed.

(** C10.  With nothing memoized and [got_] different from [BOB],
    [matches()] returns 0 and leaves the matcher as it is, whatever the
    engine: [match] is not called and the source is not read. *)
Theorem matches_not_at_bob (match_ : Method -> M Z) (m : Matcher) :
  mat_ m = false ->
  got_ m <> Const.BOB ->
  matches match_ m = Some (0, m).
Proof.
  intros Hmat Hgot. unfold matches, at_bob. run_monad.
  rewrite Hmat. apply Z.eqb_neq in Hgot. rewrite Hgot. cbn.
  rewrite Hmat. reflexivity.
Qed.

(** ** [reset] *)

(** C9.  [reset()] without an option string keeps [opt_] and gives the
    members of the buffer, of the match and of the position tracker their
    initial values; [reset(opt)] with a string takes the options from the
    string alone, starting from [A = false], [N = false], [T = 8]. *)
Theorem reset_null_keeps_options (m : Matcher) :
  (exists m',
      reset None m = Some (tt, m') /\
      opt_ m' = opt_ m /\
      load (buf_ m') 0 = 0 /\
      txt_ m' = 0 /\ len_ m' = 0 /\ cap_ m' = 0 /\ cur_ m' = 0 /\
      pos_ m' = 0 /\ end_ m' = 0 /\ ind_ m' = 0 /\ blk_ m' = 0 /\
      got_ m' = Const.BOB /\ chr_ m' = Const.UNK /\
      lno_ m' = 1 /\ cno_ m' = 0 /\ num_ m' = 0 /\
      eof_ m' = false /\ mat_ m' = false /\
      max_ m' = max_ m /\ in_ m' = in_ m) /\
  (forall (s : string) (o : Option),
      reset (Some s) (with_opt o m) = reset (Some s) m) /\
  (forall (s : string) (m' : Matcher),
      reset (Some s) m = Some (tt, m') ->
      parse_options s (mkOption false false 8) = Some (opt_ m') /\
      m' = reset_members (opt_ m') m).
Proof.
  split; [|split].
  - exists (reset_members (opt_ m) m). unfold reset. cbn.
    repeat split.
    unfold load, store. destruct (buf_ m) as [|c l]; reflexivity.
  - intros s o. unfold reset. destruct (parse_options s _); reflexivity.
  - intros s m'. unfold reset.
    destruct (parse_options s _) as [o|]; [|discriminate].
    intros [= <-]. split; reflexivity.
Qed.

(** ** The iterator *)

Lemma Iterator_eq_spec (a b : Iterator) :
  Iterator_eq a b = true <->
  (matcher_ a = None /\ matcher_ b = None) \/
  (exists q : nat, matcher_ a = Some q /\ matcher_ b = Some q).
Proof.
  unfold Iterator_eq. rewrite bool_decide_eq_true.
  destruct (matcher_ a) as [p|], (matcher_ b) as [q|]; split.
  - intros [= ->]. right. exists q. split; reflexivity.
  - intros [[? ?]|[k [[= ->] [= ->]]]]; [discriminate | reflexivity].
  - discriminate.
  - intros [[? ?]|[k [? ?]]]; discriminate.
  - discriminate.
  - intros [[? ?]|[k [? ?]]]; discriminate.
  - intros _. left. split; reflexivity.
  - reflexivity.
Qed.

Lemma at_address_run {A} (p : nat) (c : M A) (h : gmap nat Matcher)
    (m m' : Matcher) (a : A) :
  h !! p = Some m -> c m = Some (a, m') ->
  at_address p c h = Some (a, <[p := m']> h).
Proof. intros Hp Hc. unfold at_address. rewrite Hp, Hc. reflexivity. Qed.

(** C5.  For the matcher [m] at address [p] and any method: the
    constructor resets [m] (no option string) and runs the first [match];
    [operator++] runs [match] again on the matcher as it stands; in both
    cases the matcher's new state is stored back at [p] and the iterator
    is the end iterator exactly when [match] returned 0, and it still
    points to [p] otherwise.  Two iterators are equal iff both are end
    iterators or both point to the same matcher; [method_] plays no part. *)
Theorem iterator_protocol (match_ : Method -> M Z) (p : nat) (method : Method)
    (h : gmap nat Matcher) (m : Matcher) :
  h !! p = Some m ->
  (forall (r : Z) (m' : Matcher),
      match_ method (reset_members (opt_ m) m) = Some (r, m') ->
      exists it,
        Iterator_new match_ (Some p) method h = Some (it, <[p := m']> h) /\
        method_ it = method /\
        (matcher_ it = None <-> r = 0) /\
        (r <> 0 -> matcher_ it = Some p) /\
        (forall g, Iterator_eq it (Iterator_default g) = true <-> r = 0)) /\
  (forall (r : Z) (m' : Matcher),
      match_ method m = Some (r, m') ->
      exists it,
        Iterator_incr match_ (mkIterator (Some p) method) h
          = Some (it, <[p := m']> h) /\
        method_ it = method /\
        (matcher_ it = None <-> r = 0) /\
        (r <> 0 -> matcher_ it = Some p) /\
        (forall g, Iterator_eq it (Iterator_default g) = true <-> r = 0)) /\
  (forall a b : Iterator,
      Iterator_eq a b = true <->
      (matcher_ a = None /\ matcher_ b = None) \/
      (exists q : nat, matcher_ a = Some q /\ matcher_ b = Some q)) /\
  (forall (q : option nat) (g1 g2 : Method),
      Iterator_eq (mkIterator q g1) (mkIterator q g2) = true).
Proof.
  intros Hp.
  assert (Hend : forall (r : Z) (g : Method),
             (matcher_ (mkIterator (if r =? 0 then None else Some p) method) = None
                <-> r = 0) /\
             (r <> 0 ->
              matcher_ (mkIterator (if r =? 0 then None else Some p) method) = Some p) /\
             (Iterator_eq (mkIterator (if r =? 0 then None else Some p) method)
                          (Iterator_default g) = true <-> r = 0)).
  { intros r g. unfold Iterator_eq. rewrite bool_decide_eq_true. cbn.
    destruct (Z.eqb_spec r 0) as [->|Hr].
    - repeat split; intros; try reflexivity; congruence.
    - repeat split; intros; try reflexivity; try congruence; discriminate. }
  split; [|split].
  - intros r m' Hm.
    exists (mkIterator (if r =? 0 then None else Some p) method).
    split.
    + unfold Iterator_new.
      rewrite (at_address_run p (reset None ;;; match_ method) h m m' r Hp);
        [reflexivity|].
      unfold bind, reset. exact Hm.
    + split; [reflexivity|].
      destruct (Hend r method) as (H1 & H2 & _).
      split; [exact H1|]. split; [exact H2|].
      intros g. apply (Hend r g).
  - intros r m' Hm.
    exists (mkIterator (if r =? 0 then None else Some p) method).
    split.
    + unfold Iterator_incr. cbn [matcher_ method_].
      rewrite (at_address_run p (match_ method) h m m' r Hp Hm). reflexivity.
    + split; [reflexivity|].
      destruct (Hend r method) as (H1 & H2 & _).
      split; [exact H1|]. split; [exact H2|].
      intros g. apply (Hend r g).
  - split; [exact Iterator_eq_spec|].
    intros q g1 g2. unfold Iterator_eq. apply bool_decide_eq_true. reflexivity.
Qed.

(** ** [set_current] *)

(** C3, as the code has it.  For [0 <= loc <= end_], [set_current(loc)]
    sets [pos_] and [cur_] to [loc]; [got_] becomes the byte before [loc],
    or the marker [UNK] (256, not [BOB]) when [loc] is 0; [chr_] becomes
    the byte at [loc], or [UNK] when [loc] is [end_]. *)
Theorem set_current_spec (m : Matcher) (loc : Z) :
  0 <= loc <= end_ m ->
  end_ m < size_modulus ->
  pos_ (set_current loc m) = loc /\
  cur_ (set_current loc m) = loc /\
  (0 < loc -> got_ (set_current loc m) = load (buf_ m) (loc - 1)) /\
  (loc = 0 -> got_ (set_current loc m) = Const.UNK) /\
  (loc < end_ m -> chr_ (set_current loc m) = load (buf_ m) loc) /\
  (loc = end_ m -> chr_ (set_current loc m) = Const.UNK) /\
  got_ (set_current loc m) <> Const.BOB.
Proof.
  intros Hloc Hend. unfold set_current. cbn.
  destruct (Z.ltb_spec 0 loc) as [Hpos|Hzero]; cbn;
    destruct (Z.ltb_spec loc (end_ m)) as [Hlt|Hge]; cbn;
    repeat split; intros; try lia; try reflexivity;
    try (rewrite sz_small by lia; reflexivity);
    try (unfold Const.BOB, Const.UNK; lia);
    try (pose proof (uchar_range (default 0 (buf_ m !! Z.to_nat (sz (loc - 1)))));
         unfold load, Const.BOB; lia).
Qed.

(** ** [grow] *)

(** C1, evaluated where the code falls short.  In the window [crowded]
    (capacity 8192, [end_] = 8000, [txt_] at 4000) the call [grow(4096)]
    finds 192 free cells, a gap of 4000 before [txt_], and a capacity that
    already holds [end_ - gap + need] = 8096: it neither shifts nor
    reallocates, returns [true], and 192 cells are free as before. *)
Theorem grow_leaves_too_little_room :
  grow Const.BLOCK crowded = Some (true, crowded) /\
  sz (max_ crowded - end_ crowded) = 192 /\
  192 < Const.BLOCK.
Proof.
  split; [vm_compute; reflexivity|].
  split; [vm_compute; reflexivity | reflexivity].
Qed.

(** ** The option string *)

(** A stretch without ['T'] leaves the tab size alone and is parsed to its
    end. *)
Lemma parse_options_no_T (s : string) (o : Option) :
  has_char "T" s = false ->
  exists o', parse_options s o = Some o' /\ opt_T o' = opt_T o.
Proof.
  revert o. induction s as [|c s IH]; intros o H; cbn in H |- *.
  - exists o. split; reflexivity.
  - apply orb_false_iff in H as [Hc Hs].
    destruct (Ascii.eqb c "000"); [exists o; split; reflexivity|].
    destruct (Ascii.eqb c "A"); [apply (IH (mkOption true (opt_N o) (opt_T o)) Hs)|].
    destruct (Ascii.eqb c "N"); [apply (IH (mkOption (opt_A o) true (opt_T o)) Hs)|].
    rewrite Hc. apply (IH o Hs).
Qed.

(** A stretch without ['T'] and without the terminator is scanned through,
    changing at most [A] and [N]. *)
Lemma parse_options_prefix (pre s : string) (o : Option) :
  has_char "T" pre = false ->
  has_char "000" pre = false ->
  exists o', parse_options (pre +:+ s) o = parse_options s o' /\
             opt_T o' = opt_T o.
Proof.
  revert o. induction pre as [|c pre IH]; intros o HT H0; cbn in HT, H0 |- *.
  - exists o. split; reflexivity.
  - apply orb_false_iff in HT as [HcT HT].
    apply orb_false_iff in H0 as [Hc0 H0].
    change (String c pre +:+ s) with (String c (pre +:+ s)).
    cbn [parse_options]. rewrite Hc0.
    destruct (Ascii.eqb c "A");
      [apply (IH (mkOption true (opt_N o) (opt_T o)) HT H0)|].
    destruct (Ascii.eqb c "N");
      [apply (IH (mkOption (opt_A o) true (opt_T o)) HT H0)|].
    rewrite HcT. apply (IH o HT H0).
Qed.

(** What the case ['T'] does with the character [d] it lands on. *)
Lemma parse_options_T (sep : string) (d : ascii) (post : string) (o : Option) :
  (sep = EmptyString /\ d <> "="%char) \/ sep = String "=" EmptyString ->
  parse_options (String "T" (sep +:+ String d post)) o =
  parse_options post
    (mkOption (opt_A o) (opt_N o) (if isdigit d then digit_value d else 0)).
Proof.
  intros [[-> Hd]| ->].
  - change (EmptyString +:+ String d post) with (String d post).
    cbn [parse_options Ascii.eqb Bool.eqb].
    apply Ascii.eqb_neq in Hd. rewrite Hd. reflexivity.
  - change (String "=" EmptyString +:+ String d post)
      with (String "=" (String d post)).
    reflexivity.
Qed.

(** The case ['T'] in general.  In an option string whose last ['T'] is
    reached by the scan (before it: no ['T'], no terminator) and is
    followed by [d] or by [=d]: [reset] sets the tab size to the digit [d],
    any of 0..9, and to 0 when [d] is not a digit; the default 8 is not
    kept. *)
Theorem reset_tab_option (pre sep post : string) (d : ascii) (m : Matcher) :
  has_char "T" pre = false ->
  has_char "000" pre = false ->
  has_char "T" post = false ->
  (sep = EmptyString /\ d <> "="%char) \/ sep = String "=" EmptyString ->
  exists m',
    reset (Some (pre +:+ String "T" (sep +:+ String d post))) m = Some (tt, m') /\
    opt_T (opt_ m') = (if isdigit d then digit_value d else 0) /\
    (isdigit d = true -> 0 <= opt_T (opt_ m') <= 9) /\
    (isdigit d = false -> opt_T (opt_ m') = 0).
Proof.
  intros HpreT Hpre0 Hpost Hsep. unfold reset.
  destruct (parse_options_prefix pre (String "T" (sep +:+ String d post))
              (mkOption false false 8) HpreT Hpre0) as (o1 & -> & _).
  rewrite (parse_options_T sep d post o1 Hsep).
  destruct (parse_options_no_T post
              (mkOption (opt_A o1) (opt_N o1)
                        (if isdigit d then digit_value d else 0)) Hpost)
    as (o2 & -> & HT).
  exists (reset_members o2 m). cbn [opt_ reset_members opt_T] in *.
  split; [reflexivity|]. split; [exact HT|].
  rewrite HT. split.
  - intros Hd. rewrite Hd. unfold isdigit in Hd. unfold digit_value.
    apply andb_true_iff in Hd as [H1 H2].
    apply Z.leb_le in H1. apply Z.leb_le in H2. lia.
  - intros Hd. rewrite Hd. reflexivity.
Qed.

(** ** Counting newlines *)

Lemma count_nl_nonneg (l : list Z) : 0 <= count_nl l.
Proof.
  induction l as [|c l IH]; cbn [count_nl]; [lia|].
  destruct (uchar c =? NL); lia.
Qed.

Lemma count_nl_le_length (l : list Z) : count_nl l <= Z.of_nat (length l).
Proof.
  induction l as [|c l IH]; cbn [count_nl length]; [lia|].
  destruct (uchar c =? NL); lia.
Qed.

Lemma count_nl_app (l k : list Z) : count_nl (l ++ k) = count_nl l + count_nl k.
Proof.
  induction l as [|c l IH]; cbn [count_nl app]; [lia|].
  rewrite IH. lia.
Qed.

(** The loop of [lineno] adds the newlines of the cells it walks over. *)
Lemma lineno_loop_count (l : list Z) (n : Z) :
  0 <= n -> n + count_nl l < size_modulus ->
  lineno_loop l n = n + count_nl l.
Proof.
  revert n. induction l as [|c l IH]; intros n Hn Hsum; cbn [lineno_loop count_nl] in *.
  - lia.
  - pose proof (count_nl_nonneg l) as Hl.
    destruct (uchar c =? NL).
    + rewrite sz_small by lia. rewrite IH by lia. lia.
    + rewrite sz_small by lia. rewrite IH by lia. lia.
Qed.

(** The loop of [update] counts lines as [lineno] does, and without a
    newline it leaves [t] and [cno_] alone. *)
Lemma update_loop_lno (l : list Z) (s lno t cno : Z) :
  0 <= lno < size_modulus ->
  (update_loop l s lno t cno).1.1 = lineno_loop l lno.
Proof.
  revert s lno t cno.
  induction l as [|c l IH]; intros s lno t cno Hlno; cbn [update_loop lineno_loop].
  - reflexivity.
  - destruct (uchar c =? NL).
    + apply IH. apply sz_range.
    + rewrite Z.add_0_r, (sz_small lno) by lia. apply IH. exact Hlno.
Qed.

Lemma update_loop_no_nl (l : list Z) (s lno t cno : Z) :
  count_nl l = 0 -> update_loop l s lno t cno = (lno, t, cno).
Proof.
  revert s. induction l as [|c l IH]; intros s H; cbn [update_loop count_nl] in *.
  - reflexivity.
  - pose proof (count_nl_nonneg l) as Hl.
    destruct (uchar c =? NL); [lia|]. apply IH. lia.
Qed.

(** ** The doubling loop of [grow] *)

(** When the loop stops, the capacity covers [newmax]; it is the old one
    unless the old one was too small. *)
Lemma grow_loop_result (fuel : nat) (mx newmax mx' : Z) :
  grow_loop fuel mx newmax = Some mx' ->
  newmax <= mx' /\
  (mx' = mx \/ (mx < newmax /\ 0 <= mx' < size_modulus)).
Proof.
  revert mx. induction fuel as [|fuel IH]; intros mx; cbn [grow_loop];
    destruct (Z.ltb_spec mx newmax) as [Hlt|Hge]; try discriminate.
  - intros [= <-]. split; [lia | left; reflexivity].
  - intros H. destruct (IH _ H) as [H1 [-> | [_ H2]]].
    + split; [exact H1|]. right. split; [exact Hlt | apply sz_range].
    + split; [exact H1|]. right. split; [exact Hlt | exact H2].
  - intros [= <-]. split; [lia | left; reflexivity].
Qed.

(** The loop stops, without wrapping around, when the capacity is positive
    and the target is at most [2^63]. *)
Lemma grow_loop_doubles (fuel : nat) (mx newmax : Z) :
  0 < mx < size_modulus ->
  newmax <= 2 ^ 63 ->
  newmax <= mx * 2 ^ Z.of_nat fuel ->
  exists mx',
    grow_loop fuel mx newmax = Some mx' /\
    newmax <= mx' /\ mx <= mx' /\ mx' < size_modulus /\
    (mx < newmax -> mx < mx').
Proof.
  change (2 ^ 63) with 9223372036854775808.
  revert mx. induction fuel as [|fuel IH]; intros mx Hmx Hnew Hfuel;
    cbn [grow_loop]; destruct (Z.ltb_spec mx newmax) as [Hlt|Hge].
  - change (2 ^ Z.of_nat 0) with 1 in Hfuel. lia.
  - exists mx. repeat split; lia.
  - assert (Hsz : sz (mx * 2) = mx * 2)
      by (apply sz_small; unfold size_modulus in *; lia).
    rewrite Hsz.
    destruct (IH (mx * 2)) as (mx' & Hrun & H1 & H2 & H3 & _).
    + unfold size_modulus in *. lia.
    + exact Hnew.
    + rewrite Nat2Z.inj_succ, Z.pow_succ_r in Hfuel by lia. lia.
    + exists mx'. repeat split; try assumption; lia.
  - exists mx. repeat split; lia.
Qed.

(** More fuel does not change a result. *)
Lemma grow_loop_more_fuel (fuel k : nat) (mx newmax r : Z) :
  grow_loop fuel mx newmax = Some r ->
  grow_loop (fuel + k) mx newmax = Some r.
Proof.
  revert mx. induction fuel as [|fuel IH]; intros mx;
    cbn [grow_loop Nat.add]; destruct (mx <? newmax) eqn:Hlt; try discriminate.
  - intros [= <-]. destruct k; cbn [grow_loop]; rewrite Hlt; reflexivity.
  - apply IH.
  - intros H. exact H.
Qed.

(** Out of fuel after [i] doublings, the loop goes on from the capacity
    doubled [i] times. *)
Lemma grow_loop_resume (i fuel : nat) (mx newmax : Z) :
  grow_loop i mx newmax = None ->
  grow_loop (i + fuel) mx newmax
  = grow_loop fuel (Nat.iter i (fun x => sz (x * 2)) mx) newmax.
Proof.
  revert mx. induction i as [|i IH]; intros mx H.
  - reflexivity.
  - cbn [grow_loop Nat.add] in H |- *.
    destruct (mx <? newmax); [|discriminate].
    rewrite (IH _ H), Nat.iter_succ_r. reflexivity.
Qed.

Lemma doubled_mod (i : nat) (mx : Z) :
  Nat.iter (S i) (fun x => sz (x * 2)) mx = sz (mx * 2 ^ Z.of_nat (S i)).
Proof.
  induction i as [|i IH].
  - reflexivity.
  - rewrite Nat.iter_succ, IH. unfold sz.
    rewrite Z.mul_mod_idemp_l by discriminate.
    f_equal. rewrite (Nat2Z.inj_succ (S i)), Z.pow_succ_r by lia. ring.
Qed.

Lemma grow_loop_from_zero (fuel : nat) (newmax : Z) :
  0 < newmax -> grow_loop fuel 0 newmax = None.
Proof.
  intros H. induction fuel as [|fuel IH]; cbn [grow_loop];
    destruct (Z.ltb_spec 0 newmax); try lia; [reflexivity | exact IH].
Qed.

(** The fuel of [grow] is enough: a loop that has not stopped after 64
    doublings has reached capacity 0 and never stops. *)
Lemma grow_loop_stuck (mx newmax : Z) :
  grow_loop 64 mx newmax = None ->
  forall fuel : nat, grow_loop fuel mx newmax = None.
Proof.
  intros H fuel.
  assert (Hzero : Nat.iter 64 (fun x => sz (x * 2)) mx = 0).
  { rewrite doubled_mod. unfold sz.
    change (2 ^ Z.of_nat 64) with size_modulus.
    apply Z.mod_mul. discriminate. }
  assert (Hnew : 0 < newmax).
  { pose proof (grow_loop_resume 64 0 mx newmax H) as H0.
    rewrite Nat.add_0_r, H, Hzero in H0. cbn [grow_loop] in H0.
    destruct (Z.ltb_spec 0 newmax); [assumption | discriminate]. }
  destruct (Nat.le_ge_cases fuel 64) as [Hle|Hge].
  - destruct (grow_loop fuel mx newmax) as [r|] eqn:Hr; [|reflexivity].
    apply (grow_loop_more_fuel fuel (64 - fuel)) in Hr.
    replace (fuel + (64 - fuel))%nat with 64%nat in Hr by lia. congruence.
  - replace fuel with (64 + (fuel - 64))%nat by lia.
    rewrite (grow_loop_resume 64 _ mx newmax H), Hzero.
    apply grow_loop_from_zero. exact Hnew.
Qed.

(** ** Buffer cells *)

Lemma length_write_at (off : Z) (bytes buf : list Z) :
  (Z.to_nat off + length bytes <= length buf)%nat ->
  length (write_at off bytes buf) = length buf.
Proof.
  intros H. unfold write_at.
  rewrite !length_app, length_take, length_drop. lia.
Qed.

Lemma lookup_write_at_0 (bytes buf : list Z) (i : nat) :
  (i < length bytes)%nat ->
  write_at 0 bytes buf !! i = bytes !! i.
Proof.
  intros H. unfold write_at. change (Z.to_nat 0) with 0%nat.
  rewrite take_0. cbn [app]. apply lookup_app_l. exact H.
Qed.

(** The cells copied to the front by [grow]. *)
Lemma lookup_moved (buf : list Z) (gap n : Z) (i : Z) :
  0 <= gap -> 0 <= i < n -> gap + n <= Z.of_nat (length buf) ->
  take (Z.to_nat n) (drop (Z.to_nat gap) buf) !! Z.to_nat i
    = buf !! Z.to_nat (gap + i).
Proof.
  intros Hgap Hi Hlen.
  rewrite lookup_take_lt by lia. rewrite lookup_drop.
  f_equal. lia.
Qed.

Lemma length_moved (buf : list Z) (gap n : Z) :
  0 <= gap -> 0 <= n -> gap + n <= Z.of_nat (length buf) ->
  length (take (Z.to_nat n) (drop (Z.to_nat gap) buf)) = Z.to_nat n.
Proof.
  intros Hgap Hn Hlen. rewrite length_take, length_drop. lia.
Qed.

(** ** What [grow] does to the window *)

Lemma with_max_same (m : Matcher) : with_max (max_ m) m = m.
Proof. destruct m; reflexivity. Qed.

(** The common part of the two branches of [grow]: [update], the four
    subtractions, and a buffer [B] that starts with the cells from [txt_]
    on. *)
Lemma grow_drops_prefix (mx : Z) (B : list Z) (m : Matcher) :
  0 <= lno_ m < size_modulus ->
  Z.of_nat (length B) = mx ->
  (forall i : Z, 0 <= i < end_ m - txt_ m ->
                 B !! Z.to_nat i = buf_ m !! Z.to_nat (txt_ m + i)) ->
  dropped_prefix mx m
    (with_txt 0 (with_buf B (rebase (txt_ m) (update (with_max mx m))))).
Proof.
  intros Hlno HB Hcells. unfold update.
  cbn [txt_ buf_ lno_ cno_ num_ with_max].
  pose proof (update_loop_lno (take (Z.to_nat (txt_ m)) (buf_ m)) 0
                (lno_ m) 0 (cno_ m) Hlno) as Hl.
  pose proof (update_loop_no_nl (take (Z.to_nat (txt_ m)) (buf_ m)) 0
                (lno_ m) 0 (cno_ m)) as Hc.
  destruct (update_loop (take (Z.to_nat (txt_ m)) (buf_ m)) 0
              (lno_ m) 0 (cno_ m)) as [[lno' t'] cno'].
  cbn [fst] in Hl.
  constructor; cbn; try reflexivity; try assumption.
  - intros H0. specialize (Hc H0). injection Hc as _ -> ->.
    rewrite Z.sub_0_r. reflexivity.
  - repeat split.
Qed.

Lemma update_keeps (m : Matcher) :
  buf_ (update m) = buf_ m /\ txt_ (update m) = txt_ m /\
  end_ (update m) = end_ m /\ max_ (update m) = max_ m.
Proof.
  unfold update.
  destruct (update_loop (take (Z.to_nat (txt_ m)) (buf_ m)) 0
              (lno_ m) 0 (cno_ m)) as [[lno' t'] cno'].
  repeat split.
Qed.

(** The three ways [grow] returns: enough room already; nothing done
    although room is short, because the capacity covers
    [end_ - gap + need]; or the prefix before [txt_] dropped, by a shift
    in place or by a move to a larger buffer. *)
Lemma grow_cases (need : Z) (m m' : Matcher) (r : bool) :
  0 <= txt_ m <= end_ m ->
  end_ m <= max_ m ->
  max_ m < size_modulus ->
  Z.of_nat (length (buf_ m)) = max_ m ->
  0 <= lno_ m < size_modulus ->
  grow need m = Some (r, m') ->
  (r = false /\ m' = m /\ need <= max_ m - end_ m) \/
  (r = true /\ m' = m /\ max_ m - end_ m < need /\ txt_ m < need /\
   sz (end_ m - txt_ m + need) <= max_ m) \/
  (r = true /\
   exists mx,
     dropped_prefix mx m m' /\
     end_ m - txt_ m <= mx /\ 0 < mx < size_modulus /\
     ((need <= txt_ m /\ mx = max_ m) \/
      (txt_ m < need /\ max_ m < mx /\ sz (end_ m - txt_ m + need) <= mx))).
Proof.
  intros Htxt Hend Hmax Hbuf Hlno. unfold grow.
  rewrite (sz_small (max_ m - end_ m)) by lia. rewrite !Z.geb_leb.
  destruct (Z.leb_spec need (max_ m - end_ m)) as [Hroom|Hshort].
  { intros [= <- <-]. left. repeat split. exact Hroom. }
  destruct (update_keeps m) as (Ub & Ut & Ue & Um).
  destruct (Z.leb_spec need (txt_ m)) as [Hgap|Hnogap].
  - intros [= <- <-]. right; right. split; [reflexivity|].
    exists (max_ m).
    split; [|split; [lia | split; [lia | left; split; [exact Hgap | reflexivity]]]].
    pose proof (grow_drops_prefix (max_ m)
                  (memmove 0 (txt_ m) (sz (end_ m - txt_ m)) (buf_ m)) m Hlno)
      as Hdrop.
    rewrite with_max_same in Hdrop.
    cbn [rebase end_ buf_ with_end with_pos with_ind with_cur].
    rewrite Ub, Ue. apply Hdrop.
    + unfold memmove. rewrite length_write_at; [exact Hbuf|].
      rewrite sz_small by lia. rewrite length_moved by lia. lia.
    + intros i Hi. unfold memmove. rewrite sz_small by lia.
      rewrite lookup_write_at_0 by (rewrite length_moved by lia; lia).
      apply lookup_moved; lia.
  - rewrite (sz_small (end_ m - txt_ m)) by lia.
    destruct (grow_loop 64 (max_ m) (sz (end_ m - txt_ m + need)))
      as [mx|] eqn:Hloop; [|discriminate].
    destruct (grow_loop_result _ _ _ _ Hloop) as [Hcover Hmx].
    cbn [max_ with_max].
    destruct (Z.ltb_spec (max_ m) mx) as [Hbig|Hsame].
    + intros [= <- <-]. right; right. split; [reflexivity|].
      exists mx.
      assert (Hmxr : 0 < mx < size_modulus) by lia.
      split; [|split; [lia | split; [exact Hmxr | right; lia]]].
      destruct (update_keeps (with_max mx m)) as (Vb & Vt & Ve & Vm).
      cbn [rebase end_ buf_ max_ with_end with_pos with_ind with_cur].
      rewrite Vb, Ve, Vm. cbn [buf_ end_ max_ with_max].
      apply (grow_drops_prefix mx _ m Hlno).
      * rewrite length_write_at; unfold new_char; rewrite length_replicate;
          [lia|].
        rewrite sz_small by lia. rewrite length_moved by lia. lia.
      * intros i Hi. rewrite sz_small by lia.
        rewrite lookup_write_at_0 by (rewrite length_moved by lia; lia).
        apply lookup_moved; lia.
    + intros [= <- <-]. right; left.
      assert (mx = max_ m) as -> by lia.
      rewrite with_max_same. repeat split; lia.
Qed.

(** [grow] returns when capacity and demand are at most [2^62]. *)
Lemma grow_returns (need : Z) (m : Matcher) :
  0 <= txt_ m <= end_ m ->
  end_ m <= max_ m ->
  0 < max_ m <= 2 ^ 62 ->
  0 <= need <= 2 ^ 62 ->
  exists r m', grow need m = Some (r, m').
Proof.
  change (2 ^ 62) with 4611686018427387904.
  intros Htxt Hend Hmax Hneed. unfold grow.
  destruct (sz (max_ m - end_ m) >=? need); [eauto|].
  destruct (txt_ m >=? need); [eauto|].
  rewrite (sz_small (end_ m - txt_ m)) by (unfold size_modulus; lia).
  rewrite (sz_small (end_ m - txt_ m + need)) by (unfold size_modulus; lia).
  destruct (grow_loop_doubles 64 (max_ m) (end_ m - txt_ m + need))
    as (mx & -> & _).
  - unfold size_modulus. lia.
  - change (2 ^ 63) with 9223372036854775808. lia.
  - change (2 ^ Z.of_nat 64) with 18446744073709551616. lia.
  - destruct (max_ m <? max_ (with_max mx m)); eauto.
Qed.

(** Where [grow] has shifted or moved the window, or found room enough,
    [need] cells are free after [end_]. *)
Lemma grow_makes_room (need : Z) (m m' : Matcher) (r : bool) :
  0 <= txt_ m <= end_ m ->
  end_ m <= max_ m ->
  max_ m < size_modulus ->
  Z.of_nat (length (buf_ m)) = max_ m ->
  0 <= lno_ m < size_modulus ->
  0 <= need ->
  end_ m - txt_ m + need < size_modulus ->
  grow need m = Some (r, m') ->
  need <= max_ m - end_ m \/ need <= txt_ m \/ max_ m < end_ m - txt_ m + need ->
  need <= sz (max_ m' - end_ m').
Proof.
  intros Htxt Hend Hmax Hbuf Hlno Hneed Hsum Hrun Hcase.
  destruct (grow_cases need m m' r Htxt Hend Hmax Hbuf Hlno Hrun)
    as [(_ & -> & Hroom) | [(_ & -> & H1 & H2 & H3) | (_ & mx & Hdrop & H1 & H2 & H3)]].
  - rewrite sz_small by lia. exact Hroom.
  - rewrite (sz_small (end_ m - txt_ m + need)) in H3 by lia. lia.
  - rewrite (dp_max _ _ _ Hdrop), (dp_end _ _ _ Hdrop).
    rewrite (sz_small (end_ m - txt_ m)) by lia.
    rewrite (sz_small (end_ m - txt_ m + need)) in H3 by lia.
    rewrite sz_small by lia. lia.
Qed.

(** ** The window and the input *)

Section Window.

Variable inp : list Z.
Variable m : Matcher.
Hypothesis Hok : window_ok inp m.

(** The cells before [txt_] are the bytes of the input from [num_] on. *)
Lemma window_prefix :
  take (Z.to_nat (txt_ m)) (buf_ m)
  = take (Z.to_nat (txt_ m)) (drop (Z.to_nat (num_ m)) inp).
Proof.
  destruct Hok. apply list_eq. intros i.
  destruct (Nat.lt_ge_cases i (Z.to_nat (txt_ m))) as [Hlt|Hge].
  - rewrite !lookup_take_lt by exact Hlt. rewrite lookup_drop.
    replace i with (Z.to_nat (Z.of_nat i)) at 1 by lia.
    rewrite wo_cells0 by lia. f_equal. lia.
  - rewrite !lookup_take_ge by exact Hge. reflexivity.
Qed.

Lemma window_first : first m = num_ m + txt_ m.
Proof.
  destruct Hok. unfold first. apply sz_small.
  change (2 ^ 62) with 4611686018427387904 in *. unfold size_modulus. lia.
Qed.

(** The input up to the start of the match: what left the buffer, then
    the cells before [txt_]. *)
Lemma window_input_prefix :
  take (Z.to_nat (first m)) inp
  = take (Z.to_nat (num_ m)) inp ++ take (Z.to_nat (txt_ m)) (buf_ m).
Proof.
  rewrite window_first, window_prefix. destruct Hok.
  rewrite take_take_drop. f_equal. lia.
Qed.

Lemma window_lineno :
  lineno m = 1 + count_nl (take (Z.to_nat (first m)) inp).
Proof.
  rewrite window_input_prefix, count_nl_app.
  destruct Hok as [? ? ? ? ? ? ? ? ? ? Hl ?].
  unfold lineno. rewrite Hl.
  pose proof (count_nl_nonneg (take (Z.to_nat (num_ m)) inp)) as H1.
  pose proof (count_nl_le_length (take (Z.to_nat (num_ m)) inp)) as H2.
  pose proof (count_nl_le_length (take (Z.to_nat (txt_ m)) (buf_ m))) as H3.
  rewrite length_take in H2, H3.
  change (2 ^ 62) with 4611686018427387904 in *.
  rewrite lineno_loop_count; [lia | lia |].
  unfold size_modulus in *. lia.
Qed.

Lemma window_lno_range : 0 <= lno_ m < size_modulus.
Proof.
  destruct Hok as [? ? ? ? ? ? ? ? ? ? Hl ?]. rewrite Hl.
  pose proof (count_nl_nonneg (take (Z.to_nat (num_ m)) inp)) as H1.
  pose proof (count_nl_le_length (take (Z.to_nat (num_ m)) inp)) as H2.
  rewrite length_take in H2.
  change (2 ^ 62) with 4611686018427387904 in *. unfold size_modulus. lia.
Qed.

(** Dropping the prefix before [txt_] keeps the window on the input. *)
Lemma window_dropped (mx : Z) (m' : Matcher) :
  dropped_prefix mx m m' ->
  end_ m - txt_ m <= mx -> 0 < mx < size_modulus ->
  window_ok inp m'.
Proof.
  intros Hd Hmx1 Hmx2.
  pose proof window_lineno as Hline.
  pose proof window_input_prefix as Hpre.
  pose proof window_first as Hfirst.
  destruct Hok. destruct Hd.
  destruct dp_same0 as (_ & _ & _ & _ & _ & _ & _ & _ & Hin).
  change (2 ^ 62) with 4611686018427387904 in *.
  assert (Hpos : pos_ m' = pos_ m - txt_ m)
    by (rewrite dp_pos0; apply sz_small; unfold size_modulus in *; lia).
  assert (Hend : end_ m' = end_ m - txt_ m)
    by (rewrite dp_end0; apply sz_small; unfold size_modulus in *; lia).
  assert (Hnum : num_ m' = num_ m + txt_ m)
    by (rewrite dp_num0; apply sz_small; unfold size_modulus in *; lia).
  rewrite Hfirst in Hline, Hpre.
  constructor.
  - lia.
  - lia.
  - lia.
  - lia.
  - lia.
  - lia.
  - change (2 ^ 62) with 4611686018427387904. lia.
  - rewrite Hin, wo_src0. f_equal. lia.
  - lia.
  - intros i Hi Hne. rewrite dp_cells0 by lia.
    rewrite wo_cells0 by lia. f_equal. lia.
  - rewrite dp_lno0, Hline, Hnum. reflexivity.
  - rewrite Hnum, Hpre, count_nl_app. intros Hzero.
    pose proof (count_nl_nonneg (take (Z.to_nat (num_ m)) inp)) as H1.
    pose proof (count_nl_nonneg (take (Z.to_nat (txt_ m)) (buf_ m))) as H2.
    rewrite dp_cno0 by lia. rewrite wo_cno0 by lia.
    apply sz_small. unfold size_modulus. lia.
Qed.

End Window.


(** ** Reading the input through the window *)

Lemma window_started (inp : list Z) :
  Z.of_nat (length inp) <= 2 ^ 62 -> window_clean inp (started inp).
Proof.
  intros Hlen. split; [constructor|]; cbn;
    try (unfold Const.BLOCK, size_modulus; lia); try reflexivity;
    try exact Hlen; intros; lia.
Qed.

Lemma window_cells (inp : list Z) (m : Matcher) (i : Z) :
  window_clean inp m -> 0 <= i < end_ m ->
  buf_ m !! Z.to_nat i = inp !! Z.to_nat (num_ m + i).
Proof.
  intros [Hok Hcell] Hi. destruct (Z.eq_dec i (pos_ m)) as [->|Hne].
  - apply Hcell. lia.
  - apply (wo_cells _ _ Hok); assumption.
Qed.

(** Stepping the cursor over a cell of the window. *)
Lemma window_advance (inp : list Z) (m : Matcher) :
  window_clean inp m -> pos_ m < end_ m ->
  window_clean inp (with_pos (sz (pos_ m + 1)) m).
Proof.
  intros Hclean Hlt. pose proof Hclean as [Hok _].
  pose proof Hok as [Ht Hp He Hm Hb Hn Hi Hs Hl Hc Hlo Hco].
  assert (Hsz : sz (pos_ m + 1) = pos_ m + 1)
    by (apply sz_small; lia).
  split; [constructor|]; cbn; rewrite ?Hsz; try assumption; try lia.
  - intros i Hr _. apply (window_cells inp m i Hclean Hr).
  - intros Hr. apply (window_cells inp m (pos_ m + 1) Hclean). lia.
Qed.

Lemma window_eof (inp : list Z) (m : Matcher) (b : bool) :
  window_clean inp m -> window_clean inp (with_eof b m).
Proof.
  intros [Hok Hcell]. destruct Hok. split; [constructor|]; cbn; assumption.
Qed.

Lemma lookup_write_at_lt (off : Z) (bytes buf : list Z) (i : nat) :
  (i < Z.to_nat off)%nat -> (Z.to_nat off <= length buf)%nat ->
  write_at off bytes buf !! i = buf !! i.
Proof.
  intros Hi Hoff. unfold write_at.
  rewrite lookup_app_l by (rewrite length_take; lia).
  apply lookup_take_lt. exact Hi.
Qed.

Lemma lookup_write_at_mid (off : Z) (bytes buf : list Z) (i : nat) :
  (Z.to_nat off <= length buf)%nat ->
  (Z.to_nat off <= i < Z.to_nat off + length bytes)%nat ->
  write_at off bytes buf !! i = bytes !! (i - Z.to_nat off)%nat.
Proof.
  intros Hoff Hi. unfold write_at.
  rewrite lookup_app_r by (rewrite length_take; lia).
  rewrite length_take, Nat.min_l by lia.
  apply lookup_app_l. lia.
Qed.

(** The bounds of a window, as [grow_cases] wants them. *)
Lemma grow_cases_window (inp : list Z) (need : Z) (m m' : Matcher) (r : bool) :
  window_ok inp m ->
  grow need m = Some (r, m') ->
  (r = false /\ m' = m /\ need <= max_ m - end_ m) \/
  (r = true /\ m' = m /\ max_ m - end_ m < need /\ txt_ m < need /\
   sz (end_ m - txt_ m + need) <= max_ m) \/
  (r = true /\
   exists mx,
     dropped_prefix mx m m' /\
     end_ m - txt_ m <= mx /\ 0 < mx < size_modulus /\
     ((need <= txt_ m /\ mx = max_ m) \/
      (txt_ m < need /\ max_ m < mx /\ sz (end_ m - txt_ m + need) <= mx))).
Proof.
  intros Hok Hrun.
  pose proof (window_lno_range inp m Hok) as Hlno.
  destruct Hok. apply (grow_cases need m m' r); try assumption; lia.
Qed.

(** [if (end_ == max_) grow()] with the cursor at the end of the window:
    the window still shows the input, at the same place of the input, and
    a cell is free after [end_]. *)
Lemma grow_if_full_window (inp : list Z) (m : Matcher) :
  window_clean inp m ->
  pos_ m = end_ m ->
  max_ m <= 2 ^ 62 ->
  exists m1,
    grow_if_full m = Some (tt, m1) /\
    window_clean inp m1 /\
    num_ m1 + end_ m1 = num_ m + end_ m /\
    pos_ m1 = end_ m1 /\ end_ m1 < max_ m1 /\
    eof_ m1 = eof_ m /\ blk_ m1 = blk_ m.
Proof.
  change (2 ^ 62) with 4611686018427387904.
  intros Hclean Hpos Hmax. pose proof Hclean as [Hok _].
  pose proof Hok as [Ht Hp He Hm Hb Hn Hi Hs Hl Hc Hlo Hco].
  change (2 ^ 62) with 4611686018427387904 in Hi.
  unfold grow_if_full. run_monad.
  destruct (Z.eqb_spec (end_ m) (max_ m)) as [Hfull|Hfree].
  - destruct (grow_returns Const.BLOCK m) as (r & m1 & Hrun);
      try (change (2 ^ 62) with 4611686018427387904; unfold Const.BLOCK; lia).
    rewrite Hrun. exists m1. split; [reflexivity|].
    destruct (grow_cases_window inp Const.BLOCK m m1 r Hok Hrun)
      as [(_ & _ & Hroom) | [(_ & _ & _ & Hgap & Hcover)
                            | (_ & mx & Hdrop & H1 & H2 & Hkind)]].
    + unfold Const.BLOCK in Hroom. lia.
    + unfold Const.BLOCK in Hgap, Hcover.
      rewrite sz_small in Hcover by (unfold size_modulus; lia). lia.
    + pose proof (window_dropped inp m Hok mx m1 Hdrop H1 H2) as Hok1.
      destruct Hdrop as [D1 D2 D3 D4 D5 D6 D7 D8 D9 D10 D11].
      destruct D11 as (_ & _ & _ & _ & Heof & _ & Hblk & _).
      rewrite (sz_small (pos_ m - txt_ m)) in D2 by (unfold size_modulus; lia).
      rewrite (sz_small (end_ m - txt_ m)) in D4 by (unfold size_modulus; lia).
      rewrite (sz_small (num_ m + txt_ m)) in D7 by (unfold size_modulus; lia).
      rewrite D5.
      split; [split; [exact Hok1 | intros Hlt; exfalso; lia]|].
      repeat split; try assumption; try lia.
      unfold Const.BLOCK in Hkind.
      rewrite sz_small in Hkind by (unfold size_modulus; lia). lia.
  - exists m. repeat split; try assumption; lia.
Qed.

(** One round of reading from the source, with the cursor at the end of
    the window and room after it: the bytes delivered extend the window,
    or none is delivered and the input is exhausted. *)
Lemma refill_window (inp : list Z) (m : Matcher) :
  window_clean inp m ->
  blk_ m = 0 ->
  pos_ m = end_ m ->
  end_ m < max_ m ->
  exists m2,
    refill m = Some (tt, m2) /\
    window_clean inp m2 /\
    num_ m2 = num_ m /\ pos_ m2 = pos_ m /\
    eof_ m2 = eof_ m /\ blk_ m2 = 0 /\ end_ m <= end_ m2 /\
    (end_ m2 = end_ m -> num_ m + end_ m = Z.of_nat (length inp)).
Proof.
  intros Hclean Hblk Hpos Hroom. pose proof Hclean as [Hok _].
  pose proof Hok as [Ht Hp He Hm Hb Hn Hi Hs Hl Hc Hlo Hco].
  change (2 ^ 62) with 4611686018427387904 in Hi.
  unfold refill, get_block, Input_get. run_monad.
  rewrite Hblk. cbn [Z.eqb].
  rewrite (sz_small (max_ m - end_ m)) by lia.
  set (n := Z.to_nat (max_ m - end_ m)).
  set (bytes := take n (in_ m)).
  assert (Hbytes : (length bytes <= n)%nat)
    by (unfold bytes; rewrite length_take; lia).
  assert (Hsrc : length (in_ m) = (length inp - Z.to_nat (num_ m + end_ m))%nat)
    by (rewrite Hs, length_drop; reflexivity).
  assert (Hbytes2 : (length bytes <= length (in_ m))%nat)
    by (unfold bytes; rewrite length_take; lia).
  cbn [end_ with_in with_buf].
  assert (Hsz : sz (end_ m + Z.of_nat (length bytes))
                = end_ m + Z.of_nat (length bytes))
    by (apply sz_small; unfold n in Hbytes; lia).
  rewrite Hsz.
  eexists. split; [reflexivity|].
  assert (Hcells : forall i : Z,
             0 <= i < end_ m + Z.of_nat (length bytes) ->
             write_at (end_ m) bytes (buf_ m) !! Z.to_nat i
             = inp !! Z.to_nat (num_ m + i)).
  { intros i Hi'. destruct (Z.lt_ge_cases i (end_ m)) as [Hold|Hnew].
    - rewrite lookup_write_at_lt by lia.
      apply (window_cells inp m i Hclean). lia.
    - rewrite lookup_write_at_mid by lia.
      unfold bytes. rewrite lookup_take_lt by lia.
      rewrite Hs, lookup_drop. f_equal. lia. }
  split; [split; [constructor|]|]; cbn.
  - lia.
  - lia.
  - unfold n in Hbytes. lia.
  - lia.
  - rewrite length_write_at; [exact Hb|]. unfold n in Hbytes. lia.
  - lia.
  - change (2 ^ 62) with 4611686018427387904. lia.
  - rewrite Hs, drop_drop. unfold bytes. rewrite length_take.
    destruct (Nat.le_ge_cases n (length (in_ m))) as [Hn1|Hn2].
    + f_equal. lia.
    + rewrite !drop_ge by lia. reflexivity.
  - lia.
  - intros i Hi' _. apply Hcells. exact Hi'.
  - exact Hlo.
  - exact Hco.
  - intros Hi'. apply Hcells. lia.
  - repeat split; try lia; try assumption.
    intros Hsame.
    assert (Hzero : length bytes = 0%nat) by lia.
    unfold bytes in Hzero. rewrite length_take in Hzero.
    unfold n in Hzero. lia.
Qed.

(** [get()] hands out the bytes of the input in order: in a window that
    shows the input, with whole-buffer reads, it returns the byte at the
    place [num_ + pos_] of the input and steps over it, or it returns
    [EOF] with the cursor at the end of the window. *)
Lemma get_reads_input (inp : list Z) (m : Matcher) :
  window_clean inp m ->
  blk_ m = 0 ->
  max_ m <= 2 ^ 62 ->
  exists c m',
    get m = Some (c, m') /\
    window_clean inp m' /\
    blk_ m' = 0 /\
    ((c = EOF /\ pos_ m' = end_ m' /\ eof_ m' = true) \/
     (num_ m + pos_ m < Z.of_nat (length inp) /\
      c = uchar (default 0 (inp !! Z.to_nat (num_ m + pos_ m))) /\
      num_ m' + pos_ m' = num_ m + pos_ m + 1)).
Proof.
  intros Hclean Hblk Hmax. pose proof Hclean as [Hok _].
  pose proof Hok as [Ht Hp He Hm Hb Hn Hi Hs Hl Hc Hlo Hco].
  unfold get. run_monad.
  destruct (Z.ltb_spec (pos_ m) (end_ m)) as [Hin|Hout].
  - exists (load (buf_ m) (pos_ m)), (with_pos (sz (pos_ m + 1)) m).
    split; [reflexivity|].
    split; [apply window_advance; assumption|].
    split; [exact Hblk|]. right.
    unfold load. rewrite (window_cells inp m (pos_ m) Hclean) by lia.
    cbn. rewrite sz_small by lia. repeat split; lia.
  - destruct (eof_ m) eqn:Heof.
    + exists EOF, m. split; [reflexivity|].
      split; [exact Hclean|]. split; [exact Hblk|].
      left. repeat split; [lia | exact Heof].
    + destruct (grow_if_full_window inp m Hclean) as
          (m1 & -> & Hclean1 & Hplace & Hpos1 & Hroom & Heof1 & Hblk1);
        [lia | exact Hmax |].
      cbn [get_loop]. run_monad.
      destruct (refill_window inp m1 Hclean1) as
          (m2 & -> & Hclean2 & Hnum2 & Hpos2 & Heof2 & Hblk2 & Hend2 & Hdone);
        [congruence | exact Hpos1 | exact Hroom |].
      unfold wrap. run_monad.
      pose proof Hclean2 as [Hok2 _]. pose proof (wo_len _ _ Hok2) as Hlen2.
      destruct (Z.ltb_spec (pos_ m2) (end_ m2)) as [Hgot|Hnone].
      * exists (load (buf_ m2) (pos_ m2)), (with_pos (sz (pos_ m2 + 1)) m2).
        split; [reflexivity|].
        split; [apply window_advance; assumption|].
        split; [exact Hblk2|]. right.
        pose proof (wo_txt _ _ Hok2). pose proof (wo_pos _ _ Hok2).
        pose proof (wo_max _ _ Hok2). pose proof (wo_end _ _ Hok2).
        unfold load. rewrite (window_cells inp m2 (pos_ m2) Hclean2) by lia.
        cbn. rewrite sz_small by lia.
        replace (num_ m2 + pos_ m2) with (num_ m + pos_ m) by lia.
        repeat split; lia.
      * exists EOF, (with_eof true m2). split; [reflexivity|].
        split; [apply window_eof; exact Hclean2|].
        split; [exact Hblk2|]. left.
        pose proof (wo_pos _ _ Hok2). cbn. repeat split. lia.
Qed.

(** ** The previous newline *)

Lemma last_nl_from_snoc (l : list Z) (c i : Z) (seen : option Z) :
  last_nl_from (l ++ [c]) i seen
  = if uchar c =? NL then Some (i + Z.of_nat (length l))
    else last_nl_from l i seen.
Proof.
  revert i seen. induction l as [|d l IH]; intros i seen; cbn [app last_nl_from length].
  - rewrite Z.add_0_r. reflexivity.
  - rewrite IH. destruct (uchar c =? NL); [f_equal; lia | reflexivity].
Qed.

Lemma last_nl_snoc (l : list Z) (c : Z) :
  last_nl (l ++ [c])
  = if uchar c =? NL then Some (Z.of_nat (length l)) else last_nl l.
Proof. unfold last_nl. rewrite last_nl_from_snoc. reflexivity. Qed.


Lemma last_nl_range (l : list Z) (k : Z) :
  last_nl l = Some k -> 0 <= k < Z.of_nat (length l).
Proof.
  induction l as [|c l IH] using rev_ind.
  - discriminate.
  - rewrite last_nl_snoc, length_app. cbn [length].
    destruct (uchar c =? NL).
    + intros [= <-]. lia.
    + intros H. specialize (IH H). lia.
Qed.


(** The walk back of [columno] finds the last newline. *)
Lemma columno_loop_last_nl (l : list Z) (k : Z) :
  columno_loop (rev l) k
  = match last_nl l with
    | Some j => Some (k + (Z.of_nat (length l) - 1 - j))
    | None => None
    end.
Proof.
  revert k. induction l as [|c l IH] using rev_ind; intros k.
  - reflexivity.
  - rewrite rev_unit, last_nl_snoc, length_app. cbn [columno_loop length].
    destruct (uchar c =? NL).
    + f_equal. lia.
    + rewrite IH. destruct (last_nl l); [f_equal; lia | reflexivity].
Qed.


(** ** The refill loops *)

(** With the [wrap()] of the base class the loops of [peek()] and [get()]
    return in their first round: fuel beyond 1 changes nothing. *)
Lemma peek_loop_fuel (fuel : nat) (m : Matcher) :
  peek_loop (S fuel) m = peek_loop 1 m.
Proof.
  cbn [peek_loop]. unfold wrap. run_monad.
  destruct (refill m) as [[u m1]|]; [|reflexivity].
  destruct (pos_ m1 <? end_ m1); reflexivity.
Qed.

Lemma get_loop_fuel (fuel : nat) (m : Matcher) :
  get_loop (S fuel) m = get_loop 1 m.
Proof.
  cbn [get_loop]. unfold wrap. run_monad.
  destruct (refill m) as [[u m1]|]; [|reflexivity].
  destruct (pos_ m1 <? end_ m1); reflexivity.
Qed.

(** [started] is the matcher the constructor builds without an option
    string. *)
Lemma init_started (inp : Input) :
  init default_options None inp = Some (started inp).
Proof. reflexivity. Qed.

(** ** [unput] and [input] *)

(** [input()] with a byte left in the window returns the held byte. *)
Lemma input_held (m : Matcher) :
  0 <= pos_ m < end_ m ->
  end_ m < size_modulus ->
  exists m',
    input m = Some (chr_ m, m') /\
    got_ m' = chr_ m /\ pos_ m' = pos_ m + 1 /\ cur_ m' = pos_ m' /\
    in_ m' = in_ m.
Proof.
  intros Hpos Hend. unfold input. run_monad.
  destruct (Z.ltb_spec (pos_ m) (end_ m)) as [_|]; [|lia].
  cbn [pos_ end_ with_pos with_got].
  rewrite (sz_small (pos_ m + 1)) by lia.
  destruct (pos_ m + 1 <? end_ m); eexists; (split; [reflexivity|]);
    cbn; repeat split.
Qed.

(** With the match at the front of the buffer, [if (end_ == max_) grow()]
    leaves a free cell after [end_] and moves nothing. *)
Lemma grow_if_full_room (m : Matcher) :
  txt_ m = 0 ->
  0 <= pos_ m <= end_ m ->
  end_ m <= max_ m ->
  0 < max_ m <= 2 ^ 62 ->
  exists m',
    grow_if_full m = Some (tt, m') /\
    pos_ m' = pos_ m /\ end_ m' = end_ m /\ txt_ m' = 0 /\
    len_ m' = len_ m /\ end_ m' < max_ m' /\ in_ m' = in_ m.
Proof.
  change (2 ^ 62) with 4611686018427387904.
  intros Htxt Hpos Hend Hmax. unfold grow_if_full. run_monad.
  destruct (Z.eqb_spec (end_ m) (max_ m)) as [Hfull|Hfree].
  - unfold grow. rewrite Htxt, <- Hfull, Z.sub_diag, Z.sub_0_r.
    change (sz 0 >=? Const.BLOCK) with false.
    change (0 >=? Const.BLOCK) with false. cbv iota.
    rewrite (sz_small (end_ m)) by (unfold size_modulus; lia).
    rewrite (sz_small (end_ m + Const.BLOCK))
      by (unfold size_modulus, Const.BLOCK; lia).
    destruct (grow_loop_doubles 64 (end_ m) (end_ m + Const.BLOCK))
      as (mx & -> & H1 & H2 & H3 & H4).
    + unfold size_modulus. lia.
    + change (2 ^ 63) with 9223372036854775808. unfold Const.BLOCK. lia.
    + change (2 ^ Z.of_nat 64) with 18446744073709551616.
      unfold Const.BLOCK. lia.
    + cbn [max_ with_max].
      destruct (Z.ltb_spec (end_ m) mx) as [_|]; [|unfold Const.BLOCK in *; lia].
      unfold update. cbn [txt_ buf_ lno_ cno_ num_ with_max].
      rewrite Htxt.
      destruct (update_loop (take (Z.to_nat 0) (buf_ m)) 0 (lno_ m) 0 (cno_ m))
        as [[lno' t'] cno'].
      eexists. split; [reflexivity|]. cbn.
      rewrite !Z.sub_0_r, (sz_small (pos_ m)), (sz_small (end_ m))
        by (unfold size_modulus; lia).
      unfold Const.BLOCK in *. repeat split; lia.
  - exists m. repeat split; try assumption; lia.
Qed.

(** C2, as the code has it.  [unput(c)] keeps [c] as the held character
    [chr_] at the cursor and sets [cur_] to [pos_]: with [pos_ > 0] the
    cursor steps back one cell and the match is left as it is; with
    [pos_ = 0] the match is reset to the empty match at the front and the
    window grows by one cell.  The next [input()] returns [c], while
    [peek()] returns the cell of the buffer at the cursor.  On the
    source "bc", [unput('a')] right after construction followed by four
    [input()] gives 'a', 'b', 'c' and [EOF]. *)
Theorem unput_holds_byte (c : Z) (m : Matcher) :
  0 <= pos_ m <= end_ m ->
  end_ m <= max_ m ->
  0 < max_ m <= 2 ^ 62 ->
  (exists m',
      unput c m = Some (tt, m') /\
      chr_ m' = uchar c /\
      cur_ m' = pos_ m' /\
      0 <= pos_ m' < end_ m' /\
      (0 < pos_ m ->
       pos_ m' = pos_ m - 1 /\ end_ m' = end_ m /\
       txt_ m' = txt_ m /\ len_ m' = len_ m) /\
      (pos_ m = 0 ->
       pos_ m' = 0 /\ end_ m' = end_ m + 1 /\ txt_ m' = 0 /\ len_ m' = 0) /\
      in_ m' = in_ m /\
      peek m' = Some (load (buf_ m') (pos_ m'), m') /\
      exists m'',
        input m' = Some (uchar c, m'') /\ pos_ m'' = pos_ m' + 1) /\
  option_map fst
    ((unput 97 ;;; collect [input; input; input; input]) (started [98; 99]))
  = Some [97; 98; 99; EOF].
Proof.
  change (2 ^ 62) with 4611686018427387904.
  intros Hpos Hend Hmax. split; [|vm_compute; reflexivity].
  unfold unput. run_monad.
  set (m1 := if pos_ m <? end_ m
             then with_buf (store (pos_ m) (chr_ m) (buf_ m)) m else m).
  assert (Hm1 : pos_ m1 = pos_ m /\ end_ m1 = end_ m /\ max_ m1 = max_ m /\
                txt_ m1 = txt_ m /\ len_ m1 = len_ m /\ in_ m1 = in_ m)
    by (unfold m1; destruct (pos_ m <? end_ m); repeat split).
  destruct Hm1 as (E1 & E2 & E3 & E4 & E5 & E6).
  rewrite E1.
  destruct (Z.ltb_spec 0 (pos_ m)) as [Hback|Hfront].
  - set (m' := with_cur _ _).
    assert (Hm' : chr_ m' = uchar c /\ cur_ m' = pos_ m' /\
                  pos_ m' = pos_ m - 1 /\ end_ m' = end_ m /\
                  txt_ m' = txt_ m /\ len_ m' = len_ m /\ in_ m' = in_ m).
    { unfold m'. cbn. rewrite E1, E2, E4, E5, E6.
      rewrite sz_small by (unfold size_modulus; lia). repeat split. }
    destruct Hm' as (F1 & F2 & F3 & F4 & F5 & F6 & F7).
    exists m'. split; [reflexivity|].
    destruct (input_held m') as (m'' & Hin & _ & Hp & _);
      [lia | unfold size_modulus; lia |].
    rewrite F1 in Hin.
    assert (Hpeek : peek m' = Some (load (buf_ m') (pos_ m'), m')).
    { unfold peek. run_monad.
      destruct (Z.ltb_spec (pos_ m') (end_ m')); [reflexivity | lia]. }
    repeat split; try assumption; try lia.
    exists m''. split; assumption.
  - destruct (grow_if_full_room (with_len 0 (with_txt 0 m1)))
      as (m2 & -> & G1 & G2 & G3 & G4 & G5 & G6);
      cbn [txt_ pos_ end_ max_ with_len with_txt]; try lia; try reflexivity.
    cbn [pos_ end_ max_ len_ in_ with_len with_txt] in G1, G2, G4, G6.
    set (m' := with_cur _ _).
    assert (Hm' : chr_ m' = uchar c /\ cur_ m' = pos_ m' /\
                  pos_ m' = 0 /\ end_ m' = end_ m + 1 /\
                  txt_ m' = 0 /\ len_ m' = 0 /\ in_ m' = in_ m).
    { unfold m'. cbn. rewrite G1, G2, G3, G4, G6, E1, E2, E6.
      rewrite sz_small by (unfold size_modulus; lia).
      repeat split; lia. }
    destruct Hm' as (F1 & F2 & F3 & F4 & F5 & F6 & F7).
    exists m'. split; [reflexivity|].
    destruct (input_held m') as (m'' & Hin & _ & Hp & _);
      [lia | unfold size_modulus; lia |].
    rewrite F1 in Hin.
    assert (Hpeek : peek m' = Some (load (buf_ m') (pos_ m'), m')).
    { unfold peek. run_monad.
      destruct (Z.ltb_spec (pos_ m') (end_ m')); [reflexivity | lia]. }
    repeat split; try assumption; try lia.
    exists m''. split; assumption.
Qed.

(** * The scenarios *)

(** [e1_read] is what nine [get()] make of a fresh matcher on [e1_input]. *)
Example e1_read_reached :
  collect (replicate 9 get) (started e1_input) = Some (e1_input, e1_read).
Proof. vm_compute. reflexivity. Qed.


(** The tokenizer scenario for the match ["foo"]: offset 6, line 2,
    column 0. *)
Example e1_foo_position :
  first e1_foo = 6 /\ lineno e1_foo = 2 /\ columno e1_foo = 0 /\
  text e1_foo = [102; 111; 111].
Proof. vm_compute. repeat split. Qed.

(** After [grow] has dropped the line ["a1 22\n"] from the window, [update]
    has counted the newline itself as a column: [columno()] is 1 where it
    was 0, while [first()] and [lineno()] are unchanged. *)
Example columno_after_grow :
  columno e1_foo = 0 /\
  option_map (fun rm => (rm.1, first rm.2, lineno rm.2, columno rm.2,
                         num_ rm.2, max_ rm.2))
             (grow 8190 e1_foo)
  = Some (true, 6, 2, 1, 6, 16384).
Proof. vm_compute. split; reflexivity. Qed.

(** ** Where the code departs from the wording *)

(** After [unput('a')] on the fresh matcher for the source "bc", [peek()]
    and [get()] read the cell at the cursor, which holds 0: they yield
    0, 0, 'b', 'c', [EOF] and never 'a'.  And with the cursor inside the
    window, as after the match ["foo"], [unput] leaves [txt_] and [len_]
    as they are. *)
Lemma unput_then_peek_reads_cell :
  option_map fst
    ((unput 97 ;;;
      c <- peek ;; l <- collect [get; get; get; get] ;; ret (c, l))
       (started [98; 99]))
  = Some (0, [0; 98; 99; EOF]) /\
  option_map (fun um => (txt_ um.2, len_ um.2, pos_ um.2)) (unput 120 e1_foo)
  = Some (6, 3, 8).
Proof. vm_compute. split; reflexivity. Qed.

(** At the very start of the input, [set_current(0)] leaves [UNK] in
    [got_], not [BOB]. *)
Lemma set_current_front_is_unknown :
  0 <= 0 <= end_ (started []) /\
  first (started []) = 0 /\
  got_ (set_current 0 (started [])) = Const.UNK /\
  got_ (set_current 0 (started [])) <> Const.BOB.
Proof. vm_compute. repeat split; congruence. Qed.

(** C4, evaluated where the code falls short.  The tab size is
    documented as between 1 and 9 with the default 8, and the option as
    ['T'] with an optional [=d].  Yet a ['T'] followed by a letter, by the
    digit 0, or by [=] and a letter sets the tab size to 0: the default 8
    is lost.  The character after the ['T'] is used up as its argument, so
    in ["TN"] the option [N] is not seen; and of two ['T'] the later one
    decides. *)
Theorem reset_bad_tab_is_zero :
  option_map (fun um => opt_T (opt_ um.2)) (reset (Some "Tx") (started []))
  = Some 0 /\
  option_map (fun um => opt_T (opt_ um.2)) (reset (Some "T=0") (started []))
  = Some 0 /\
  option_map (fun um => opt_T (opt_ um.2)) (reset (Some "T=x;N") (started []))
  = Some 0 /\
  option_map (fun um => opt_ um.2) (reset (Some "TN") (started []))
  = Some (mkOption false false 0) /\
  option_map (fun um => opt_ um.2) (reset (Some "N") (started []))
  = Some (mkOption false true 8) /\
  option_map (fun um => opt_T (opt_ um.2)) (reset (Some "T4T5") (started []))
  = Some 5 /\
  opt_T default_options = 8.
Proof. vm_compute. repeat split. Qed.


(** ** The statements at concrete inputs *)

Lemma unput_holds_byte_witness :
  (0 <= pos_ (started [98; 99]) <= end_ (started [98; 99])) /\
  end_ (started [98; 99]) <= max_ (started [98; 99]) /\
  0 < max_ (started [98; 99]) <= 2 ^ 62 /\
  exists m',
    unput 97 (started [98; 99]) = Some (tt, m') /\
    chr_ m' = 97 /\ pos_ m' = 0 /\ end_ m' = 1.
Proof.
  assert (H1 : 0 <= pos_ (started [98; 99]) <= end_ (started [98; 99]))
    by (cbn; lia).
  assert (H2 : end_ (started [98; 99]) <= max_ (started [98; 99]))
    by (cbn; unfold Const.BLOCK; lia).
  assert (H3 : 0 < max_ (started [98; 99]) <= 2 ^ 62)
    by (change (2 ^ 62) with 4611686018427387904; cbn; unfold Const.BLOCK; lia).
  split; [exact H1|]. split; [exact H2|]. split; [exact H3|].
  destruct (unput_holds_byte 97 (started [98; 99]) H1 H2 H3)
    as [(m' & Hrun & Hchr & _ & _ & _ & Hfront & _) _].
  destruct (Hfront eq_refl) as (Hp & He & _).
  exists m'. split; [exact Hrun|]. split; [exact Hchr|].
  split; [exact Hp | exact He].
Defined.

Lemma set_current_spec_witness :
  0 <= 6 <= end_ e1_read /\
  end_ e1_read < size_modulus /\
  pos_ (set_current 6 e1_read) = 6 /\
  got_ (set_current 6 e1_read) = load (buf_ e1_read) (6 - 1).
Proof.
  assert (H1 : 0 <= 6 <= end_ e1_read) by (cbn; lia).
  assert (H2 : end_ e1_read < size_modulus) by reflexivity.
  split; [exact H1|]. split; [exact H2|].
  destruct (set_current_spec e1_read 6 H1 H2) as (Hp & _ & Hg & _).
  split; [exact Hp|]. apply Hg. lia.
Defined.

Lemma reset_tab_option_witness :
  has_char "T" "A;" = false /\
  has_char "000" "A;" = false /\
  has_char "T" ";N" = false /\
  exists m',
    reset (Some "A;T=4;N") (started []) = Some (tt, m') /\
    opt_T (opt_ m') = 4.
Proof.
  split; [reflexivity|]. split; [reflexivity|]. split; [reflexivity|].
  destruct (reset_tab_option "A;" "=" ";N" "4" (started [])
              eq_refl eq_refl eq_refl (or_intror eq_refl))
    as (m' & Hrun & HT & _).
  exists m'. split; [exact Hrun | exact HT].
Defined.

Lemma iterator_protocol_witness :
  ({[ 7%nat := started e1_input ]} : gmap nat Matcher) !! 7%nat
    = Some (started e1_input) /\
  (exists it h',
      Iterator_new engine_echo (Some 7%nat) Const.FIND
                   {[ 7%nat := started e1_input ]} = Some (it, h') /\
      matcher_ it = Some 7%nat) /\
  (exists it h',
      Iterator_incr engine_echo (mkIterator (Some 7%nat) Const.SCAN)
                    {[ 7%nat := started e1_input ]} = Some (it, h') /\
      matcher_ it = None).
Proof.
  assert (Hp : ({[ 7%nat := started e1_input ]} : gmap nat Matcher) !! 7%nat
               = Some (started e1_input)) by apply lookup_singleton_eq.
  split; [exact Hp|].
  split.
  - destruct (iterator_protocol engine_echo 7%nat Const.FIND _ _ Hp)
      as (Hnew & _ & _).
    destruct (Hnew Const.FIND _ eq_refl) as (it & Hrun & _ & _ & Hptr & _).
    exists it. eexists. split; [exact Hrun|]. apply Hptr. discriminate.
  - destruct (iterator_protocol engine_echo 7%nat Const.SCAN _ _ Hp)
      as (_ & Hincr & _).
    destruct (Hincr Const.SCAN _ eq_refl) as (it & Hrun & _ & Hnull & _).
    exists it. eexists. split; [exact Hrun|]. apply Hnull. reflexivity.
Defined.

Lemma matches_memo_stable_witness :
  matches engine_all (started [49; 50; 51]) = Some (1, memo_done) /\
  1 <> 0 /\
  repeat_call 3 (matches engine_stuck) 1 memo_done = Some (1, memo_done).
Proof.
  assert (H1 : matches engine_all (started [49; 50; 51]) = Some (1, memo_done))
    by (vm_compute; reflexivity).
  assert (H2 : 1 <> 0) by discriminate.
  split; [exact H1|]. split; [exact H2|].
  exact (matches_memo_stable engine_all engine_stuck _ _ 1 3%nat H1 H2).
Defined.



Lemma matches_not_at_bob_witness :
  mat_ e1_foo = false /\
  got_ e1_foo <> Const.BOB /\
  matches engine_stuck e1_foo = Some (0, e1_foo).
Proof.
  assert (H1 : mat_ e1_foo = false) by reflexivity.
  assert (H2 : got_ e1_foo <> Const.BOB) by (vm_compute; congruence).
  split; [exact H1|]. split; [exact H2|].
  exact (matches_not_at_bob engine_stuck e1_foo H1 H2).
Defined.

(** * Further properties *)

(** ** Bounds on the capacity *)

(** The doubling loop stops below twice the demand. *)
Lemma grow_loop_upper (fuel : nat) (mx newmax mx' : Z) :
  0 < mx ->
  2 * newmax <= size_modulus ->
  grow_loop fuel mx newmax = Some mx' ->
  mx' <= Z.max mx (2 * newmax).
Proof.
  assert (Hpos : 0 < size_modulus) by reflexivity.
  revert mx. induction fuel as [|f IH]; intros mx Hmx Hnew; cbn [grow_loop].
  - destruct (Z.ltb_spec mx newmax); [discriminate|]. intros [= <-]. lia.
  - destruct (Z.ltb_spec mx newmax) as [Hlt|Hge]; [|intros [= <-]; lia].
    intros Hrun. rewrite sz_small in Hrun by lia.
    apply IH in Hrun; lia.
Qed.

(** [grow] never allocates more than twice what it has to hold. *)
Lemma grow_max_bound (need : Z) (m m' : Matcher) (r : bool) :
  0 <= txt_ m <= end_ m ->
  end_ m <= max_ m ->
  0 < max_ m ->
  0 <= need ->
  2 * (end_ m - txt_ m + need) <= size_modulus ->
  grow need m = Some (r, m') ->
  max_ m' <= Z.max (max_ m) (2 * (end_ m - txt_ m + need)).
Proof.
  intros Htxt Hend Hmax Hneed Hbound. unfold grow.
  assert (Hpos : 0 < size_modulus) by reflexivity.
  destruct (sz (max_ m - end_ m) >=? need); [intros [= <- <-]; lia|].
  destruct (update_keeps m) as (_ & _ & _ & Um).
  destruct (txt_ m >=? need).
  { intros [= <- <-]. cbn. rewrite Um. lia. }
  rewrite (sz_small (end_ m - txt_ m)) by lia.
  rewrite (sz_small (end_ m - txt_ m + need)) by lia.
  destruct (grow_loop 64 (max_ m) (end_ m - txt_ m + need)) as [mx|] eqn:Hloop;
    [|discriminate].
  apply grow_loop_upper in Hloop; [|lia|lia].
  destruct (update_keeps (with_max mx m)) as (_ & _ & _ & Vm).
  cbn [max_ with_max] in *.
  destruct (max_ m <? mx); intros [= <- <-]; cbn; rewrite ?Vm; cbn; lia.
Qed.

(** The capacity after [grow_if_full], for an input of at most [2^60]
    bytes. *)
Lemma grow_if_full_bound (inp : list Z) (m m1 : Matcher) (u : unit) :
  window_ok inp m ->
  Z.of_nat (length inp) <= 2 ^ 60 ->
  max_ m <= 2 ^ 62 ->
  grow_if_full m = Some (u, m1) ->
  max_ m1 <= 2 ^ 62.
Proof.
  change (2 ^ 62) with 4611686018427387904.
  change (2 ^ 60) with 1152921504606846976.
  intros [Ht Hp He Hm Hb Hn Hi Hs Hl Hc Hlo Hco] Hinp Hmax.
  unfold grow_if_full. run_monad.
  destruct (end_ m =? max_ m); [|intros [= _ <-]; exact Hmax].
  destruct (grow Const.BLOCK m) as [[r m']|] eqn:Hrun; [|discriminate].
  intros [= _ <-].
  pose proof (grow_max_bound Const.BLOCK m m' r) as Hbound.
  unfold Const.BLOCK, size_modulus in Hbound.
  specialize (Hbound ltac:(lia) ltac:(lia) ltac:(lia) ltac:(lia) ltac:(lia) Hrun).
  lia.
Qed.

(** ** [peek] and [get] *)

(** X2.  Whenever [peek()] returns, a second [peek()] returns the same
    value and changes nothing, and the [get()] that follows returns that
    value too: a byte is then stepped over, and at [EOF] nothing moves.
    No condition on the matcher is needed. *)
Theorem peek_then_get (m m1 : Matcher) (c : Z) :
  peek m = Some (c, m1) ->
  peek m1 = Some (c, m1) /\
  (c = EOF -> eof_ m1 = true /\ get m1 = Some (EOF, m1)) /\
  (c <> EOF ->
   pos_ m1 < end_ m1 /\ c = load (buf_ m1) (pos_ m1) /\
   get m1 = Some (c, with_pos (sz (pos_ m1 + 1)) m1)).
Proof.
  assert (Hbyte : forall buf i, load buf i <> EOF).
  { intros buf i. unfold load, EOF.
    pose proof (uchar_range (default 0 (buf !! Z.to_nat i))). lia. }
  assert (Hin : forall s : Matcher,
             pos_ s < end_ s ->
             peek s = Some (load (buf_ s) (pos_ s), s) /\
             get s = Some (load (buf_ s) (pos_ s),
                           with_pos (sz (pos_ s + 1)) s)).
  { intros s Hs. unfold peek, get. run_monad.
    destruct (Z.ltb_spec (pos_ s) (end_ s)); [split; reflexivity | lia]. }
  assert (Hout : forall s : Matcher,
             end_ s <= pos_ s -> eof_ s = true ->
             peek s = Some (EOF, s) /\ get s = Some (EOF, s)).
  { intros s Hs He. unfold peek, get. run_monad.
    destruct (Z.ltb_spec (pos_ s) (end_ s)); [lia|].
    rewrite He. split; reflexivity. }
  unfold peek at 1. run_monad.
  destruct (Z.ltb_spec (pos_ m) (end_ m)) as [Hlt|Hge].
  - intros [= <- <-]. destruct (Hin m Hlt) as [Hp Hg].
    split; [exact Hp|]. split; [intros H; destruct (Hbyte _ _ H)|].
    intros _. repeat split; assumption.
  - destruct (eof_ m) eqn:Heof.
    + intros [= <- <-]. destruct (Hout m Hge Heof) as [Hp Hg].
      split; [exact Hp|]. split; [intros _; split; assumption|].
      intros H. destruct H. reflexivity.
    + destruct (grow_if_full m) as [[u m0]|]; [|discriminate].
      cbn [peek_loop]. unfold wrap. run_monad.
      destruct (refill m0) as [[u' m2]|]; [|discriminate].
      destruct (Z.ltb_spec (pos_ m2) (end_ m2)) as [Hlt2|Hge2].
      * intros [= <- <-]. destruct (Hin m2 Hlt2) as [Hp Hg].
        split; [exact Hp|]. split; [intros H; destruct (Hbyte _ _ H)|].
        intros _. repeat split; assumption.
      * intros [= <- <-].
        destruct (Hout (with_eof true m2) Hge2 eq_refl) as [Hp Hg].
        split; [exact Hp|]. split; [intros _; split; [reflexivity | exact Hg]|].
        intros H. destruct H. reflexivity.
Qed.

(** ** Reading with whole-buffer and with one-byte blocks *)

(** One round of reading with a block size that fits the room after
    [end_]. *)
Lemma refill_window_blk (inp : list Z) (m : Matcher) :
  window_clean inp m ->
  pos_ m = end_ m ->
  (blk_ m = 0 /\ end_ m < max_ m) \/ 0 < blk_ m <= max_ m - end_ m ->
  exists m2,
    refill m = Some (tt, m2) /\
    window_clean inp m2 /\
    num_ m2 = num_ m /\ pos_ m2 = pos_ m /\
    eof_ m2 = eof_ m /\ blk_ m2 = blk_ m /\ max_ m2 = max_ m /\
    txt_ m2 = txt_ m /\ end_ m <= end_ m2 /\
    (end_ m2 = end_ m -> num_ m + end_ m = Z.of_nat (length inp)).
Proof.
  intros Hclean Hpos Hblk. pose proof Hclean as [Hok _].
  pose proof Hok as [Ht Hp He Hm Hb Hn Hi Hs Hl Hc Hlo Hco].
  change (2 ^ 62) with 4611686018427387904 in Hi.
  unfold refill, get_block, Input_get. run_monad.
  assert (Hn' : exists nz : Z,
             (if blk_ m =? 0 then sz (max_ m - end_ m) else blk_ m) = nz /\
             0 < nz <= max_ m - end_ m).
  { destruct Hblk as [[H0 Hroom]|Hfit].
    - rewrite H0. cbn [Z.eqb]. rewrite sz_small by lia.
      exists (max_ m - end_ m). split; [reflexivity | lia].
    - destruct (Z.eqb_spec (blk_ m) 0); [lia|].
      exists (blk_ m). split; [reflexivity | lia]. }
  destruct Hn' as (nz & -> & Hnz).
  set (n := Z.to_nat nz).
  set (bytes := take n (in_ m)).
  assert (Hbytes : (length bytes <= n)%nat)
    by (unfold bytes; rewrite length_take; lia).
  assert (Hsrc : length (in_ m) = (length inp - Z.to_nat (num_ m + end_ m))%nat)
    by (rewrite Hs, length_drop; reflexivity).
  assert (Hbytes2 : (length bytes <= length (in_ m))%nat)
    by (unfold bytes; rewrite length_take; lia).
  cbn [end_ with_in with_buf].
  assert (Hsz : sz (end_ m + Z.of_nat (length bytes))
                = end_ m + Z.of_nat (length bytes))
    by (apply sz_small; unfold n in Hbytes; lia).
  rewrite Hsz.
  eexists. split; [reflexivity|].
  assert (Hcells : forall i : Z,
             0 <= i < end_ m + Z.of_nat (length bytes) ->
             write_at (end_ m) bytes (buf_ m) !! Z.to_nat i
             = inp !! Z.to_nat (num_ m + i)).
  { intros i Hi'. destruct (Z.lt_ge_cases i (end_ m)) as [Hold|Hnew].
    - rewrite lookup_write_at_lt by lia.
      apply (window_cells inp m i Hclean). lia.
    - rewrite lookup_write_at_mid by lia.
      unfold bytes. rewrite lookup_take_lt by lia.
      rewrite Hs, lookup_drop. f_equal. lia. }
  split; [split; [constructor|]|]; cbn.
  - lia.
  - lia.
  - unfold n in Hbytes. lia.
  - lia.
  - rewrite length_write_at; [exact Hb|]. unfold n in Hbytes. lia.
  - lia.
  - change (2 ^ 62) with 4611686018427387904. lia.
  - rewrite Hs, drop_drop. unfold bytes. rewrite length_take.
    destruct (Nat.le_ge_cases n (length (in_ m))) as [Hn1|Hn2].
    + f_equal. lia.
    + rewrite !drop_ge by lia. reflexivity.
  - lia.
  - intros i Hi' _. apply Hcells. exact Hi'.
  - exact Hlo.
  - exact Hco.
  - intros Hi'. apply Hcells. lia.
  - repeat split; try lia; try assumption.
    intros Hsame.
    assert (Hzero : length bytes = 0%nat) by lia.
    unfold bytes in Hzero. rewrite length_take in Hzero.
    unfold n in Hzero. lia.
Qed.

(** The refill of [peek()] and [get()] with the cursor at the end of the
    window: room is made if the buffer is full and one round of reading
    follows; the window then holds the next byte of the input unless the
    input is exhausted. *)
Lemma refilled_window (inp : list Z) (m : Matcher) :
  window_clean inp m ->
  0 <= blk_ m <= 1 ->
  pos_ m = end_ m ->
  max_ m <= 2 ^ 62 ->
  exists m2,
    (grow_if_full ;;; refill) m = Some (tt, m2) /\
    window_clean inp m2 /\
    num_ m2 + pos_ m2 = num_ m + pos_ m /\
    eof_ m2 = eof_ m /\ blk_ m2 = blk_ m /\
    pos_ m2 <= end_ m2 /\
    (pos_ m2 = end_ m2 -> num_ m + pos_ m = Z.of_nat (length inp)) /\
    (pos_ m2 < end_ m2 -> num_ m + pos_ m < Z.of_nat (length inp)) /\
    (Z.of_nat (length inp) <= 2 ^ 60 -> max_ m2 <= 2 ^ 62).
Proof.
  intros Hclean Hblk Hpos Hmax. unfold bind.
  destruct (grow_if_full_window inp m Hclean Hpos Hmax)
    as (m1 & Hg & Hclean1 & Hplace & Hpos1 & Hroom & Heof1 & Hblk1).
  rewrite Hg.
  destruct (refill_window_blk inp m1 Hclean1 Hpos1)
    as (m2 & -> & Hclean2 & Hnum2 & Hpos2 & Heof2 & Hblk2 & Hmax2 & _ & Hend2 & Hdone).
  { destruct (Z.eq_dec (blk_ m1) 0); [left; split; assumption | right; lia]. }
  exists m2. split; [reflexivity|].
  pose proof Hclean2 as [Hok2 _]. pose proof (wo_len _ _ Hok2) as Hlen2.
  split; [exact Hclean2|].
  assert (Hcap : Z.of_nat (length inp) <= 2 ^ 60 -> max_ m2 <= 2 ^ 62).
  { intros Hinp. rewrite Hmax2. destruct Hclean as [Hok _].
    exact (grow_if_full_bound inp m m1 tt Hok Hinp Hmax Hg). }
  repeat split; try lia; try congruence; exact Hcap.
Qed.

(** One call of [get()] in a window that shows the input: the byte at
    the absolute offset [num_ + pos_] or [EOF]; the window, the meaning of
    [eof_] (the source is exhausted) and the bound on the capacity are
    kept. *)
Lemma get_step (inp : list Z) (m : Matcher) :
  window_clean inp m ->
  0 <= blk_ m <= 1 ->
  max_ m <= 2 ^ 62 ->
  exists c m',
    get m = Some (c, m') /\
    window_clean inp m' /\
    blk_ m' = blk_ m /\
    ((c = EOF /\ pos_ m' = end_ m' /\ eof_ m' = true /\
      num_ m' + pos_ m' = num_ m + pos_ m /\
      (eof_ m = false -> num_ m + pos_ m = Z.of_nat (length inp))) \/
     (num_ m + pos_ m < Z.of_nat (length inp) /\
      c = uchar (default 0 (inp !! Z.to_nat (num_ m + pos_ m))) /\
      num_ m' + pos_ m' = num_ m + pos_ m + 1)) /\
    ((eof_ m = true -> in_ m = []) -> eof_ m' = true -> in_ m' = []) /\
    (Z.of_nat (length inp) <= 2 ^ 60 -> max_ m' <= 2 ^ 62).
Proof.
  intros Hclean Hblk Hmax. pose proof Hclean as [Hok _].
  pose proof Hok as [Ht Hp He Hm Hb Hn Hi Hs Hl Hc Hlo Hco].
  unfold get. run_monad.
  destruct (Z.ltb_spec (pos_ m) (end_ m)) as [Hin|Hout].
  - exists (load (buf_ m) (pos_ m)), (with_pos (sz (pos_ m + 1)) m).
    split; [reflexivity|].
    split; [apply window_advance; assumption|].
    split; [reflexivity|].
    split; [|split; [intros Hsrc; exact Hsrc | intros _; exact Hmax]].
    right.
    unfold load. rewrite (window_cells inp m (pos_ m) Hclean) by lia.
    cbn. rewrite sz_small by lia. repeat split; lia.
  - destruct (eof_ m) eqn:Heof.
    + exists EOF, m. split; [reflexivity|].
      split; [exact Hclean|]. split; [reflexivity|].
      split; [|split; [intros Hsrc _; apply Hsrc; reflexivity
                      | intros _; exact Hmax]].
      left. repeat split; try lia; try assumption; try discriminate.
    + destruct (refilled_window inp m Hclean Hblk) as
          (m2 & Hrun & Hclean2 & Hplace & Heof2 & Hblk2 & Hle & Hdone & Hmore
           & Hcap);
        [lia | exact Hmax |].
      unfold bind in Hrun.
      destruct (grow_if_full m) as [[u m1]|]; [|discriminate].
      cbn [get_loop]. unfold wrap. run_monad. rewrite Hrun.
      pose proof Hclean2 as [Hok2 _].
      destruct (Z.ltb_spec (pos_ m2) (end_ m2)) as [Hgot|Hnone].
      * exists (load (buf_ m2) (pos_ m2)), (with_pos (sz (pos_ m2 + 1)) m2).
        split; [reflexivity|].
        split; [apply window_advance; assumption|].
        split; [exact Hblk2|].
        split; [|split; [intros _ Habs; cbn in Habs; congruence | exact Hcap]].
        right.
        pose proof (wo_txt _ _ Hok2). pose proof (wo_pos _ _ Hok2).
        pose proof (wo_max _ _ Hok2). pose proof (wo_end _ _ Hok2).
        unfold load. rewrite (window_cells inp m2 (pos_ m2) Hclean2) by lia.
        cbn. rewrite sz_small by lia.
        replace (num_ m2 + pos_ m2) with (num_ m + pos_ m) by lia.
        specialize (Hmore Hgot). repeat split; lia.
      * exists EOF, (with_eof true m2). split; [reflexivity|].
        split; [apply window_eof; exact Hclean2|].
        split; [exact Hblk2|].
        split; [|split; [|exact Hcap]].
        -- left.
           cbn. repeat split; try lia; try (intros _; apply Hdone; lia).
        -- intros _ _. cbn. rewrite (wo_src _ _ Hok2). apply drop_ge.
           pose proof (wo_num _ _ Hok2). specialize (Hdone ltac:(lia)). lia.
Qed.

(** X1.  [get()] hands out the bytes of the input in order.  In a window
    that shows the input, with whole-buffer reads or one-byte (interactive)
    reads and a capacity up to [2^62], [get()] returns; it yields the byte
    at the absolute offset [num_ + pos_] and steps over it, or it yields
    [EOF] and stays; unless [eof_] was forced before, [EOF] comes only
    when the whole input has been handed out.  The window still shows the
    input afterwards. *)
Theorem get_delivers_input (inp : list Z) (m : Matcher) :
  window_clean inp m ->
  0 <= blk_ m <= 1 ->
  max_ m <= 2 ^ 62 ->
  exists c m',
    get m = Some (c, m') /\
    window_clean inp m' /\
    blk_ m' = blk_ m /\
    ((c = EOF /\ pos_ m' = end_ m' /\ eof_ m' = true /\
      num_ m' + pos_ m' = num_ m + pos_ m /\
      (eof_ m = false -> num_ m + pos_ m = Z.of_nat (length inp))) \/
     (num_ m + pos_ m < Z.of_nat (length inp) /\
      c = uchar (default 0 (inp !! Z.to_nat (num_ m + pos_ m))) /\
      num_ m' + pos_ m' = num_ m + pos_ m + 1)).
Proof.
  intros Hclean Hblk Hmax.
  destruct (get_step inp m Hclean Hblk Hmax)
    as (c & m' & Hrun & Hclean' & Hblk' & Hres & _).
  exists c, m'. split; [exact Hrun|]. split; [exact Hclean'|].
  split; [exact Hblk'|]. exact Hres.
Qed.

(** X3.  [peek()] shows the byte that [get()] would hand out, without
    stepping over it, and [at_end()] tells whether the input is used up:
    under the conditions of [get()], [peek()] yields the byte at the
    absolute offset [num_ + pos_], or [EOF]; and, unless [eof_] was forced
    before, [at_end()] answers true exactly when that offset is the
    length of the input.  Neither moves the cursor on the input. *)
Theorem peek_at_end_input (inp : list Z) (m : Matcher) :
  window_clean inp m ->
  0 <= blk_ m <= 1 ->
  max_ m <= 2 ^ 62 ->
  (exists c m',
      peek m = Some (c, m') /\
      window_clean inp m' /\
      num_ m' + pos_ m' = num_ m + pos_ m /\
      ((c = EOF /\ pos_ m' = end_ m' /\ eof_ m' = true /\
        (eof_ m = false -> num_ m + pos_ m = Z.of_nat (length inp))) \/
       (num_ m + pos_ m < Z.of_nat (length inp) /\
        c = uchar (default 0 (inp !! Z.to_nat (num_ m + pos_ m)))))) /\
  (exists b m',
      at_end m = Some (b, m') /\
      window_clean inp m' /\
      num_ m' + pos_ m' = num_ m + pos_ m /\
      (eof_ m = false ->
       (b = true <-> num_ m + pos_ m = Z.of_nat (length inp)))).
Proof.
  intros Hclean Hblk Hmax. pose proof Hclean as [Hok _].
  pose proof Hok as [Ht Hp He Hm Hb Hn Hi Hs Hl Hc Hlo Hco].
  assert (Hpeek : exists c m',
      peek m = Some (c, m') /\
      window_clean inp m' /\
      num_ m' + pos_ m' = num_ m + pos_ m /\
      ((c = EOF /\ pos_ m' = end_ m' /\ eof_ m' = true /\
        (eof_ m = false -> num_ m + pos_ m = Z.of_nat (length inp))) \/
       (num_ m + pos_ m < Z.of_nat (length inp) /\
        c = uchar (default 0 (inp !! Z.to_nat (num_ m + pos_ m)))))).
  { unfold peek. run_monad.
    destruct (Z.ltb_spec (pos_ m) (end_ m)) as [Hin|Hout].
    - exists (load (buf_ m) (pos_ m)), m. split; [reflexivity|].
      split; [exact Hclean|]. split; [reflexivity|]. right.
      unfold load. rewrite (window_cells inp m (pos_ m) Hclean) by lia.
      split; [lia | reflexivity].
    - destruct (eof_ m) eqn:Heof.
      + exists EOF, m. split; [reflexivity|].
        split; [exact Hclean|]. split; [reflexivity|].
        left. repeat split; try lia; try assumption; try discriminate.
      + destruct (refilled_window inp m Hclean Hblk) as
            (m2 & Hrun & Hclean2 & Hplace & Heof2 & Hblk2 & Hle & Hdone & Hmore
             & _);
          [lia | exact Hmax |].
        unfold bind in Hrun.
        destruct (grow_if_full m) as [[u m1]|]; [|discriminate].
        cbn [peek_loop]. unfold wrap. run_monad. rewrite Hrun.
        pose proof Hclean2 as [Hok2 _].
        destruct (Z.ltb_spec (pos_ m2) (end_ m2)) as [Hgot|Hnone].
        * exists (load (buf_ m2) (pos_ m2)), m2. split; [reflexivity|].
          split; [exact Hclean2|]. split; [exact Hplace|]. right.
          pose proof (wo_txt _ _ Hok2).
          unfold load. rewrite (window_cells inp m2 (pos_ m2) Hclean2) by lia.
          replace (num_ m2 + pos_ m2) with (num_ m + pos_ m) by lia.
          specialize (Hmore Hgot). split; [lia | reflexivity].
        * exists EOF, (with_eof true m2). split; [reflexivity|].
          split; [apply window_eof; exact Hclean2|].
          split; [exact Hplace|]. left.
          cbn. repeat split; try lia; try (intros _; apply Hdone; lia). }
  split; [exact Hpeek|].
  unfold at_end. run_monad.
  destruct (Z.eqb_spec (pos_ m) (end_ m)) as [Heq|Hne]; cbn [negb].
  - destruct (eof_ m) eqn:Heof.
    + exists true, m. split; [reflexivity|]. split; [exact Hclean|].
      split; [reflexivity | discriminate].
    + destruct Hpeek as (c & m' & -> & Hclean' & Hplace & Hres).
      exists (c =? EOF), m'. split; [reflexivity|].
      split; [exact Hclean'|]. split; [exact Hplace|]. intros _.
      destruct Hres as [(-> & _ & _ & Hdone) | (Hmore & ->)].
      * split; [intros _; apply Hdone; reflexivity | reflexivity].
      * match goal with
        | |- context [uchar ?x =? EOF] =>
            pose proof (uchar_range x) as Hr;
            destruct (Z.eqb_spec (uchar x) EOF) as [He'|_];
            [unfold EOF in He'; lia|]
        end.
        split; [discriminate | lia].
  - exists false, m. split; [reflexivity|]. split; [exact Hclean|].
    split; [reflexivity|]. intros _. split; [discriminate | lia].
Qed.

(** ** What [grow] keeps *)

(** The matched text read through a buffer whose cells from [txt] on are
    those of another buffer from [txt'] on. *)
Lemma text_cells (buf buf' : list Z) (txt txt' len : Z) :
  0 <= txt -> 0 <= txt' ->
  (forall i : Z, 0 <= i < len ->
                 buf' !! Z.to_nat (txt' + i) = buf !! Z.to_nat (txt + i)) ->
  take (Z.to_nat len) (drop (Z.to_nat txt') buf')
  = take (Z.to_nat len) (drop (Z.to_nat txt) buf).
Proof.
  intros Htxt Htxt' Hcells. apply list_eq. intros i.
  destruct (Nat.lt_ge_cases i (Z.to_nat len)) as [Hlt|Hge].
  - rewrite !lookup_take_lt by exact Hlt. rewrite !lookup_drop.
    replace (Z.to_nat txt' + i)%nat with (Z.to_nat (txt' + Z.of_nat i)) by lia.
    replace (Z.to_nat txt + i)%nat with (Z.to_nat (txt + Z.of_nat i)) by lia.
    apply Hcells. lia.
  - rewrite !lookup_take_ge by exact Hge. reflexivity.
Qed.


(** X4.  [grow] never changes what is seen through the window: whenever it
    returns on a well-formed matcher, [text()] and [size()] are the same,
    the buffered bytes from the cursor to [end_] are the same and as many,
    the cursor keeps its distance to the start of the match, and the
    source, [got_], [chr_], [eof_] and the options are untouched. *)
Theorem grow_keeps_view (need : Z) (m m' : Matcher) (r : bool) :
  0 <= txt_ m <= pos_ m ->
  pos_ m <= end_ m ->
  end_ m <= max_ m ->
  max_ m < size_modulus ->
  Z.of_nat (length (buf_ m)) = max_ m ->
  0 <= lno_ m < size_modulus ->
  0 <= len_ m ->
  txt_ m + len_ m <= end_ m ->
  grow need m = Some (r, m') ->
  text m' = text m /\
  size m' = size m /\
  (forall i : Z, 0 <= i < end_ m - pos_ m ->
                 load (buf_ m') (pos_ m' + i) = load (buf_ m) (pos_ m + i)) /\
  end_ m' - pos_ m' = end_ m - pos_ m /\
  pos_ m' - txt_ m' = pos_ m - txt_ m /\
  in_ m' = in_ m /\ got_ m' = got_ m /\ chr_ m' = chr_ m /\
  eof_ m' = eof_ m /\ opt_ m' = opt_ m /\ accept m' = accept m.
Proof.
  intros Htxt Hpos Hend Hmax Hbuf Hlno Hlen Hfit Hrun.
  destruct (grow_cases need m m' r) as
      [(_ & -> & _) | [(_ & -> & _) | (_ & mx & Hdrop & H1 & H2 & _)]];
    try assumption; try lia.
  - repeat split; reflexivity.
  - repeat split; reflexivity.
  - destruct Hdrop as [D1 D2 D3 D4 D5 D6 D7 D8 D9 D10 D11].
    destruct D11 as (Dlen & Dcap & Dgot & Dchr & Deof & _ & _ & Dopt & Din).
    rewrite (sz_small (pos_ m - txt_ m)) in D2 by lia.
    rewrite (sz_small (end_ m - txt_ m)) in D4 by lia.
    unfold text, size, accept. rewrite D1, Dlen.
    split; [apply text_cells; try lia|].
    { intros i Hi. rewrite Z.add_0_l. apply D10. lia. }
    split; [reflexivity|].
    split.
    { intros i Hi. unfold load. rewrite D2.
      rewrite D10 by lia. do 3 f_equal. lia. }
    repeat split; try assumption; lia.
Qed.

(** X5.  [grow] returns when capacity and demand are at most [2^62]; its
    result is false exactly when [need] cells were free already; and
    unless the gap before [txt_] and the free cells each fall short of
    [need] while the capacity covers [end_ - gap + need], [need] cells
    are free after [end_] when it has returned.  The capacity never
    shrinks. *)
Theorem grow_returns_with_room (need : Z) (m : Matcher) :
  0 <= txt_ m <= end_ m ->
  end_ m <= max_ m ->
  0 < max_ m <= 2 ^ 62 ->
  Z.of_nat (length (buf_ m)) = max_ m ->
  0 <= lno_ m < size_modulus ->
  0 <= need <= 2 ^ 62 ->
  exists (r : bool) (m' : Matcher),
    grow need m = Some (r, m') /\
    (r = false <-> need <= max_ m - end_ m) /\
    max_ m <= max_ m' /\
    Z.of_nat (length (buf_ m')) = max_ m' /\
    (need <= max_ m - end_ m \/ need <= txt_ m \/
     max_ m < end_ m - txt_ m + need ->
     need <= max_ m' - end_ m' /\ end_ m' <= max_ m').
Proof.
  intros Htxt Hend Hmax Hbuf Hlno Hneed.
  destruct (grow_returns need m Htxt Hend Hmax Hneed) as (r & m' & Hrun).
  exists r, m'. split; [exact Hrun|].
  change (2 ^ 62) with 4611686018427387904 in *.
  assert (Hmax' : max_ m < size_modulus) by (unfold size_modulus; lia).
  destruct (grow_cases need m m' r Htxt Hend Hmax' Hbuf Hlno Hrun) as
      [(-> & -> & Hroom) | [(-> & -> & H1 & H2 & H3)
                           | (-> & mx & Hdrop & H1 & H2 & Hkind)]].
  - split; [split; [intros _; exact Hroom | reflexivity]|].
    split; [lia|]. split; [exact Hbuf|]. intros _. lia.
  - rewrite sz_small in H3 by (unfold size_modulus; lia).
    split; [split; [discriminate | lia]|].
    split; [lia|]. split; [exact Hbuf|]. intros Hcase. lia.
  - rewrite (sz_small (end_ m - txt_ m + need)) in Hkind
      by (unfold size_modulus; lia).
    rewrite (dp_max _ _ _ Hdrop), (dp_buf _ _ _ Hdrop), (dp_end _ _ _ Hdrop).
    rewrite (sz_small (end_ m - txt_ m)) by lia.
    split.
    { split; [discriminate|]. intros Hroom. exfalso.
      unfold grow in Hrun. rewrite (sz_small (max_ m - end_ m)) in Hrun by lia.
      rewrite Z.geb_leb in Hrun.
      destruct (Z.leb_spec need (max_ m - end_ m)); [discriminate | lia]. }
    split; [lia|]. split; [reflexivity|]. intros _. lia.
Qed.

(** ** [reset] and [input(inp)] *)

(** X13.  [reset], with or without an option string, and [input(inp)]
    restart the matcher whatever it did before: the window is empty and
    shows the bytes left in the source (for [input(inp)], the new source
    [inp]), the matcher is at the begin of the buffer, and offset, line
    and column are 0, 1 and 0, with an empty match. *)
Theorem reset_restarts (opt : option string) (inp : list Z) (m m' : Matcher) :
  0 < max_ m < size_modulus ->
  Z.of_nat (length (buf_ m)) = max_ m ->
  Z.of_nat (length (in_ m)) <= 2 ^ 62 ->
  Z.of_nat (length inp) <= 2 ^ 62 ->
  (reset opt m = Some (tt, m') ->
   window_clean (in_ m) m' /\ at_bob m' = true /\ hit_end m' = false /\
   first m' = 0 /\ last m' = 0 /\ lineno m' = 1 /\ columno m' = 0 /\
   size m' = 0 /\ accept m' = 0 /\ text m' = []) /\
  (exists m2,
      input_from inp m = Some (tt, m2) /\
      window_clean inp m2 /\ at_bob m2 = true /\ opt_ m2 = opt_ m /\
      first m2 = 0 /\ lineno m2 = 1 /\ columno m2 = 0).
Proof.
  intros Hmax Hbuf Hsrc Hinp.
  assert (Hfresh : forall (o : Option) (s : Matcher) (src : list Z),
             0 < max_ s < size_modulus ->
             Z.of_nat (length (buf_ s)) = max_ s ->
             in_ s = src ->
             Z.of_nat (length src) <= 2 ^ 62 ->
             window_clean src (reset_members o s)).
  { intros o s src Hm Hb Hin Hlen.
    split; [constructor|]; cbn; try lia; try reflexivity; try assumption;
      try (intros; lia);
      try (unfold store; rewrite length_insert; exact Hb). }
  split.
  - unfold reset.
    destruct (match opt with
              | Some s => parse_options s (mkOption false false 8)
              | None => Some (opt_ m)
              end) as [o|]; [|discriminate].
    intros [= <-].
    split; [apply Hfresh; try assumption; reflexivity|].
    repeat split.
  - exists (reset_members (opt_ m) (with_in inp m)).
    split; [reflexivity|].
    split; [apply Hfresh; try assumption; reflexivity|].
    repeat split.
Qed.

(** ** [set_end] and [flush] *)

(** X8.  After [set_end(true)] the matcher is at the end of the input for
    every reader: [hit_end()] and [at_end()] hold, [peek()], [get()] and
    [input()] yield [EOF], and none of them reads from the source; what
    was buffered after the cursor is given up.  [set_end(false)] only
    clears [eof_]. *)
Theorem set_end_stops_reading (m : Matcher) :
  hit_end (set_end true m) = true /\
  pos_ (set_end true m) = end_ m /\
  at_end (set_end true m) = Some (true, set_end true m) /\
  peek (set_end true m) = Some (EOF, set_end true m) /\
  get (set_end true m) = Some (EOF, set_end true m) /\
  input (set_end true m)
  = Some (EOF, with_cur (end_ m) (with_got EOF (set_end true m))) /\
  in_ (set_end true m) = in_ m /\
  set_end false m = with_eof false m.
Proof.
  unfold set_end, flush, hit_end, at_end, peek, get, input. run_monad. cbn.
  rewrite Z.eqb_refl, Z.ltb_irrefl. cbn.
  rewrite Z.ltb_irrefl. repeat split.
  unfold ret. cbn. rewrite Z.ltb_irrefl. reflexivity.
Qed.

(** ** [input()] and [less] *)




(** X7.  [less(n)] with [n] below the size of a match that ends at the
    cursor cuts the match to its first [n] bytes: [text()] is the old text
    truncated to [n], [size()] is [n], the text is followed by a [NUL]
    cell, the cursor stands right after it, and the next [input()]
    returns the first byte that was cut off.  With [n] not below the size
    nothing changes. *)
Theorem less_truncates (n : Z) (m : Matcher) :
  0 <= txt_ m ->
  pos_ m = txt_ m + len_ m ->
  pos_ m <= end_ m ->
  end_ m <= max_ m ->
  pos_ m < max_ m ->
  max_ m < size_modulus ->
  Z.of_nat (length (buf_ m)) = max_ m ->
  0 <= n ->
  (len_ m <= n -> less n m = Some (tt, m)) /\
  (n < len_ m ->
   exists m',
     less n m = Some (tt, m') /\
     text m' = take (Z.to_nat n) (text m) /\
     size m' = n /\
     txt_ m' = txt_ m /\ pos_ m' = txt_ m + n /\ cur_ m' = txt_ m + n /\
     load (buf_ m') (txt_ m' + size m') = Const.NUL /\
     chr_ m' = uchar (default 0 (text m !! Z.to_nat n)) /\
     exists m'',
       input m' = Some (uchar (default 0 (text m !! Z.to_nat n)), m'')).
Proof.
  intros Htxt Hpos Hend Hcap Hmax Hsize Hbuf Hn. unfold less. run_monad.
  destruct (Z.ltb_spec n (len_ m)) as [Hcut|Hkeep].
  2: { split; [reflexivity | lia]. }
  split; [lia|]. intros _.
  destruct (Z.ltb_spec (pos_ m) (max_ m)) as [_|]; [|lia].
  cbn [negb pos_ txt_ max_ buf_ chr_ with_buf with_pos].
  rewrite (sz_small (txt_ m + n)) by lia.
  destruct (Z.ltb_spec (txt_ m + n) (max_ m)) as [_|]; [|lia].
  cbn [negb pos_ txt_ max_ buf_ chr_ with_buf with_pos with_chr].
  eexists. split; [reflexivity|].
  assert (Hcell : load (store (pos_ m) (chr_ m) (buf_ m)) (txt_ m + n)
                  = uchar (default 0 (text m !! Z.to_nat n))).
  { unfold load, store, text.
    rewrite list_lookup_insert_ne by lia.
    rewrite lookup_take_lt by lia. rewrite lookup_drop.
    do 3 f_equal. lia. }
  unfold text at 1. unfold size.
  cbn [txt_ len_ buf_ pos_ cur_ chr_
       with_cur with_len with_buf with_chr with_pos].
  split.
  { unfold text. rewrite take_take, Nat.min_l by lia.
    apply text_cells; try lia. intros i Hi. unfold store.
    rewrite !list_lookup_insert_ne by lia. reflexivity. }
  split; [reflexivity|]. split; [reflexivity|].
  split; [reflexivity|]. split; [reflexivity|].
  split.
  { unfold load, store. rewrite list_lookup_insert_eq.
    - reflexivity.
    - rewrite length_insert. lia. }
  split; [exact Hcell|].
  match goal with
  | |- context [input ?s] =>
      destruct (input_held s) as (m'' & Hin & _);
      [cbn; lia | cbn; lia | exists m''; rewrite Hin]
  end.
  cbn [chr_ with_cur with_len with_buf with_chr].
  rewrite Hcell. reflexivity.
Qed.

(** ** [buffer] *)

(** X9.  [buffer(0)] on a matcher that has just been reset, with a source
    that knows its size [n > 0]: the call returns true, all [n] bytes have
    been taken from the source and stand in the cells [0 .. n) of the
    buffer, and [eof_] is set; but [end_] is still 0, so the bytes are not
    part of the window: [peek()] and [get()] yield [EOF] at once.  With a
    block size [blk > 0] the call only stores the smaller of [blk] and
    [BLOCK] in [blk_]. *)
Theorem buffer_all_sets_eof (Input_size : Input -> Z) (m : Matcher) :
  Input_size (in_ m) = Z.of_nat (length (in_ m)) ->
  0 < Z.of_nat (length (in_ m)) <= 2 ^ 62 ->
  got_ m = Const.BOB ->
  txt_ m = 0 -> pos_ m = 0 -> end_ m = 0 ->
  0 < max_ m <= 2 ^ 62 ->
  Z.of_nat (length (buf_ m)) = max_ m ->
  0 <= lno_ m < size_modulus ->
  (exists m',
      buffer Input_size 0 m = Some (true, m') /\
      eof_ m' = true /\ in_ m' = [] /\
      take (length (in_ m)) (buf_ m') = in_ m /\
      end_ m' = 0 /\ pos_ m' = 0 /\ blk_ m' = 0 /\
      peek m' = Some (EOF, m') /\ get m' = Some (EOF, m')) /\
  (forall blk : Z,
      0 < blk ->
      buffer Input_size blk m = Some (true, with_blk (Z.min blk Const.BLOCK) m)).
Proof.
  change (2 ^ 62) with 4611686018427387904.
  intros Hsize Hn Hgot Htxt Hpos Hend Hmax Hbuf Hlno.
  split.
  - unfold buffer. run_monad. unfold at_bob.
    change (0 >? Const.BLOCK) with false. cbn [Z.eqb]. cbv beta.
    cbn [got_ in_ with_blk]. rewrite Hgot, Z.eqb_refl. cbn [negb].
    rewrite Hsize.
    destruct (Z.eqb_spec (Z.of_nat (length (in_ m))) 0) as [|_]; [lia|].
    set (n := Z.of_nat (length (in_ m))) in *.
    pose (m0 := with_blk 0 m).
    destruct (grow_returns n m0) as (r & m1 & Hrun);
      try (cbn; change (2 ^ 62) with 4611686018427387904; lia).
    subst m0.
    rewrite Hrun.
    assert (Hm1 : end_ m1 = 0 /\ pos_ m1 = 0 /\ n <= max_ m1 /\
                  Z.of_nat (length (buf_ m1)) = max_ m1 /\
                  in_ m1 = in_ m /\ blk_ m1 = 0).
    { destruct (grow_cases n (with_blk 0 m) m1 r) as
          [(_ & -> & Hroom) | [(_ & -> & _ & _ & Hcover)
                              | (_ & mx & Hdrop & H1 & H2 & Hkind)]];
        try (cbn; lia); try (cbn; unfold size_modulus; lia); try exact Hrun.
      - cbn in *. repeat split; try assumption; lia.
      - cbn in *. rewrite Hend, Htxt in Hcover.
        rewrite sz_small in Hcover by (unfold size_modulus; lia).
        repeat split; try assumption; lia.
      - destruct Hdrop as [D1 D2 D3 D4 D5 D6 D7 D8 D9 D10 D11].
        destruct D11 as (_ & _ & _ & _ & _ & _ & Dblk & _ & Din).
        cbn in D2, D4, Dblk, Din, Hkind.
        rewrite Hpos, Htxt in D2. rewrite Hend, Htxt in D4.
        rewrite Hend, Htxt in Hkind.
        change (sz (0 - 0)) with 0 in D2, D4.
        rewrite (sz_small (0 - 0 + n)) in Hkind by (unfold size_modulus; lia).
        repeat split; try assumption; lia. }
    destruct Hm1 as (E1 & E2 & E3 & E4 & E5 & E6).
    unfold get_block_at, Input_get. rewrite E5.
    rewrite take_ge, drop_ge by lia.
    rewrite Z.eqb_refl. cbn [negb].
    eexists. split; [reflexivity|]. cbn.
    split; [reflexivity|]. split; [reflexivity|].
    split.
    { unfold write_at. change (Z.to_nat 0) with 0%nat.
      rewrite take_0. cbn [app]. apply take_app_length. }
    split; [exact E1|]. split; [exact E2|]. split; [exact E6|].
    unfold peek, get. run_monad. cbn. rewrite E1, E2. split; reflexivity.
  - intros blk Hblk. unfold buffer. run_monad.
    rewrite Z.gtb_ltb.
    destruct (Z.ltb_spec Const.BLOCK blk) as [Hbig|Hsmall].
    + cbn [Z.eqb Const.BLOCK]. rewrite Z.min_r by lia. reflexivity.
    + destruct (Z.eqb_spec blk 0); [lia|]. rewrite Z.min_l by lia. reflexivity.
Qed.

(** ** Walking with an iterator *)

(** [collect] returns one result for each call. *)
Lemma collect_replicate_length {A : Type} (c : M A) (n : nat) (m m' : Matcher)
    (rs : list A) :
  collect (replicate n c) m = Some (rs, m') -> length rs = n.
Proof.
  revert m rs. induction n as [|n IH]; intros s rs Hrun;
    cbn [replicate collect] in Hrun.
  - injection Hrun as <- _. reflexivity.
  - run_monad. destruct (c s) as [[r1 s1]|]; [|discriminate].
    destruct (collect (replicate n c) s1) as [[rs' s2]|] eqn:Hr; [|discriminate].
    injection Hrun as <- <-. cbn [length]. f_equal. exact (IH _ _ Hr).
Qed.

Section WalkFacts.

Variable match_ : Method -> M Z.
Variable p : nat.
Variable method : Method.

(** [k] increments of an iterator that points to the matcher at [p]: the
    matcher has been matched [k] times, and the iterator has become the
    end iterator exactly when the last of these matches returned 0. *)
Lemma advance_matches (k : nat) (h : gmap nat Matcher) (m m' : Matcher)
    (rs : list Z) :
  h !! p = Some m ->
  collect (replicate k (match_ method)) m = Some (rs, m') ->
  Forall (fun r => r <> 0) (take (length rs - 1) rs) ->
  advance match_ k (mkIterator (Some p) method) h
  = Some (mkIterator (if decide (list.last rs = Some 0) then None else Some p) method,
          <[p := m']> h).
Proof.
  revert h m rs. induction k as [|k IH]; intros h m rs Hp Hrun Hnz.
  - cbn in Hrun. injection Hrun as <- <-. cbn.
    rewrite insert_id by exact Hp. reflexivity.
  - cbn [replicate collect] in Hrun. run_monad.
    destruct (match_ method m) as [[r1 m1]|] eqn:Hm1; [|discriminate].
    destruct (collect (replicate k (match_ method)) m1) as [[rs' m2]|] eqn:Hrest;
      [|discriminate].
    injection Hrun as <- <-.
    cbn [advance]. unfold Iterator_incr. cbn [matcher_ method_].
    rewrite (at_address_run p (match_ method) h m m1 r1 Hp Hm1).
    destruct k as [|k'].
    + cbn in Hrest. injection Hrest as <- <-. cbn [advance list.last].
      destruct (Z.eqb_spec r1 0) as [->|Hr1].
      * rewrite decide_True by reflexivity. reflexivity.
      * rewrite decide_False by congruence. reflexivity.
    + assert (Hlen : rs' <> []).
      { intros ->. cbn [replicate collect] in Hrest. run_monad.
        destruct (match_ method m1) as [[? ?]|]; [|discriminate].
        destruct (collect _ _) as [[? ?]|]; discriminate. }
      destruct rs' as [|r2 rs'']; [congruence|].
      cbn [length Nat.sub take] in Hnz.
      apply Forall_cons in Hnz as [Hr1 Hnz].
      destruct (Z.eqb_spec r1 0) as [|_]; [contradiction|].
      rewrite (IH (<[p := m1]> h) m1 (r2 :: rs'')).
      * rewrite insert_insert_eq. reflexivity.
      * apply lookup_insert_eq.
      * exact Hrest.
      * cbn [length Nat.sub]. rewrite Nat.sub_0_r. exact Hnz.
Qed.

End WalkFacts.

(** X10.  Walking from [begin()] with [k] increments resets the matcher
    once and then calls [match] [k + 1] times on it, each time on the
    state the call before has left; when all matches but the last were
    nonzero the walk succeeds, the matcher ends in the state after the
    last match, and the iterator is the end iterator (equal to [end()])
    exactly when the last match returned 0. *)
Theorem iterator_walk (match_ : Method -> M Z) (op : Operation) (k : nat)
    (h : gmap nat Matcher) (m m' : Matcher) (rs : list Z) :
  h !! op_matcher_ op = Some m ->
  (reset None ;;; collect (replicate (S k) (match_ (op_method_ op)))) m
  = Some (rs, m') ->
  Forall (fun r => r <> 0) (take (length rs - 1) rs) ->
  exists it,
    match Operation_begin match_ op h with
    | Some (it0, h0) => advance match_ k it0 h0
    | None => None
    end = Some (it, <[op_matcher_ op := m']> h) /\
    length rs = S k /\
    (matcher_ it = None <-> list.last rs = Some 0) /\
    (list.last rs <> Some 0 -> matcher_ it = Some (op_matcher_ op)) /\
    (forall g, Iterator_eq it (Operation_end g) = true <-> list.last rs = Some 0).
Proof.
  intros Hp Hrun Hnz.
  set (p := op_matcher_ op) in *. set (method := op_method_ op) in *.
  unfold bind, reset in Hrun.
  set (m0 := reset_members (opt_ m) m) in *.
  pose proof (collect_replicate_length _ _ _ _ _ Hrun) as Hlen.
  assert (Hend : forall it : Iterator,
             it = mkIterator (if decide (list.last rs = Some 0) then None else Some p)
                             method ->
             (matcher_ it = None <-> list.last rs = Some 0) /\
             (list.last rs <> Some 0 -> matcher_ it = Some p) /\
             (forall g, Iterator_eq it (Operation_end g) = true
                        <-> list.last rs = Some 0)).
  { intros it ->. unfold Iterator_eq, Operation_end, Iterator_default.
    cbn [matcher_]. destruct (decide (list.last rs = Some 0)) as [Hz|Hnzl].
    - split; [split; intros; [exact Hz | reflexivity]|].
      split; [intros; contradiction|].
      intros g. split; intros; [exact Hz | apply bool_decide_eq_true; reflexivity].
    - split; [split; intros; [discriminate | contradiction]|].
      split; [intros; reflexivity|].
      intros g. split; [|intros; contradiction].
      intros H. apply bool_decide_eq_true in H. discriminate. }
  cbn [replicate collect] in Hrun. run_monad.
  destruct (match_ method m0) as [[r0 m1]|] eqn:Hm0; [|discriminate].
  destruct (collect (replicate k (match_ method)) m1) as [[rs' m2]|] eqn:Hrest;
    [|discriminate].
  injection Hrun as <- <-.
  unfold Operation_begin, Iterator_new. fold p. fold method.
  rewrite (at_address_run p (reset None ;;; match_ method) h m m1 r0 Hp)
    by (unfold bind, reset; exact Hm0).
  destruct k as [|k'].
  - cbn in Hrest. injection Hrest as <- <-. cbn [advance].
    eexists. split; [reflexivity|]. split; [reflexivity|].
    apply Hend. cbn [list.last].
    destruct (Z.eqb_spec r0 0) as [->|Hr0].
    + rewrite decide_True by reflexivity. reflexivity.
    + rewrite decide_False by congruence. reflexivity.
  - destruct rs' as [|r1 rs''].
    { cbn [length] in Hlen. lia. }
    cbn [length Nat.sub take] in Hnz.
    apply Forall_cons in Hnz as [Hr0 Hnz].
    destruct (Z.eqb_spec r0 0) as [|_]; [contradiction|].
    rewrite (advance_matches match_ p method (S k') (<[p := m1]> h) m1 m2
               (r1 :: rs'')).
    + rewrite insert_insert_eq. eexists. split; [reflexivity|].
      split; [exact Hlen|]. apply Hend. rewrite last_cons_cons. reflexivity.
    + apply lookup_insert_eq.
    + exact Hrest.
    + cbn [length Nat.sub]. rewrite Nat.sub_0_r. exact Hnz.
Qed.

(** ** The pattern binding *)

Section BindingFacts.

Variable l0 : gset nat.

Lemma binding_release (b : Binding) :
  binding_inv l0 b ->
  (if own_ b then delete_pattern (pat_ b) (live b) else Some (live b)) = Some l0.
Proof.
  intros [[Hown Hlive] | (Hown & a & Hpat & Ha & Hlive)];
    rewrite Hown, Hlive; [reflexivity|].
  rewrite Hpat. unfold delete_pattern.
  rewrite decide_True by (apply elem_of_union_r, elem_of_singleton; reflexivity).
  f_equal. apply set_eq. intros x.
  rewrite elem_of_difference, elem_of_union, elem_of_singleton.
  split; [intros [[Hx|Hx] Hne]; [exact Hx | contradiction]|].
  intros Hx. split; [left; exact Hx | intros ->; contradiction].
Qed.

Lemma rebind_inv (op : Rebind) (b : Binding) :
  binding_inv l0 b -> exists b', rebind op b = Some b' /\ binding_inv l0 b'.
Proof.
  intros Hinv. pose proof (binding_release b Hinv) as Hrel.
  destruct op as [a|]; cbn [rebind]; unfold pattern_object, pattern_regex.
  - destruct (decide (pat_ b = Some a)); [exists b; split; [reflexivity | exact Hinv]|].
    rewrite Hrel. eexists. split; [reflexivity|]. left. split; reflexivity.
  - rewrite Hrel. eexists. split; [reflexivity|]. right.
    split; [reflexivity|]. exists (fresh l0).
    split; [reflexivity|]. split; [apply is_fresh | reflexivity].
Qed.

Lemma rebind_all_inv (ops : list Rebind) (b : Binding) :
  binding_inv l0 b -> exists b', rebind_all ops b = Some b' /\ binding_inv l0 b'.
Proof.
  revert b. induction ops as [|op ops IH]; intros b Hinv; cbn [rebind_all].
  - exists b. split; [reflexivity | exact Hinv].
  - destruct (rebind_inv op b Hinv) as (b1 & -> & Hinv1). apply IH. exact Hinv1.
Qed.

End BindingFacts.

(** X11.  A pattern matcher frees exactly the patterns it has compiled.
    Built from a pattern object or from a regex, and rebound any number
    of times to pattern objects (at any addresses) or to regexes, it
    never deletes an address that is not allocated, it never deletes a
    pattern that was allocated before it was built, it holds at most one
    pattern of its own at a time, and once it is destroyed the allocated
    patterns are those from before it was built. *)
Theorem pattern_binding_frees_its_own (l0 : gset nat) (p : option nat)
    (ops : list Rebind) :
  (exists b,
      rebind_all ops (Binding_borrowed p l0) = Some b /\
      l0 ⊆ live b /\
      (own_ b = false -> live b = l0) /\
      (own_ b = true ->
       exists a : nat, pat_ b = Some a /\ (a ∉ l0) /\ live b = l0 ∪ {[a]}) /\
      Binding_destroy b = Some l0) /\
  (exists b,
      rebind_all ops (Binding_compiled l0) = Some b /\
      l0 ⊆ live b /\
      (own_ b = false -> live b = l0) /\
      (own_ b = true ->
       exists a : nat, pat_ b = Some a /\ (a ∉ l0) /\ live b = l0 ∪ {[a]}) /\
      Binding_destroy b = Some l0).
Proof.
  assert (Hall : forall b0 : Binding,
             binding_inv l0 b0 ->
             exists b,
               rebind_all ops b0 = Some b /\
               l0 ⊆ live b /\
               (own_ b = false -> live b = l0) /\
               (own_ b = true ->
                exists a : nat,
                  pat_ b = Some a /\ (a ∉ l0) /\ live b = l0 ∪ {[a]}) /\
               Binding_destroy b = Some l0).
  { intros b0 Hinv0.
    destruct (rebind_all_inv l0 ops b0 Hinv0) as (b & Hrun & Hinv).
    exists b. split; [exact Hrun|].
    pose proof (binding_release l0 b Hinv) as Hrel.
    destruct Hinv as [[Hown Hlive] | (Hown & a & Hpat & Ha & Hlive)].
    - split; [apply (reflexive_eq (R := subseteq)); symmetry; exact Hlive|].
      split; [intros _; exact Hlive|].
      split; [intros H; congruence|]. exact Hrel.
    - split; [rewrite Hlive; apply union_subseteq_l|].
      split; [intros H; congruence|].
      split; [intros _; exists a; repeat split; assumption|]. exact Hrel. }
  split; apply Hall.
  - left. split; reflexivity.
  - right. split; [reflexivity|]. exists (fresh l0).
    split; [reflexivity|]. split; [apply is_fresh | reflexivity].
Qed.

(** ** [rest] *)

(** [update] does not look at the cursor. *)
Lemma update_with_pos (p : Z) (m : Matcher) :
  update (with_pos p m) = with_pos p (update m).
Proof.
  unfold update. cbn [txt_ buf_ lno_ cno_ num_ with_pos].
  destruct (update_loop _ _ _ _ _) as [[lno t] cno]. reflexivity.
Qed.

(** With the match at the front of the buffer, [grow] leaves the cursor
    where it is. *)
Lemma grow_with_pos (need p : Z) (m : Matcher) :
  txt_ m = 0 -> 0 <= p < size_modulus ->
  grow need (with_pos p m)
  = match grow need m with
    | Some (r, m') => Some (r, with_pos p m')
    | None => None
    end.
Proof.
  intros Htxt Hp. unfold grow.
  cbn [txt_ max_ end_ with_pos]. rewrite Htxt.
  destruct (sz (max_ m - end_ m) >=? need); [reflexivity|].
  destruct (0 >=? need).
  { rewrite update_with_pos. unfold rebase.
    cbn [pos_ end_ buf_ cur_ ind_ with_pos with_cur with_ind with_end].
    rewrite (Z.sub_0_r p), (sz_small p) by exact Hp. reflexivity. }
  destruct (grow_loop 64 (max_ m) (sz (sz (end_ m - 0) + need))) as [mx|];
    [|reflexivity].
  cbn [max_ with_max with_pos].
  destruct (max_ m <? mx); [|reflexivity].
  change (with_max mx (with_pos p m)) with (with_pos p (with_max mx m)).
  rewrite update_with_pos. unfold rebase.
  cbn [pos_ end_ buf_ cur_ ind_ max_ with_pos with_cur with_ind with_end].
  rewrite (Z.sub_0_r p), (sz_small p) by exact Hp. reflexivity.
Qed.

(** Moving the cursor to the end of a window that shows the input. *)
Lemma window_at_end (inp : list Z) (m : Matcher) :
  window_clean inp m -> window_clean inp (with_pos (end_ m) m).
Proof.
  intros [Hok Hcell]. pose proof (window_cells inp m) as Hcells.
  destruct Hok as [Ht Hp He Hm Hb Hn Hi Hs Hl Hc Hlo Hco].
  split; [constructor; cbn; try assumption; try lia|cbn; lia].
  intros i Hi' _. apply Hcells; [|exact Hi'].
  split; [constructor; assumption | exact Hcell].
Qed.

(** Setting the cursor of a window that shows the input in all its cells. *)
Lemma window_set_pos (inp : list Z) (m : Matcher) (p : Z) :
  window_clean inp (with_pos (end_ m) m) ->
  txt_ m <= p <= end_ m ->
  window_clean inp (with_pos p m).
Proof.
  intros Hclean Hp.
  pose proof (fun i => window_cells inp _ i Hclean) as Hcells.
  destruct Hclean as [Hok _].
  destruct Hok as [Ht Hp' He Hm Hb Hn Hi Hs Hl Hc Hlo Hco]. cbn in *.
  split; [constructor; cbn; try assumption; try lia|cbn].
  - intros i Hi' _. apply (Hcells i). exact Hi'.
  - intros Hlt. apply (Hcells p). lia.
Qed.

(** [grow()] with the match and the cursor out of the way: the window is
    kept and a block of room follows it. *)
Lemma grow_block_window (inp : list Z) (m : Matcher) :
  window_clean inp m ->
  txt_ m = 0 ->
  pos_ m = end_ m ->
  max_ m <= 2 ^ 62 ->
  Z.of_nat (length inp) <= 2 ^ 60 ->
  exists r m1,
    grow Const.BLOCK m = Some (r, m1) /\
    window_clean inp m1 /\
    txt_ m1 = 0 /\ pos_ m1 = end_ m1 /\ end_ m1 = end_ m /\
    num_ m1 = num_ m /\
    Const.BLOCK <= max_ m1 - end_ m1 /\ max_ m1 <= 2 ^ 62 /\
    eof_ m1 = eof_ m /\ blk_ m1 = blk_ m /\ in_ m1 = in_ m.
Proof.
  change (2 ^ 62) with 4611686018427387904.
  change (2 ^ 60) with 1152921504606846976.
  intros Hclean Htxt Hpos Hmax Hinp. pose proof Hclean as [Hok _].
  pose proof Hok as [Ht Hp He Hm Hb Hn Hi Hs Hl Hc Hlo Hco].
  assert (Hlno : 0 <= lno_ m < size_modulus).
  { rewrite Hlo.
    pose proof (count_nl_nonneg (take (Z.to_nat (num_ m)) inp)).
    pose proof (count_nl_le_length (take (Z.to_nat (num_ m)) inp)) as Hle.
    rewrite length_take in Hle. unfold size_modulus. lia. }
  destruct (grow_returns Const.BLOCK m) as (r & m1 & Hrun);
    try (change (2 ^ 62) with 4611686018427387904; unfold Const.BLOCK; lia).
  exists r, m1. split; [exact Hrun|].
  pose proof (grow_max_bound Const.BLOCK m m1 r) as Hbound.
  unfold Const.BLOCK, size_modulus in Hbound.
  specialize (Hbound ltac:(lia) ltac:(lia) ltac:(lia) ltac:(lia) ltac:(lia) Hrun).
  destruct (grow_cases_window inp Const.BLOCK m m1 r Hok Hrun)
    as [(_ & -> & Hroom) | [(_ & _ & Hshort & Hgap & Hcover)
                           | (_ & mx & Hdrop & H1 & H2 & Hkind)]].
  - split; [exact Hclean|]. repeat split; try assumption; try reflexivity; lia.
  - unfold Const.BLOCK in Hshort, Hgap, Hcover.
    rewrite sz_small in Hcover by (unfold size_modulus; lia). exfalso. lia.
  - pose proof (window_dropped inp m Hok mx m1 Hdrop H1 H2) as Hok1.
    destruct Hdrop as [D1 D2 D3 D4 D5 D6 D7 D8 D9 D10 D11].
    destruct D11 as (_ & _ & _ & _ & Heof & _ & Hblk & _ & Hin).
    rewrite (sz_small (pos_ m - txt_ m)) in D2 by (unfold size_modulus; lia).
    rewrite (sz_small (end_ m - txt_ m)) in D4 by (unfold size_modulus; lia).
    rewrite (sz_small (num_ m + txt_ m)) in D7 by (unfold size_modulus; lia).
    unfold Const.BLOCK in Hkind |- *.
    rewrite sz_small in Hkind by (unfold size_modulus; lia).
    split; [split; [exact Hok1 | intros Hlt; exfalso; lia]|].
    repeat split; try assumption; try lia.
Qed.

(** One round of the loop of [rest()]. *)
Lemma rest_loop_round (f : nat) (s : Matcher) :
  rest_loop (S f) s
  = if eof_ s then Some (tt, s)
    else
      match grow Const.BLOCK s with
      | Some (_, a) =>
          match refill (with_pos (end_ a) a) with
          | Some (_, b) =>
              if pos_ b =? end_ b then Some (tt, with_eof true b)
              else rest_loop f b
          | None => None
          end
      | None => None
      end.
Proof.
  cbn [rest_loop]. run_monad. destruct (eof_ s); [reflexivity|].
  destruct (grow Const.BLOCK s) as [[r a]|]; [|reflexivity].
  destruct (refill (with_pos (end_ a) a)) as [[[] b]|]; [|reflexivity].
  unfold wrap, ret. destruct (pos_ b =? end_ b); reflexivity.
Qed.

(** More fuel does not change what the loop of [rest()] returns. *)
Lemma rest_loop_more_fuel (fuel k : nat) (m m' : Matcher) (u : unit) :
  rest_loop fuel m = Some (u, m') ->
  rest_loop (fuel + k) m = Some (u, m').
Proof.
  revert m. induction fuel as [|f IH]; intros m.
  - intros Hrun. destruct k as [|k]; [exact Hrun|].
    cbn [Nat.add]. rewrite rest_loop_round.
    cbn [rest_loop] in Hrun. run_monad.
    destruct (eof_ m); [exact Hrun | discriminate].
  - cbn [Nat.add]. rewrite !rest_loop_round.
    destruct (eof_ m); [intros H; exact H|].
    destruct (grow Const.BLOCK m) as [[r a]|]; [|discriminate].
    destruct (refill (with_pos (end_ a) a)) as [[v b]|]; [|discriminate].
    destruct (pos_ b =? end_ b); [intros H; exact H | apply IH].
Qed.

(** The loop of [rest()] reads all that is left in the source: it stops
    with [eof_] set, the window reaching the end of the input, and room
    for the terminator after it. *)
Lemma rest_loop_reads (inp : list Z) (fuel : nat) (s : Matcher) :
  window_clean inp (with_pos (end_ s) s) ->
  txt_ s = 0 ->
  0 <= pos_ s < size_modulus ->
  0 <= blk_ s <= Const.BLOCK ->
  max_ s <= 2 ^ 62 ->
  Z.of_nat (length inp) <= 2 ^ 60 ->
  (eof_ s = true -> in_ s = [] /\ end_ s < max_ s) ->
  (length (in_ s) < fuel)%nat ->
  exists s',
    rest_loop fuel s = Some (tt, s') /\
    window_clean inp (with_pos (end_ s') s') /\
    txt_ s' = 0 /\ num_ s' = num_ s /\
    num_ s' + end_ s' = Z.of_nat (length inp) /\
    end_ s' < max_ s' /\ eof_ s' = true /\ in_ s' = [].
Proof.
  change (2 ^ 62) with 4611686018427387904.
  change (2 ^ 60) with 1152921504606846976.
  revert s. induction fuel as [|f IH];
    intros s Hclean Htxt Hpos Hblk Hmax Hinp Heof Hfuel; [lia|].
  rewrite rest_loop_round.
  destruct (eof_ s) eqn:He.
  { destruct (Heof eq_refl) as [Hin Hroom].
    exists s. split; [reflexivity|].
    split; [exact Hclean|].
    destruct Hclean as [[Ht _ _ _ _ Hn _ Hs Hl _ _ _] _]. cbn in Ht, Hn, Hs, Hl.
    assert (Hlen : length (in_ s) = 0%nat) by (rewrite Hin; reflexivity).
    rewrite Hs, length_drop in Hlen.
    repeat split; try assumption; try reflexivity; lia. }
  set (sb := with_pos (end_ s) s) in *.
  assert (Hs : s = with_pos (pos_ s) sb) by (destruct s; reflexivity).
  destruct (grow_block_window inp sb Hclean) as
      (r & m1 & Hrun & Hclean1 & T1 & P1 & E1 & N1 & R1 & M1 & F1 & B1 & I1);
    try (subst sb; cbn; try assumption; try reflexivity;
         change (2 ^ 62) with 4611686018427387904;
         change (2 ^ 60) with 1152921504606846976; lia).
  assert (Hg : grow Const.BLOCK s = Some (r, with_pos (pos_ s) m1)).
  { rewrite Hs at 1. rewrite grow_with_pos by (subst sb; cbn; assumption).
    rewrite Hrun. reflexivity. }
  rewrite Hg.
  assert (Hm1 : with_pos (end_ (with_pos (pos_ s) m1)) (with_pos (pos_ s) m1) = m1).
  { destruct m1; cbn in *; subst; reflexivity. }
  rewrite Hm1.
  destruct (refill_window_blk inp m1 Hclean1 P1) as
      (m2 & Hrun2 & Hclean2 & N2 & P2 & F2 & B2 & M2 & T2 & E2 & Hnone).
  { subst sb. cbn in B1. unfold Const.BLOCK in *. lia. }
  rewrite Hrun2.
  pose proof Hclean2 as [Hok2 _].
  pose proof Hok2 as [_ Wp _ _ _ Wn _ Ws Wl _ _ _].
  pose proof Hclean1 as [[_ _ _ _ _ Vn _ Vs Vl _ _ _] _].
  subst sb. cbn in E1, N1, B1, F1, I1.
  change (2 ^ 62) with 4611686018427387904 in M1.
  unfold Const.BLOCK in R1, Hblk.
  destruct (Z.eqb_spec (pos_ m2) (end_ m2)) as [Hdone|Hmore].
  - exists (with_eof true m2). split; [reflexivity|].
    assert (Hall : num_ m1 + end_ m1 = Z.of_nat (length inp))
      by (apply Hnone; lia).
    split; [apply window_at_end, window_eof; exact Hclean2|].
    cbn. repeat split; try lia.
    rewrite Ws. apply drop_ge. lia.
  - pose proof Hclean1 as [[Vt _ Ve _ _ _ _ _ _ _ _ _] _].
    destruct (IH m2) as (s' & Hrun' & Hclean' & T' & N' & A' & R' & F' & I').
    + apply window_at_end. exact Hclean2.
    + lia.
    + unfold size_modulus. lia.
    + unfold Const.BLOCK. lia.
    + lia.
    + exact Hinp.
    + intros Habs. rewrite F2, F1, He in Habs. discriminate.
    + rewrite Ws, length_drop. rewrite <- I1, Vs, length_drop in Hfuel. lia.
    + exists s'. split; [exact Hrun'|]. split; [exact Hclean'|].
      repeat split; try assumption; lia.
Qed.

(** [update] moves neither the cursor nor the source. *)
Lemma update_same (m : Matcher) :
  pos_ (update m) = pos_ m /\ in_ (update m) = in_ m /\
  eof_ (update m) = eof_ m /\ blk_ (update m) = blk_ m.
Proof.
  unfold update. destruct (update_loop _ _ _ _ _) as [[lno t] cno].
  repeat split.
Qed.

(** A state that shares the window of [X] shows the input as [X] does. *)
Lemma window_same_view (inp : list Z) (X s : Matcher) :
  window_clean inp X ->
  txt_ s = txt_ X -> end_ s = end_ X -> max_ s = max_ X ->
  buf_ s = buf_ X -> num_ s = num_ X -> in_ s = in_ X ->
  lno_ s = lno_ X -> cno_ s = cno_ X ->
  window_clean inp (with_pos (end_ s) s).
Proof.
  intros Hclean Et Ee Em Eb En Ei El Ec.
  pose proof (fun i => window_cells inp X i Hclean) as Hcells.
  destruct Hclean as [[Ht Hp He Hm Hb Hn Hi Hs Hl Hc Hlo Hco] _].
  split; [constructor; cbn|cbn; lia];
    rewrite ?Et, ?Ee, ?Em, ?Eb, ?En, ?Ei, ?El, ?Ec; try assumption; try lia.
  intros i Hi' _. apply Hcells. exact Hi'.
Qed.

(** The first two steps of [rest()]: the held byte is put back and the
    cells before the cursor leave the buffer. *)
Lemma rest_shift (inp : list Z) (m : Matcher) :
  window_ok inp m ->
  (pos_ m < end_ m ->
   inp !! Z.to_nat (num_ m + pos_ m) = Some (uchar (chr_ m))) ->
  let mA := if pos_ m <? end_ m
            then with_buf (store (pos_ m) (chr_ m) (buf_ m)) m else m in
  let mB := if 0 <? pos_ mA then
              let m1 := update (with_txt (pos_ mA) mA) in
              let m2 := with_end (sz (end_ m1 - pos_ m1)) m1 in
              with_buf (memmove 0 (pos_ m2) (end_ m2) (buf_ m2)) m2
            else mA in
  let s0 := with_txt 0 mB in
  window_clean inp (with_pos (end_ s0) s0) /\
  pos_ s0 = pos_ m /\ end_ s0 = end_ m - pos_ m /\ max_ s0 = max_ m /\
  num_ s0 = num_ m + pos_ m /\
  in_ s0 = in_ m /\ eof_ s0 = eof_ m /\ blk_ s0 = blk_ m.
Proof.
  intros Hok Hchr.
  pose proof Hok as [Ht Hp He Hm Hb Hn Hi Hs Hl Hc Hlo Hco].
  change (2 ^ 62) with 4611686018427387904 in Hi.
  set (mA := if pos_ m <? end_ m
             then with_buf (store (pos_ m) (chr_ m) (buf_ m)) m else m).
  assert (HA : window_clean inp mA /\ pos_ mA = pos_ m /\ end_ mA = end_ m /\
               max_ mA = max_ m /\ num_ mA = num_ m /\ in_ mA = in_ m /\
               eof_ mA = eof_ m /\ blk_ mA = blk_ m /\ txt_ mA = txt_ m).
  { subst mA. destruct (Z.ltb_spec (pos_ m) (end_ m)) as [Hlt|Hge].
    - split; [|repeat split].
      split; [constructor; cbn; try assumption|cbn].
      + unfold store. rewrite length_insert. exact Hb.
      + intros i Hi' Hne. unfold store.
        rewrite list_lookup_insert_ne by lia. apply Hc; assumption.
      + intros _. unfold store. rewrite list_lookup_insert_eq by lia.
        symmetry. apply Hchr. exact Hlt.
    - split; [|repeat split]. split; [exact Hok | intros; lia]. }
  destruct HA as (HcleanA & PA & EA & MA & NA & IA & FA & BA & TA).
  clearbody mA. cbv zeta.
  destruct (Z.ltb_spec 0 (pos_ mA)) as [Hshift|Hstay].
  - set (M0 := with_txt (pos_ mA) mA).
    assert (Hok0 : window_ok inp M0).
    { destruct HcleanA as [[At Ap Ae Am Ab An Ai As Al Ac Alo Aco] _].
      constructor; cbn; try assumption; lia. }
    destruct (update_keeps M0) as (Ub & Ut & Ue & Um).
    destruct (update_same M0) as (Up & Ui & Uf & Ubl).
    cbn [pos_ end_ buf_ with_end with_buf].
    rewrite Up, Ue, Ub. cbn [pos_ end_ buf_ M0 with_txt].
    assert (Hlno : 0 <= lno_ M0 < size_modulus).
    { destruct Hok0 as [_ _ _ _ _ _ _ _ _ _ Blo _]. rewrite Blo.
      pose proof (count_nl_nonneg (take (Z.to_nat (num_ M0)) inp)).
      pose proof (count_nl_le_length (take (Z.to_nat (num_ M0)) inp)) as Hle.
      rewrite length_take in Hle. unfold size_modulus. lia. }
    pose proof (grow_drops_prefix (max_ M0)
                  (memmove 0 (pos_ mA) (sz (end_ mA - pos_ mA)) (buf_ mA))
                  M0 Hlno) as Hdrop.
    rewrite with_max_same in Hdrop.
    destruct HcleanA as [HokA HcellA].
    pose proof HokA as [At Ap Ae Am Ab An Ai As Al Ac Alo Aco].
    change (2 ^ 62) with 4611686018427387904 in Ai.
    assert (Hsz : sz (end_ mA - pos_ mA) = end_ mA - pos_ mA)
      by (apply sz_small; lia).
    assert (Hnum : sz (num_ mA + pos_ mA) = num_ mA + pos_ mA)
      by (apply sz_small; unfold size_modulus; lia).
    specialize (Hdrop ltac:(
      unfold memmove; rewrite length_write_at; [exact Ab|];
      rewrite Hsz, length_moved by lia; lia)).
    specialize (Hdrop ltac:(
      intros i Hi'; cbn in Hi' |- *; unfold memmove; rewrite Hsz;
      rewrite lookup_write_at_0 by (rewrite length_moved by lia; lia);
      apply lookup_moved; lia)).
    match type of Hdrop with dropped_prefix _ _ ?x => set (X := x) in * end.
    pose proof (window_dropped inp M0 Hok0 (max_ M0) X Hdrop) as HokX.
    specialize (HokX ltac:(cbn; lia) ltac:(cbn; lia)).
    assert (HcleanX : window_clean inp X).
    { split; [exact HokX|]. intros Hlt.
      destruct Hdrop as [D1 D2 D3 D4 D5 D6 D7 D8 D9 D10 D11].
      change (txt_ M0) with (pos_ mA) in D2, D4, D7, D10.
      change (pos_ M0) with (pos_ mA) in D2.
      change (end_ M0) with (end_ mA) in D4, D10.
      change (num_ M0) with (num_ mA) in D7.
      change (buf_ M0) with (buf_ mA) in D10.
      rewrite D2.
      rewrite (Z.sub_diag (pos_ mA)) in *. change (sz 0) with 0 in *.
      rewrite D7, Hnum.
      rewrite Hsz in D4.
      rewrite (D10 0) by lia. rewrite !Z.add_0_r.
      apply HcellA. lia. }
    split.
    { match goal with
      | |- window_clean inp (with_pos _ ?s) =>
          apply (window_same_view inp X s HcleanX)
      end; subst X; unfold rebase; cbn; rewrite ?Ub, ?Ue, ?Um, ?Ut; reflexivity. }
    unfold update. destruct (update_loop _ _ _ _ _) as [[lno t] cno]. cbn.
    rewrite Hnum, ?Hsz.
    repeat split; try assumption; try lia.
  - destruct HcleanA as [HokA HcellA].
    pose proof HokA as [At Ap Ae Am Ab An Ai As Al Ac Alo Aco].
    split.
    { apply (window_same_view inp mA); try reflexivity.
      - split; assumption.
      - cbn. lia. }
    cbn. repeat split; try assumption; lia.
Qed.

(** X12.  [rest()] on a matcher whose window shows the input, with the
    held byte [chr_] the input byte under the cursor, and with [eof_] not
    set before the source is exhausted (an [eof_] forced by [set_end]
    while the source holds bytes makes [rest()] leave them unread): the
    call returns
    the whole remaining input, from the cursor to the end of the source,
    as the new text; the source is exhausted and [eof_] is set, the text,
    the cursor and the match start are at the front of the buffer, the
    terminator after the text lies inside the buffer, and the window
    still shows the input. *)
Theorem rest_returns_remaining (inp : list Z) (m : Matcher) :
  window_ok inp m ->
  (pos_ m < end_ m ->
   inp !! Z.to_nat (num_ m + pos_ m) = Some (uchar (chr_ m))) ->
  0 <= blk_ m <= Const.BLOCK ->
  max_ m <= 2 ^ 62 ->
  Z.of_nat (length inp) <= 2 ^ 60 ->
  (eof_ m = true -> in_ m = [] /\ end_ m < max_ m) ->
  exists m',
    rest m = Some (drop (Z.to_nat (num_ m + pos_ m)) inp, m') /\
    text m' = drop (Z.to_nat (num_ m + pos_ m)) inp /\
    size m' = Z.of_nat (length inp) - (num_ m + pos_ m) /\
    txt_ m' = 0 /\ pos_ m' = 0 /\ cur_ m' = 0 /\
    end_ m' = size m' /\ num_ m' = num_ m + pos_ m /\
    eof_ m' = true /\ in_ m' = [] /\
    size m' < max_ m' /\ load (buf_ m') (size m') = 0 /\
    window_ok inp m'.
Proof.
  intros Hok Hchr Hblk Hmax Hinp Heof.
  pose proof (rest_shift inp m Hok Hchr) as Hs. cbv zeta in Hs.
  pose proof Hok as [Ht Hp He Hm Hb Hn Hi Hsrc Hl Hc Hlo Hco].
  unfold rest. run_monad.
  match type of Hs with
  | window_clean _ (with_pos _ ?s) /\ _ => set (s0 := s) in *
  end.
  destruct Hs as (Hclean0 & P0 & E0 & M0 & N0 & I0 & F0 & B0).
  destruct (rest_loop_reads inp (S (length (in_ s0))) s0 Hclean0)
    as (s' & Hrun & Hclean' & T' & N' & A' & R' & F' & I').
  { reflexivity. }
  { rewrite P0. lia. }
  { rewrite B0. exact Hblk. }
  { rewrite M0. exact Hmax. }
  { exact Hinp. }
  { rewrite F0, I0, E0, M0. intros Heq. destruct (Heof Heq). split; [assumption|lia]. }
  { lia. }
  rewrite Hrun. cbn [fst snd].
  pose proof (fun i => window_cells inp _ i Hclean') as Hcells.
  cbn [buf_ end_ num_ with_pos] in Hcells.
  pose proof Hclean' as [[St Sp Se Sm Sb Sn Si Ss Sl Sc Slo Sco] _].
  cbn in St, Sp, Se, Sm, Sb, Sn, Ss, Sl, Slo, Sco.
  assert (Htext : take (Z.to_nat (end_ s'))
                    (store (end_ s') Const.NUL (buf_ s'))
                  = drop (Z.to_nat (num_ m + pos_ m)) inp).
  { apply list_eq. intros i. rewrite lookup_drop.
    destruct (decide (i < Z.to_nat (end_ s'))%nat) as [Hlt|Hge].
    - rewrite lookup_take_lt by exact Hlt. unfold store.
      rewrite list_lookup_insert_ne by lia.
      replace i with (Z.to_nat (Z.of_nat i)) at 1 by lia.
      rewrite Hcells by lia. f_equal. lia.
    - rewrite lookup_take_ge by lia. symmetry. apply lookup_ge_None. lia. }
  eexists. split.
  { unfold text at 1. cbn. rewrite T'. change (Z.to_nat 0) with 0%nat.
    rewrite drop_0, Htext. reflexivity. }
  unfold text, size. cbn. rewrite T'. change (Z.to_nat 0) with 0%nat.
  rewrite drop_0.
  split; [exact Htext|].
  split; [lia|]. split; [reflexivity|]. split; [reflexivity|].
  split; [reflexivity|]. split; [reflexivity|]. split; [lia|].
  split; [exact F'|]. split; [exact I'|]. split; [exact R'|].
  split.
  { unfold load, store. rewrite list_lookup_insert_eq by lia. reflexivity. }
  constructor; cbn; try assumption; try lia.
  - unfold store. rewrite length_insert. exact Sb.
  - intros i Hi' _. unfold store. rewrite list_lookup_insert_ne by lia.
    apply Hcells. exact Hi'.
Qed.

(** ** Interactive input *)

(** A round of reading with a block size takes a block from the source. *)
Lemma refill_takes_block (m m' : Matcher) (u : unit) :
  refill m = Some (u, m') ->
  0 < blk_ m ->
  in_ m' = drop (Z.to_nat (blk_ m)) (in_ m) /\
  end_ m' = sz (end_ m + Z.of_nat (length (take (Z.to_nat (blk_ m)) (in_ m)))).
Proof.
  unfold refill, get_block, Input_get. run_monad. intros Hrun Hblk.
  destruct (Z.eqb_spec (blk_ m) 0) as [|_]; [lia|].
  injection Hrun as _ <-. split; reflexivity.
Qed.

(** X14.  Interactive input does not read ahead.  After [interactive()],
    on a matcher that has not met the end of its input ([eof_] is not
    set), a [get()] with the cursor at the end of the window takes
    exactly the next byte from the source and returns it, leaving the
    cursor at the end of the window again; it returns [EOF] when the
    source is empty.  The block size 1 stays in force. *)
Theorem interactive_reads_one_byte (Input_size : Input -> Z) (inp : list Z)
    (m : Matcher) :
  window_clean inp m ->
  pos_ m = end_ m ->
  eof_ m = false ->
  max_ m <= 2 ^ 62 ->
  exists c m',
    (interactive Input_size ;;; get) m = Some (c, m') /\
    window_clean inp m' /\ blk_ m' = 1 /\ pos_ m' = end_ m' /\
    ((c = EOF /\ in_ m = [] /\ in_ m' = [] /\ eof_ m' = true) \/
     (exists c0 : Z,
         in_ m = c0 :: in_ m' /\ c = uchar c0 /\ eof_ m' = false)).
Proof.
  change (2 ^ 62) with 4611686018427387904.
  intros Hclean Hpos Heof Hmax.
  set (m0 := with_blk 1 m).
  assert (Hrun0 : interactive Input_size m = Some (tt, m0)) by reflexivity.
  assert (Hclean0 : window_clean inp m0).
  { destruct Hclean as [[Ht Hp He Hm Hb Hn Hi Hs Hl Hc Hlo Hco] Hcell].
    split; [constructor; assumption | exact Hcell]. }
  unfold bind at 1. rewrite Hrun0.
  unfold get. run_monad. cbn [pos_ end_ eof_ m0 with_blk].
  rewrite Hpos, Z.ltb_irrefl, Heof. fold m0.
  destruct (grow_if_full_window inp m0 Hclean0 Hpos)
    as (m1 & -> & Hclean1 & Hplace & Hpos1 & Hroom & Heof1 & Hblk1).
  { exact Hmax. }
  cbn [blk_ eof_ num_ end_ m0 with_blk] in Hblk1, Heof1, Hplace.
  destruct (refill_window_blk inp m1 Hclean1 Hpos1)
    as (m2 & Hrun2 & Hclean2 & Hnum2 & Hpos2 & Heof2 & Hblk2 & _ & _ & Hend2 & Hdone).
  { right. lia. }
  destruct (refill_takes_block m1 m2 tt Hrun2) as [Hin2 Hlen2]; [lia|].
  rewrite Hblk1 in Hin2, Hlen2.
  cbn [get_loop]. unfold wrap. run_monad. rewrite Hrun2.
  pose proof Hclean as [[_ _ _ _ _ Hn _ Hs Hl _ _ _] _].
  pose proof Hclean1 as [[Vt _ Ve Vm _ Vn _ Vs Vl _ _ _] _].
  pose proof Hclean2 as [[_ Wp We Wm _ _ _ _ _ _ _ _] _].
  assert (Hsame : in_ m1 = in_ m) by (rewrite Vs, Hs, Hplace; reflexivity).
  rewrite Hsame in Hin2, Hlen2.
  change (Z.to_nat 1) with 1%nat in Hin2, Hlen2.
  destruct (in_ m) as [|c0 src] eqn:Hsrc.
  - cbn in Hin2, Hlen2. rewrite Z.add_0_r, sz_small in Hlen2 by lia.
    destruct (Z.ltb_spec (pos_ m2) (end_ m2)) as [Hgot|_]; [lia|].
    exists EOF, (with_eof true m2). split; [reflexivity|].
    split; [apply window_eof; exact Hclean2|].
    cbn. split; [lia|]. split; [lia|]. left. repeat split. exact Hin2.
  - cbn [take drop length] in Hin2, Hlen2.
    rewrite take_0 in Hlen2. rewrite drop_0 in Hin2. cbn [length] in Hlen2.
    change (Z.of_nat 1) with 1 in Hlen2.
    rewrite sz_small in Hlen2 by lia.
    destruct (Z.ltb_spec (pos_ m2) (end_ m2)) as [Hgot|Hnone]; [|lia].
    exists (load (buf_ m2) (pos_ m2)), (with_pos (sz (pos_ m2 + 1)) m2).
    split; [reflexivity|].
    split; [apply window_advance; assumption|].
    cbn. rewrite sz_small by lia.
    split; [lia|]. split; [lia|]. right. exists c0.
    rewrite Hin2. split; [reflexivity|].
    split; [|rewrite Heof2, Heof1; exact Heof].
    unfold load.
    rewrite (window_cells inp m2 (pos_ m2) Hclean2) by lia.
    assert (Hc0 : inp !! Z.to_nat (num_ m + end_ m) = Some c0).
    { pose proof (lookup_drop inp (Z.to_nat (num_ m + end_ m)) 0) as Hd.
      rewrite <- Hs in Hd. cbn in Hd. rewrite Nat.add_0_r in Hd.
      symmetry. exact Hd. }
    replace (num_ m2 + pos_ m2) with (num_ m + end_ m) by lia.
    rewrite Hc0. reflexivity.
Qed.

(** ** Reading the input with [input()] *)

(** A state with the same window as [X] shows the input as [X] does. *)
Lemma window_clean_ext (inp : list Z) (X s : Matcher) :
  window_clean inp X ->
  txt_ s = txt_ X -> pos_ s = pos_ X -> end_ s = end_ X ->
  max_ s = max_ X -> buf_ s = buf_ X -> num_ s = num_ X ->
  in_ s = in_ X -> lno_ s = lno_ X -> cno_ s = cno_ X ->
  window_clean inp s.
Proof.
  intros [[Ht Hp He Hm Hb Hn Hi Hs Hl Hc Hlo Hco] Hcell]
         Et Ep Ee Em Eb En Ei El Ec.
  split; [constructor|]; rewrite ?Et, ?Ep, ?Ee, ?Em, ?Eb, ?En, ?Ei, ?El, ?Ec;
    assumption.
Qed.

(** The last two steps of [input()]: the byte under the cursor is taken
    into [chr_]. *)
Lemma input_tail (inp : list Z) (s : Matcher) :
  window_clean inp s ->
  let s2 := if pos_ s <? end_ s
            then with_chr (load (buf_ s) (pos_ s)) s else s in
  let s3 := with_cur (pos_ s2) s2 in
  window_clean inp s3 /\ held_ok s3 /\
  num_ s3 = num_ s /\ pos_ s3 = pos_ s /\ eof_ s3 = eof_ s /\
  in_ s3 = in_ s /\ blk_ s3 = blk_ s /\ max_ s3 = max_ s /\
  got_ s3 = got_ s.
Proof.
  intros Hclean. cbv zeta. unfold held_ok.
  destruct (Z.ltb_spec (pos_ s) (end_ s)) as [Hlt|Hge]; cbn.
  - split; [apply (window_clean_ext inp s); try reflexivity; exact Hclean|].
    repeat split; reflexivity.
  - split; [apply (window_clean_ext inp s); try reflexivity; exact Hclean|].
    split; [intros; lia|]. repeat split; reflexivity.
Qed.

(** One call of [input()]: the next byte of the input, or [EOF] at its
    end. *)
Lemma input_step (inp : list Z) (m : Matcher) :
  window_clean inp m ->
  held_ok m ->
  (eof_ m = true -> in_ m = []) ->
  0 <= blk_ m <= 1 ->
  max_ m <= 2 ^ 62 ->
  Z.of_nat (length inp) <= 2 ^ 60 ->
  exists c m',
    input m = Some (c, m') /\
    window_clean inp m' /\ held_ok m' /\
    (eof_ m' = true -> in_ m' = []) /\
    blk_ m' = blk_ m /\ max_ m' <= 2 ^ 62 /\ got_ m' = c /\
    cur_ m' = pos_ m' /\
    ((num_ m + pos_ m < Z.of_nat (length inp) /\
      c = uchar (default 0 (inp !! Z.to_nat (num_ m + pos_ m))) /\
      num_ m' + pos_ m' = num_ m + pos_ m + 1) \/
     (num_ m + pos_ m = Z.of_nat (length inp) /\ c = EOF /\
      num_ m' + pos_ m' = num_ m + pos_ m)).
Proof.
  intros Hclean Hheld Hsrc Hblk Hmax Hinp.
  pose proof Hclean as [Hok _].
  pose proof Hok as [Ht Hp He Hm Hb Hn Hi Hs Hl Hc Hlo Hco].
  unfold input. run_monad.
  destruct (Z.ltb_spec (pos_ m) (end_ m)) as [Hin|Hout].
  - set (s := with_pos (sz (pos_ m + 1)) (with_got (chr_ m) m)).
    assert (Hcs : window_clean inp s).
    { apply (window_clean_ext inp (with_pos (sz (pos_ m + 1)) m));
        try reflexivity.
      apply window_advance; assumption. }
    destruct (input_tail inp s Hcs)
      as (Hc3 & Hh3 & N3 & P3 & F3 & I3 & B3 & M3 & G3).
    cbv zeta in Hc3, Hh3, N3, P3, F3, I3, B3, M3, G3.
    eexists _, _. split; [reflexivity|].
    split; [exact Hc3|]. split; [exact Hh3|].
    split; [rewrite F3, I3; exact Hsrc|].
    split; [rewrite B3; reflexivity|].
    split; [rewrite M3; exact Hmax|].
    split; [reflexivity|]. split; [reflexivity|].
    left. rewrite N3, P3, G3. cbn. rewrite sz_small by lia.
    rewrite (Hheld Hin). unfold load.
    rewrite (window_cells inp m (pos_ m) Hclean) by lia.
    repeat split; lia.
  - destruct (get_step inp m Hclean Hblk Hmax)
      as (c & g & Hrun & Hcg & Hbg & Hres & Hsg & Hmg).
    rewrite Hrun.
    set (s := with_got c g).
    assert (Hcs : window_clean inp s)
      by (apply (window_clean_ext inp g); try reflexivity; exact Hcg).
    destruct (input_tail inp s Hcs)
      as (Hc3 & Hh3 & N3 & P3 & F3 & I3 & B3 & M3 & G3).
    cbv zeta in Hc3, Hh3, N3, P3, F3, I3, B3, M3, G3.
    change (got_ s) with c in G3.
    exists c. eexists. split; [rewrite <- G3 at 1; reflexivity|].
    split; [exact Hc3|]. split; [exact Hh3|].
    split; [rewrite F3, I3; exact (Hsg Hsrc)|].
    split; [rewrite B3; exact Hbg|].
    split; [rewrite M3; exact (Hmg Hinp)|].
    split; [exact G3|]. split; [reflexivity|].
    rewrite N3, P3. cbn [num_ pos_ s with_got].
    destruct Hres as [(-> & Hpe & Heof' & Hsame & Hdone) | (Hmore & -> & Hnext)].
    + right. split; [|split; [reflexivity | exact Hsame]].
      destruct (eof_ m) eqn:Heof; [|apply Hdone; reflexivity].
      specialize (Hsrc eq_refl). rewrite Hs in Hsrc.
      assert (Hlen : length (drop (Z.to_nat (num_ m + end_ m)) inp) = 0%nat)
        by (rewrite Hsrc; reflexivity).
      rewrite length_drop in Hlen. lia.
    + left. repeat split; assumption.
Qed.

Lemma bytes_from_S (inp : list Z) (off n : nat) :
  bytes_from inp off (S n)
  = from_option uchar EOF (inp !! off) :: bytes_from inp (S off) n.
Proof. reflexivity. Qed.

(** Beyond the end of the input a reader sees [EOF] only. *)
Lemma bytes_from_end (inp : list Z) (off n : nat) :
  (length inp <= off)%nat -> bytes_from inp off n = replicate n EOF.
Proof.
  unfold bytes_from. revert off. induction n as [|n IH]; intros off Hoff.
  - reflexivity.
  - cbn [seq map replicate]. rewrite lookup_ge_None_2 by lia.
    rewrite IH by lia. reflexivity.
Qed.

(** X15.  [input()] reads the input byte by byte.  From a matcher whose
    window shows the input and whose held character is the byte under
    the cursor, reading whole buffers or single bytes ([blk_] 0 or 1),
    with [eof_] set only once the source is exhausted, [n] calls of
    [input()] return the [n] bytes of the input that follow the absolute
    offset [num_ + pos_], with [EOF] for every call after the last byte;
    the cursor has then moved over the bytes returned. *)
Theorem input_reads_stream (inp : list Z) (n : nat) (m : Matcher) :
  window_clean inp m ->
  held_ok m ->
  (eof_ m = true -> in_ m = []) ->
  0 <= blk_ m <= 1 ->
  max_ m <= 2 ^ 62 ->
  Z.of_nat (length inp) <= 2 ^ 60 ->
  exists m',
    collect (replicate n input) m
    = Some (bytes_from inp (Z.to_nat (num_ m + pos_ m)) n, m') /\
    num_ m' + pos_ m'
    = Z.min (num_ m + pos_ m + Z.of_nat n) (Z.of_nat (length inp)) /\
    window_clean inp m'.
Proof.
  revert m. induction n as [|n IH];
    intros m Hclean Hheld Hsrc Hblk Hmax Hinp.
  - exists m. split; [reflexivity|]. split; [|exact Hclean].
    destruct Hclean as [[Ht Hp He Hm Hb Hn Hi Hs Hl Hc Hlo Hco] _]. lia.
  - destruct (input_step inp m Hclean Hheld Hsrc Hblk Hmax Hinp)
      as (c & m1 & Hrun & Hc1 & Hh1 & Hs1 & Hb1 & Hm1 & _ & _ & Hres).
    destruct (IH m1 Hc1 Hh1 Hs1) as (m' & Hrest & Hplace & Hc');
      [lia | exact Hm1 | exact Hinp |].
    exists m'. cbn [replicate collect]. run_monad. rewrite Hrun, Hrest.
    pose proof Hclean as [[Ht Hp He Hm Hb Hn Hi Hs Hl Hc Hlo Hco] _].
    split; [|split; [|exact Hc']].
    + f_equal. f_equal. rewrite bytes_from_S.
      destruct Hres as [(Hmore & -> & Hnext) | (Hdone & -> & Hsame)].
      * rewrite Hnext.
        replace (Z.to_nat (num_ m + pos_ m + 1))
          with (S (Z.to_nat (num_ m + pos_ m))) by lia.
        destruct (lookup_lt_is_Some_2 inp (Z.to_nat (num_ m + pos_ m)))
          as [c0 Hc0]; [lia|].
        rewrite Hc0. reflexivity.
      * rewrite Hsame.
        rewrite lookup_ge_None_2 by lia. cbn [from_option].
        rewrite !bytes_from_end by lia. reflexivity.
    + rewrite Hplace.
      destruct Hres as [(Hmore & _ & Hnext) | (Hdone & _ & Hsame)]; lia.
Qed.

(** ** Line starts, flushing, and option strings that end in [T] *)

(** X16.  [at_bol()] reads back what [set_bol] has set, and [set_bol]
    changes nothing when the state is already as asked.  The begin of the
    input does not count as the begin of a line: [at_bob()] and
    [at_bol()] never hold together, [set_bol(true)] ends [at_bob()], and
    [set_bol(false)] keeps it. *)
Theorem set_bol_at_bol (b : bool) (m : Matcher) :
  at_bol (set_bol b m) = b /\
  (at_bol m = b -> set_bol b m = m) /\
  (at_bob m = true -> at_bol m = false) /\
  at_bob (set_bol true m) = false /\
  at_bob (set_bol false m) = at_bob m.
Proof.
  unfold at_bol, at_bob, set_bol.
  split; [|split; [|split; [|split]]].
  - destruct b; [reflexivity|].
    destruct (Z.eqb_spec (got_ m) NL); [reflexivity|].
    apply Z.eqb_neq. assumption.
  - destruct b.
    + intros H. apply Z.eqb_eq in H. destruct m; cbn in *; subst; reflexivity.
    + intros ->. reflexivity.
  - intros H. apply Z.eqb_eq in H. rewrite H. reflexivity.
  - reflexivity.
  - destruct (Z.eqb_spec (got_ m) NL) as [->|]; reflexivity.
Qed.

(** X17.  [flush()] gives up what is buffered after the cursor: the
    [get()] that follows delivers the byte of the input that comes after
    the window, at the absolute offset [num_ + end_], or [EOF] when the
    window reaches the end of the input. *)
Theorem flush_skips_window (inp : list Z) (m : Matcher) :
  window_clean inp m ->
  0 <= blk_ m <= 1 ->
  max_ m <= 2 ^ 62 ->
  eof_ m = false ->
  exists c m',
    get (flush m) = Some (c, m') /\
    window_clean inp m' /\
    ((num_ m + end_ m = Z.of_nat (length inp) /\ c = EOF /\
      num_ m' + pos_ m' = num_ m + end_ m) \/
     (num_ m + end_ m < Z.of_nat (length inp) /\
      c = uchar (default 0 (inp !! Z.to_nat (num_ m + end_ m))) /\
      num_ m' + pos_ m' = num_ m + end_ m + 1)).
Proof.
  intros Hclean Hblk Hmax Heof.
  destruct (get_step inp (flush m) (window_at_end inp m Hclean) Hblk Hmax)
    as (c & m' & Hrun & Hclean' & _ & Hres & _).
  exists c, m'. split; [exact Hrun|]. split; [exact Hclean'|].
  cbn in Hres.
  destruct Hres as [(-> & _ & _ & Hsame & Hdone) | (Hmore & -> & Hnext)].
  - left. specialize (Hdone Heof). repeat split; assumption.
  - right. repeat split; assumption.
Qed.

(** A stretch without ['T'] and without the terminator sets [A] and [N]
    where it holds the letters, and nothing else. *)
Lemma parse_options_flags (pre s : string) (o : Option) :
  has_char "T" pre = false ->
  has_char "000" pre = false ->
  parse_options (pre +:+ s) o
  = parse_options s (mkOption (opt_A o || has_char "A" pre)
                              (opt_N o || has_char "N" pre) (opt_T o)).
Proof.
  revert o. induction pre as [|c pre IH]; intros o HT H0; cbn in HT, H0.
  - cbn [has_char]. rewrite !orb_false_r. destruct o; reflexivity.
  - apply orb_false_iff in HT as [HcT HT].
    apply orb_false_iff in H0 as [Hc0 H0].
    change (String c pre +:+ s) with (String c (pre +:+ s)).
    cbn [parse_options has_char]. rewrite Hc0.
    destruct (Ascii.eqb_spec c "A") as [->|HA].
    { rewrite (IH _ HT H0). cbn. rewrite !orb_true_r. reflexivity. }
    destruct (Ascii.eqb_spec c "N") as [->|HN].
    { rewrite (IH _ HT H0). cbn. rewrite !orb_true_r. reflexivity. }
    rewrite HcT. rewrite (IH _ HT H0). reflexivity.
Qed.

(** X18.  An option string that ends in [T] or in [T=] makes [reset]
    step over the terminator of the string: the case ['T'] lands on the
    terminator, sets the tab size to 0, and the loop increment then moves
    to the byte after the terminator, so the scan goes on in the memory
    [mem] that follows the string, up to the next 0 byte.  The options
    are those that scan finds, starting from [A] and [N] as the string
    has them and a tab size of 0: with a 0 byte right after the
    terminator they are [A] and [N] of the string and the tab size 0,
    and with an ['N'] there [N] is set although the string has none. *)
Theorem reset_option_T_at_end (pre mem : string) (m : Matcher) :
  has_char "T" pre = false ->
  has_char "000" pre = false ->
  (forall tail : string,
      tail = String "T" (String "000" mem) \/
      tail = String "T" (String "=" (String "000" mem)) ->
      reset (Some (pre +:+ tail)) m
      = match parse_options mem
                (mkOption (has_char "A" pre) (has_char "N" pre) 0) with
        | Some o => Some (tt, reset_members o m)
        | None => None
        end) /\
  (forall mem' : string,
      mem = String "000" mem' ->
      reset (Some (pre +:+ String "T" (String "000" mem))) m
      = Some (tt, reset_members
                    (mkOption (has_char "A" pre) (has_char "N" pre) 0) m)) /\
  (forall mem' : string,
      mem = String "N" (String "000" mem') ->
      reset (Some (pre +:+ String "T" (String "000" mem))) m
      = Some (tt, reset_members (mkOption (has_char "A" pre) true 0) m)).
Proof.
  intros HT H0.
  assert (Hscan : forall tail : string,
             tail = String "T" (String "000" mem) \/
             tail = String "T" (String "=" (String "000" mem)) ->
             parse_options (pre +:+ tail) (mkOption false false 8)
             = parse_options mem
                 (mkOption (has_char "A" pre) (has_char "N" pre) 0)).
  { intros tail Htail. rewrite (parse_options_flags pre tail _ HT H0).
    destruct Htail as [-> | ->]; reflexivity. }
  split; [|split].
  - intros tail Htail. unfold reset. rewrite (Hscan tail Htail). reflexivity.
  - intros mem' ->. unfold reset.
    rewrite (Hscan _ (or_introl eq_refl)). reflexivity.
  - intros mem' ->. unfold reset.
    rewrite (Hscan _ (or_introl eq_refl)). reflexivity.
Qed.

(** ** The position of the match across [grow] *)

(** [update] does not look at the capacity. *)
Lemma update_with_max (mx : Z) (m : Matcher) :
  update (with_max mx m) = with_max mx (update m).
Proof.
  unfold update. cbn [txt_ buf_ lno_ cno_ num_ with_max].
  destruct (update_loop _ _ _ _ _) as [[lno t] cno]. reflexivity.
Qed.

(** [grow] either keeps the match where it is, or moves it to the front
    of the buffer after an [update()]. *)
Lemma grow_tracker (need : Z) (m m' : Matcher) (r : bool) :
  grow need m = Some (r, m') ->
  (txt_ m' = txt_ m /\ buf_ m' = buf_ m /\ len_ m' = len_ m /\
   num_ m' = num_ m /\ lno_ m' = lno_ m /\ cno_ m' = cno_ m) \/
  (r = true /\ txt_ m' = 0 /\ len_ m' = len_ m /\
   num_ m' = num_ (update m) /\ lno_ m' = lno_ (update m) /\
   cno_ m' = cno_ (update m)).
Proof.
  unfold grow.
  destruct (sz (max_ m - end_ m) >=? need).
  { intros [= <- <-]. left. repeat split. }
  destruct (txt_ m >=? need).
  { intros [= <- <-]. right. unfold update.
    destruct (update_loop _ _ _ _ _) as [[lno t] cno]. repeat split. }
  destruct (grow_loop 64 (max_ m) (sz (sz (end_ m - txt_ m) + need))) as [mx|];
    [|discriminate].
  cbn [max_ with_max].
  destruct (max_ m <? mx); intros [= <- <-].
  - right. rewrite update_with_max. unfold update.
    destruct (update_loop _ _ _ _ _) as [[lno t] cno]. repeat split.
  - left. repeat split.
Qed.

(** A newline seen stays seen. *)
Lemma last_nl_from_seen (l : list Z) (i x : Z) :
  last_nl_from l i (Some x) <> None.
Proof.
  revert i x. induction l as [|c l IH]; intros i x; cbn [last_nl_from].
  - discriminate.
  - destruct (uchar c =? NL); apply IH.
Qed.

(** Where [update()] leaves its newline pointer and its column count:
    at the last newline before the match, if there is one. *)
Lemma update_loop_last_nl (l : list Z) (s lno t cno : Z) (seen : option Z) :
  seen = None \/ (seen = Some t /\ cno = 0) ->
  match last_nl_from l s seen with
  | Some j => (update_loop l s lno t cno).1.2 = j /\
              (update_loop l s lno t cno).2 = 0
  | None => (update_loop l s lno t cno).1.2 = t /\
            (update_loop l s lno t cno).2 = cno
  end.
Proof.
  revert s lno t cno seen.
  induction l as [|c l IH]; intros s lno t cno seen Hseen;
    cbn [last_nl_from update_loop].
  - destruct Hseen as [->|[-> ->]]; split; reflexivity.
  - destruct (uchar c =? NL).
    + specialize (IH (s + 1) (sz (lno + 1)) s 0 (Some s)
                     (or_intror (conj eq_refl eq_refl))).
      pose proof (last_nl_from_seen l (s + 1) s) as Hsome.
      destruct (last_nl_from l (s + 1) (Some s)); [exact IH | contradiction].
    + apply IH. exact Hseen.
Qed.

(** X19.  [grow] keeps the position of the match in the input, but not
    always its column.  Whenever [grow] returns, [first()], [last()] and
    [lineno()] are what they were; [columno()] is kept when no newline
    stands before the match in the buffer; when one does and [grow]
    moves the match to the front of the buffer, [columno()] comes out
    one more than before, because [update()] counts the newline itself
    as a column.  [grow] moves the match when the room after the window
    is less than [need] and the cells before the match make up for it. *)
Theorem grow_keeps_position (need : Z) (m m' : Matcher) (r : bool) :
  0 <= txt_ m <= max_ m ->
  max_ m < size_modulus ->
  Z.of_nat (length (buf_ m)) = max_ m ->
  0 <= lno_ m < size_modulus ->
  grow need m = Some (r, m') ->
  first m' = first m /\ last m' = last m /\ lineno m' = lineno m /\
  (last_nl (take (Z.to_nat (txt_ m)) (buf_ m)) = None ->
   columno m' = columno m) /\
  (forall j : Z,
      last_nl (take (Z.to_nat (txt_ m)) (buf_ m)) = Some j ->
      columno m = txt_ m - j - 1 /\
      (txt_ m' = txt_ m -> columno m' = columno m) /\
      (txt_ m' <> txt_ m -> columno m' = columno m + 1)) /\
  (sz (max_ m - end_ m) < need -> need <= txt_ m -> 0 < need ->
   txt_ m' = 0 /\ txt_ m' <> txt_ m).
Proof.
  intros Htxt Hmax Hbuf Hlno Hrun.
  set (l := take (Z.to_nat (txt_ m)) (buf_ m)).
  assert (Hlen : Z.of_nat (length l) = txt_ m)
    by (unfold l; rewrite length_take; lia).
  assert (Hcol : columno m
                 = match last_nl l with
                   | Some j => txt_ m - 1 - j
                   | None => sz (cno_ m + txt_ m)
                   end).
  { unfold columno. fold l. rewrite columno_loop_last_nl.
    destruct (last_nl l); [f_equal; lia | reflexivity]. }
  assert (Hupd : num_ (update m) = sz (num_ m + txt_ m) /\
                 lno_ (update m) = lineno m /\
                 cno_ (update m)
                 = match last_nl l with
                   | Some j => txt_ m - j
                   | None => sz (cno_ m + txt_ m)
                   end).
  { pose proof (update_loop_lno l 0 (lno_ m) 0 (cno_ m) Hlno) as Hl1.
    pose proof (update_loop_last_nl l 0 (lno_ m) 0 (cno_ m) None
                  (or_introl eq_refl)) as Hl2.
    fold (last_nl l) in Hl2.
    unfold update. fold l.
    destruct (update_loop l 0 (lno_ m) 0 (cno_ m)) as [[lno t] cno].
    cbn in Hl1, Hl2 |- *.
    split; [reflexivity|]. split; [exact Hl1|].
    destruct (last_nl l) as [j|] eqn:Hj.
    - destruct Hl2 as [-> ->]. apply last_nl_range in Hj.
      apply sz_small. lia.
    - destruct Hl2 as [-> ->]. rewrite Z.sub_0_r. reflexivity. }
  destruct Hupd as (Unum & Ulno & Ucno).
  assert (Hfront : forall s : Matcher,
             txt_ s = 0 ->
             lineno s = lno_ s /\ columno s = sz (cno_ s) /\
             first s = sz (num_ s)).
  { intros s Hs. unfold lineno, columno, first. rewrite Hs.
    change (Z.to_nat 0) with 0%nat. rewrite take_0, !Z.add_0_r.
    repeat split. }
  assert (Hmoved : sz (max_ m - end_ m) < need -> need <= txt_ m ->
                   0 < need -> txt_ m' = 0 /\ txt_ m' <> txt_ m).
  { intros Hroom Hgap Hneed. revert Hrun. unfold grow.
    rewrite !Z.geb_leb.
    destruct (Z.leb_spec need (sz (max_ m - end_ m))); [lia|].
    destruct (Z.leb_spec need (txt_ m)); [|lia].
    intros [= <- <-]. cbn. split; [reflexivity | lia]. }
  destruct (grow_tracker need m m' r Hrun)
    as [(Et & Eb & El & En & Elno & Ecno)
       | (_ & Et & El & En & Elno & Ecno)].
  - assert (Hc : columno m' = columno m)
      by (unfold columno; rewrite Et, Eb, Ecno; reflexivity).
    split; [unfold first; rewrite Et, En; reflexivity|].
    split; [unfold last, first, size; rewrite Et, En, El; reflexivity|].
    split; [unfold lineno; rewrite Et, Eb, Elno; reflexivity|].
    split; [intros _; exact Hc|].
    split; [|exact Hmoved].
    intros j Hj. fold l in Hj. rewrite Hj in Hcol.
    split; [lia|]. split; [intros _; exact Hc | intros Hne; contradiction].
  - destruct (Hfront m' Et) as (Fl & Fc & Ff).
    assert (Hfirst : first m' = first m).
    { rewrite Ff, En, Unum. unfold first, sz. apply Z.mod_mod. discriminate. }
    split; [exact Hfirst|].
    split; [unfold last, size; rewrite Hfirst, El; reflexivity|].
    split; [rewrite Fl, Elno; exact Ulno|].
    split; [|split; [|exact Hmoved]].
    + intros Hnone. fold l in Hnone. rewrite Hnone in Hcol, Ucno.
      rewrite Fc, Ecno, Ucno, Hcol. unfold sz. apply Z.mod_mod. discriminate.
    + intros j Hj. fold l in Hj. rewrite Hj in Hcol, Ucno.
      pose proof (last_nl_range l j Hj) as Hrange.
      assert (Hc : columno m' = columno m + 1).
      { rewrite Fc, Ecno, Ucno, Hcol. rewrite sz_small by lia. lia. }
      split; [lia|].
      split; [|intros _; exact Hc].
      intros Hsame. rewrite Et in Hsame. lia.
Qed.

(** ** Comparing the match with a string *)

(** [strcmp] against cells that hold a text without 0 byte and then a
    terminator. *)
Lemma cstr_equal_terminated (a t : list Z) (z : Z) (cells : list Z) :
  Forall (fun c => uchar c <> 0) a ->
  Forall (fun c => uchar c <> 0) t ->
  uchar z = 0 ->
  cstr_equal a (t ++ z :: cells)
  = Some (bool_decide (map uchar a = map uchar t)).
Proof.
  intros Ha. revert t. induction Ha as [|x a Hx Ha IH]; intros t Ht Hz.
  - destruct Ht as [|c t Hc Ht]; cbn [app cstr_equal map].
    + rewrite Hz. reflexivity.
    + apply Z.eqb_neq in Hc. rewrite Hc.
      rewrite bool_decide_eq_false_2 by discriminate. reflexivity.
  - destruct Ht as [|c t Hc Ht]; cbn [app cstr_equal map].
    + rewrite Hz. destruct (Z.eqb_spec 0 (uchar x)) as [Heq|_]; [congruence|].
      rewrite bool_decide_eq_false_2 by discriminate. reflexivity.
    + destruct (Z.eqb_spec (uchar c) (uchar x)) as [Heq|Hne].
      * apply Z.eqb_neq in Hx. rewrite Hx.
        rewrite (IH t Ht Hz). f_equal. apply bool_decide_ext.
        rewrite Heq. split; [intros ->; reflexivity | intros [= ->]; reflexivity].
      * rewrite bool_decide_eq_false_2; [reflexivity|].
        intros [= Heq _]. congruence.
Qed.

(** X20.  Comparing a matcher with a C string compares the matched text,
    as long as the terminator stands after the text and neither holds a
    0 byte: [matcher == rhs] is true exactly when the bytes of [rhs] are
    those of [text()], and it then agrees with the comparison against a
    [std::string]; [matcher != rhs] is its negation.  ([less] and [rest]
    leave the terminator in place.) *)
Theorem equals_cstr_compares_text (rhs : list Z) (m : Matcher) :
  0 <= txt_ m -> 0 <= len_ m ->
  txt_ m + len_ m < Z.of_nat (length (buf_ m)) ->
  load (buf_ m) (txt_ m + len_ m) = Const.NUL ->
  Forall (fun c => uchar c <> 0) (text m) ->
  Forall (fun c => uchar c <> 0) rhs ->
  equals_cstr rhs m = Some (equals_string rhs m) /\
  differs_cstr rhs m = Some (negb (equals_string rhs m)) /\
  (equals_cstr rhs m = Some true <-> map uchar rhs = map uchar (text m)).
Proof.
  intros Htxt Hlen Hin Hnul Htext Hrhs.
  assert (Heq : equals_cstr rhs m = Some (equals_string rhs m)).
  { unfold equals_cstr, equals_string.
    destruct (lookup_lt_is_Some_2 (buf_ m) (Z.to_nat (txt_ m + len_ m)))
      as [z Hz]; [lia|].
    assert (Hcells : drop (Z.to_nat (txt_ m)) (buf_ m)
                     = text m ++ z :: drop (S (Z.to_nat (txt_ m + len_ m)))
                                          (buf_ m)).
    { unfold text.
      rewrite <- (take_drop (Z.to_nat (len_ m))
                    (drop (Z.to_nat (txt_ m)) (buf_ m))) at 1.
      f_equal. rewrite drop_drop.
      replace (Z.to_nat (txt_ m) + Z.to_nat (len_ m))%nat
        with (Z.to_nat (txt_ m + len_ m)) by lia.
      apply drop_S. exact Hz. }
    rewrite Hcells. apply cstr_equal_terminated; try assumption.
    unfold load in Hnul. rewrite Hz in Hnul. exact Hnul. }
  split; [exact Heq|].
  split; [unfold differs_cstr; rewrite Heq; reflexivity|].
  rewrite Heq. unfold equals_string. split.
  - intros [= H]. apply bool_decide_eq_true in H. exact H.
  - intros H. f_equal. apply bool_decide_eq_true. exact H.
Qed.

(** ** Block sizes above 1 *)

(** X21.  [get()] makes room only when the buffer is full to the last
    cell.  With a block size [blk_] above the room that is left after
    [end_], and a source that has a whole block to give, the block is
    stored from [end_] on all the same: [get()] returns the first byte of
    the block, and [end_] is then above [max_], with the last bytes of
    the block stored in cells after the last one of the buffer. *)
Theorem get_block_past_buffer (m : Matcher) :
  pos_ m = end_ m ->
  eof_ m = false ->
  0 <= end_ m < max_ m ->
  max_ m <= 2 ^ 62 ->
  Z.of_nat (length (buf_ m)) = max_ m ->
  max_ m - end_ m < blk_ m <= Const.BLOCK ->
  blk_ m <= Z.of_nat (length (in_ m)) ->
  exists c0 m',
    get m = Some (uchar c0, m') /\
    in_ m !! 0%nat = Some c0 /\
    in_ m' = drop (Z.to_nat (blk_ m)) (in_ m) /\
    max_ m' = max_ m /\
    end_ m' = end_ m + blk_ m /\
    max_ m' < end_ m' /\
    Z.of_nat (length (buf_ m')) = end_ m' /\
    drop (Z.to_nat (end_ m)) (buf_ m') = take (Z.to_nat (blk_ m)) (in_ m).
Proof.
  change (2 ^ 62) with 4611686018427387904. unfold Const.BLOCK.
  intros Hpos Heof Hend Hmax Hbuf Hblk Hsrc.
  destruct (in_ m) as [|c0 src] eqn:Hin; [cbn in Hsrc; lia|].
  exists c0.
  unfold get, grow_if_full. run_monad.
  rewrite Hpos, Z.ltb_irrefl, Heof.
  destruct (Z.eqb_spec (end_ m) (max_ m)) as [|_]; [lia|].
  cbn [get_loop]. unfold refill, get_block, Input_get, wrap. run_monad.
  destruct (Z.eqb_spec (blk_ m) 0) as [|_]; [lia|].
  rewrite Hin.
  set (bytes := take (Z.to_nat (blk_ m)) (c0 :: src)).
  assert (Hlen : Z.of_nat (length bytes) = blk_ m).
  { unfold bytes. rewrite length_take. cbn [length] in Hsrc |- *. lia. }
  cbn [end_ pos_ buf_ with_in with_buf with_end].
  rewrite Hlen, Hpos.
  rewrite (sz_small (end_ m + blk_ m)) by (unfold size_modulus; lia).
  destruct (Z.ltb_spec (end_ m) (end_ m + blk_ m)) as [_|]; [|lia].
  assert (Hcells : write_at (end_ m) bytes (buf_ m)
                   = take (Z.to_nat (end_ m)) (buf_ m) ++ bytes).
  { unfold write_at. rewrite (drop_ge (buf_ m)) by lia.
    rewrite app_nil_r. reflexivity. }
  eexists. split.
  { f_equal. f_equal. unfold load. rewrite Hcells.
    rewrite lookup_app_r by (rewrite length_take; lia).
    rewrite length_take.
    replace (Z.to_nat (end_ m) - Z.to_nat (end_ m) `min` length (buf_ m))%nat
      with 0%nat by lia.
    unfold bytes.
    replace (Z.to_nat (blk_ m)) with (S (Z.to_nat (blk_ m - 1))) by lia.
    reflexivity. }
  cbn. split; [reflexivity|]. split; [reflexivity|]. split; [reflexivity|].
  split; [reflexivity|]. split; [lia|].
  rewrite Hcells. split.
  - rewrite length_app, length_take. lia.
  - rewrite drop_app_length'; [reflexivity|]. rewrite length_take. lia.
Qed.

(** * The further properties at concrete matchers *)

Lemma get_delivers_input_witness :
  window_clean [97; 98] (started [97; 98]) /\
  exists m', get (started [97; 98]) = Some (97, m') /\
             window_clean [97; 98] m' /\ num_ m' + pos_ m' = 1.
Proof.
  assert (H1 : window_clean [97; 98] (started [97; 98]))
    by (apply window_started; closed_bound).
  split; [exact H1|].
  destruct (get_delivers_input [97; 98] (started [97; 98]) H1
              ltac:(closed_bound) ltac:(closed_bound))
    as (c & m' & Hrun & Hclean & _ & [(_ & _ & _ & _ & Hdone) | (_ & Hc & Hnext)]).
  - specialize (Hdone eq_refl). discriminate Hdone.
  - exists m'. rewrite Hrun, Hc. split; [reflexivity|].
    split; [exact Hclean | exact Hnext].
Defined.

Lemma peek_then_get_witness :
  exists m1,
    peek (started [97]) = Some (97, m1) /\
    peek m1 = Some (97, m1) /\
    get m1 = Some (97, with_pos (sz (pos_ m1 + 1)) m1).
Proof.
  destruct (peek (started [97])) as [[c m1]|] eqn:Hrun;
    [|vm_compute in Hrun; discriminate].
  assert (Hc : c = 97) by (vm_compute in Hrun; congruence).
  subst c. exists m1. split; [reflexivity|].
  destruct (peek_then_get (started [97]) m1 97 Hrun) as (H1 & _ & H3).
  split; [exact H1|]. apply H3. discriminate.
Defined.

Lemma peek_at_end_input_witness :
  window_clean [97; 98] (started [97; 98]) /\
  (exists m', peek (started [97; 98]) = Some (97, m')) /\
  (exists m', at_end (started [97; 98]) = Some (false, m')).
Proof.
  assert (H1 : window_clean [97; 98] (started [97; 98]))
    by (apply window_started; closed_bound).
  split; [exact H1|].
  destruct (peek_at_end_input [97; 98] (started [97; 98]) H1
              ltac:(closed_bound) ltac:(closed_bound))
    as [(c & m1 & Hrun & _ & _ & [(_ & _ & _ & Hdone) | (_ & Hc)])
        (b & m2 & Hrun2 & _ & _ & Hb)].
  - specialize (Hdone eq_refl). discriminate Hdone.
  - split; [exists m1; rewrite Hrun, Hc; reflexivity|].
    exists m2. rewrite Hrun2. destruct b; [|reflexivity].
    destruct (Hb eq_refl) as [Habs _]. specialize (Habs eq_refl).
    discriminate Habs.
Defined.

Lemma grow_keeps_view_witness :
  exists m',
    grow 8190 e1_foo = Some (true, m') /\
    text m' = [102; 111; 111] /\ size m' = 3 /\ accept m' = 1.
Proof.
  destruct (grow 8190 e1_foo) as [[r m']|] eqn:Hrun;
    [|vm_compute in Hrun; discriminate].
  assert (Hr : r = true) by (vm_compute in Hrun; congruence).
  subst r. exists m'. split; [reflexivity|].
  destruct (grow_keeps_view 8190 e1_foo m' true
              ltac:(closed_bound) ltac:(closed_bound) ltac:(closed_bound)
              ltac:(closed_bound) ltac:(closed_bound) ltac:(closed_bound)
              ltac:(closed_bound) ltac:(closed_bound) Hrun)
    as (Htext & Hsize & _ & _ & _ & _ & _ & _ & _ & _ & Hacc).
  rewrite Htext, Hsize, Hacc. repeat split.
Defined.

Lemma grow_returns_with_room_witness :
  exists r m',
    grow 8190 e1_foo = Some (r, m') /\
    8190 <= max_ m' - end_ m' /\ Z.of_nat (length (buf_ m')) = max_ m'.
Proof.
  destruct (grow_returns_with_room 8190 e1_foo
              ltac:(closed_bound) ltac:(closed_bound) ltac:(closed_bound)
              ltac:(closed_bound) ltac:(closed_bound) ltac:(closed_bound))
    as (r & m' & Hrun & _ & _ & Hlen & Hroom).
  exists r, m'. split; [exact Hrun|].
  split; [|exact Hlen]. apply Hroom. right; right. closed_bound.
Defined.

Lemma reset_restarts_witness :
  (exists m', reset (Some "N"%string) e1_foo = Some (tt, m') /\
              lineno m' = 1 /\ first m' = 0 /\ text m' = []) /\
  (exists m2, input_from [97; 98] e1_foo = Some (tt, m2) /\
              window_clean [97; 98] m2).
Proof.
  destruct (reset_restarts (Some "N"%string) [97; 98] e1_foo
              (reset_members (mkOption false true 8) e1_foo)
              ltac:(closed_bound) ltac:(closed_bound) ltac:(closed_bound)
              ltac:(closed_bound))
    as [Hreset (m2 & Hrun & Hclean & _)].
  split.
  - eexists. split; [reflexivity|].
    destruct (Hreset eq_refl) as (_ & _ & _ & Hf & _ & Hl & _ & _ & _ & Ht).
    split; [exact Hl|]. split; [exact Hf | exact Ht].
  - exists m2. split; [exact Hrun | exact Hclean].
Defined.


Lemma less_truncates_witness :
  exists m',
    less 1 e1_foo = Some (tt, m') /\
    text m' = [102] /\ size m' = 1 /\
    exists m'', input m' = Some (111, m'').
Proof.
  destruct (less_truncates 1 e1_foo
              ltac:(closed_bound) ltac:(closed_bound) ltac:(closed_bound)
              ltac:(closed_bound) ltac:(closed_bound) ltac:(closed_bound)
              ltac:(closed_bound) ltac:(closed_bound))
    as [_ Hcut].
  destruct (Hcut ltac:(closed_bound))
    as (m' & Hrun & Htext & Hsize & _ & _ & _ & _ & _ & m'' & Hin).
  exists m'. split; [exact Hrun|]. split; [exact Htext|].
  split; [exact Hsize|]. exists m''. exact Hin.
Defined.

Lemma buffer_all_sets_eof_witness :
  exists m',
    buffer (fun src => Z.of_nat (length src)) 0 (started [97; 98; 99])
    = Some (true, m') /\
    take 3 (buf_ m') = [97; 98; 99] /\ end_ m' = 0 /\
    get m' = Some (EOF, m').
Proof.
  destruct (buffer_all_sets_eof (fun src => Z.of_nat (length src))
              (started [97; 98; 99])
              eq_refl ltac:(closed_bound) eq_refl eq_refl eq_refl eq_refl
              ltac:(closed_bound) ltac:(closed_bound) ltac:(closed_bound))
    as [(m' & Hrun & _ & _ & Hcells & Hend & _ & _ & _ & Hget) _].
  exists m'. split; [exact Hrun|]. split; [exact Hcells|].
  split; [exact Hend | exact Hget].
Defined.

Lemma iterator_walk_witness :
  exists it h',
    match Operation_begin engine_echo (mkOperation 7%nat Const.FIND)
            {[ 7%nat := started e1_input ]} with
    | Some (it0, h0) => advance engine_echo 2 it0 h0
    | None => None
    end = Some (it, h') /\
    matcher_ it = Some 7%nat /\
    Iterator_eq it (Operation_end Const.FIND) = false.
Proof.
  destruct ((reset None ;;; collect (replicate 3 (engine_echo Const.FIND)))
              (started e1_input)) as [[rs m']|] eqn:Hrun;
    [|vm_compute in Hrun; discriminate].
  assert (Hrs : rs = [1; 1; 1]) by (vm_compute in Hrun; congruence).
  subst rs.
  destruct (iterator_walk engine_echo (mkOperation 7%nat Const.FIND) 2
              {[ 7%nat := started e1_input ]} (started e1_input) m' [1; 1; 1]
              (lookup_singleton_eq _ _) Hrun)
    as (it & Hwalk & _ & _ & Hptr & Hend).
  { repeat constructor; discriminate. }
  exists it. eexists. split; [exact Hwalk|].
  split; [apply Hptr; discriminate|].
  destruct (Iterator_eq it (Operation_end Const.FIND)) eqn:Heq; [|reflexivity].
  apply Hend in Heq. discriminate Heq.
Defined.

Lemma rest_returns_remaining_witness :
  window_ok e1_input (started e1_input) /\
  exists m',
    rest (started e1_input) = Some (e1_input, m') /\
    text m' = e1_input /\ size m' = 9 /\ eof_ m' = true.
Proof.
  assert (H1 : window_ok e1_input (started e1_input))
    by (apply window_started; closed_bound).
  split; [exact H1|].
  destruct (rest_returns_remaining e1_input (started e1_input) H1
              ltac:(intros H; vm_compute in H; discriminate H)
              ltac:(closed_bound) ltac:(closed_bound) ltac:(closed_bound)
              ltac:(intros H; discriminate H))
    as (m' & Hrun & Htext & Hsize & _ & _ & _ & _ & _ & Heof & _).
  exists m'. split; [exact Hrun|]. split; [exact Htext|].
  split; [exact Hsize | exact Heof].
Defined.

Lemma interactive_reads_one_byte_witness :
  exists m',
    (interactive (fun _ => 0) ;;; get) (started [97; 98]) = Some (97, m') /\
    in_ m' = [98] /\ blk_ m' = 1.
Proof.
  destruct (interactive_reads_one_byte (fun _ => 0) [97; 98]
              (started [97; 98])
              (window_started [97; 98] ltac:(closed_bound))
              eq_refl eq_refl ltac:(closed_bound))
    as (c & m' & Hrun & _ & Hblk & _ & [(_ & Habs & _) | (c0 & Hsrc & Hc & _)]).
  - discriminate Habs.
  - injection Hsrc as Hc0 Hin. exists m'. rewrite Hrun, Hc, <- Hc0.
    split; [reflexivity|]. split; [symmetry; exact Hin | exact Hblk].
Defined.

Lemma input_reads_stream_witness :
  exists m',
    collect (replicate 11 input) (started e1_input)
    = Some (e1_input ++ [EOF; EOF], m') /\
    num_ m' + pos_ m' = 9.
Proof.
  destruct (input_reads_stream e1_input 11 (started e1_input)
              (window_started e1_input ltac:(closed_bound))
              ltac:(intros H; vm_compute in H; discriminate H)
              ltac:(intros H; discriminate H)
              ltac:(closed_bound) ltac:(closed_bound) ltac:(closed_bound))
    as (m' & Hrun & Hplace & _).
  exists m'. split; [exact Hrun | exact Hplace].
Defined.

Lemma flush_skips_window_witness :
  exists m1 m',
    get (started (replicate (Z.to_nat 8192) 97 ++ [98; 99; 100]))
    = Some (97, m1) /\
    pos_ m1 = 1 /\ end_ m1 = 8192 /\ in_ m1 = [98; 99; 100] /\
    pos_ (flush m1) = 8192 /\
    get (flush m1) = Some (98, m') /\
    num_ m' + pos_ m' = 8193.
Proof.
  pose (inp := replicate (Z.to_nat 8192) 97 ++ [98; 99; 100]).
  assert (Hlen : Z.of_nat (length inp) = 8195) by (vm_compute; reflexivity).
  destruct (get_step inp (started inp)
              (window_started inp ltac:(closed_bound))
              ltac:(closed_bound) ltac:(closed_bound))
    as (c & m1 & Hrun & Hclean1 & Hblk1 & _ & _ & Hmax1).
  assert (Hc : c = 97) by (vm_compute in Hrun; congruence).
  assert (Hpos : pos_ m1 = 1)
    by (vm_compute in Hrun; injection Hrun as _ <-; reflexivity).
  assert (Hend : end_ m1 = 8192)
    by (vm_compute in Hrun; injection Hrun as _ <-; reflexivity).
  assert (Hnum : num_ m1 = 0)
    by (vm_compute in Hrun; injection Hrun as _ <-; reflexivity).
  assert (Hsrc : in_ m1 = [98; 99; 100])
    by (vm_compute in Hrun; injection Hrun as _ <-; reflexivity).
  assert (Heof : eof_ m1 = false)
    by (vm_compute in Hrun; injection Hrun as _ <-; reflexivity).
  subst c.
  destruct (flush_skips_window inp m1 Hclean1
              ltac:(rewrite Hblk1; closed_bound)
              (Hmax1 ltac:(closed_bound)) Heof)
    as (c & m' & Hget & _ & [(Habs & _) | (_ & Hc & Hnext)]).
  - rewrite Hnum, Hend, Hlen in Habs. discriminate Habs.
  - exists m1, m'. split; [exact Hrun|]. split; [exact Hpos|].
    split; [exact Hend|]. split; [exact Hsrc|].
    split; [cbn; exact Hend|].
    rewrite Hnum, Hend in Hc, Hnext.
    split; [rewrite Hget, Hc; vm_compute; reflexivity | exact Hnext].
Defined.

Lemma reset_option_T_at_end_witness :
  reset (Some (String "A" (String "T" (String "000"
                 (String "N" (String "000" EmptyString))))))
        (started [])
  = Some (tt, reset_members (mkOption true true 0) (started [])) /\
  reset (Some (String "A" (String "T" (String "=" (String "000"
                 (String "000" EmptyString))))))
        (started [])
  = Some (tt, reset_members (mkOption true false 0) (started [])).
Proof.
  split.
  - destruct (reset_option_T_at_end "A"
                (String "N" (String "000" EmptyString)) (started [])
                eq_refl eq_refl) as (_ & _ & HN).
    exact (HN EmptyString eq_refl).
  - destruct (reset_option_T_at_end "A" (String "000" EmptyString)
                (started []) eq_refl eq_refl) as (Hscan & _).
    exact (Hscan _ (or_intror eq_refl)).
Defined.

Lemma grow_keeps_position_witness :
  exists m',
    grow 8190 e1_foo = Some (true, m') /\
    first m' = 6 /\ lineno m' = 2 /\
    columno e1_foo = 0 /\ columno m' = 1.
Proof.
  destruct (grow 8190 e1_foo) as [[r m']|] eqn:Hrun;
    [|vm_compute in Hrun; discriminate].
  assert (Hr : r = true) by (vm_compute in Hrun; congruence).
  assert (Ht : txt_ m' = 0)
    by (vm_compute in Hrun; injection Hrun as _ <-; reflexivity).
  subst r. exists m'. split; [reflexivity|].
  destruct (grow_keeps_position 8190 e1_foo m' true
              ltac:(closed_bound) ltac:(closed_bound) ltac:(closed_bound)
              ltac:(closed_bound) Hrun)
    as (Hfirst & _ & Hline & _ & Hcol & _).
  destruct (Hcol 5 eq_refl) as (Hc0 & _ & Hc1).
  rewrite Hfirst, Hline, Hc1 by (rewrite Ht; discriminate).
  rewrite Hc0. repeat split.
Defined.

Lemma equals_cstr_compares_text_witness :
  equals_cstr [102; 111; 111] e1_foo = Some true /\
  equals_cstr [102; 111] e1_foo = Some false /\
  differs_cstr [102; 111] e1_foo = Some true.
Proof.
  assert (Ht : text e1_foo = [102; 111; 111]) by (vm_compute; reflexivity).
  assert (H5 : Forall (fun c => uchar c <> 0) (text e1_foo))
    by (rewrite Ht; repeat constructor; vm_compute; discriminate).
  assert (H6 : forall l, l = [102; 111; 111] \/ l = [102; 111] ->
                         Forall (fun c => uchar c <> 0) l)
    by (intros l [-> | ->]; repeat constructor; vm_compute; discriminate).
  split.
  - apply (equals_cstr_compares_text [102; 111; 111] e1_foo
             ltac:(closed_bound) ltac:(closed_bound) ltac:(closed_bound)
             eq_refl H5 (H6 _ (or_introl eq_refl))).
    rewrite Ht. reflexivity.
  - destruct (equals_cstr_compares_text [102; 111] e1_foo
                ltac:(closed_bound) ltac:(closed_bound) ltac:(closed_bound)
                eq_refl H5 (H6 _ (or_intror eq_refl)))
      as (Heq & Hne & _).
    rewrite Heq, Hne. unfold equals_string. rewrite Ht. split; reflexivity.
Defined.

Lemma get_block_past_buffer_witness :
  exists m',
    get (with_in [97; 98; 99]
           (with_blk 3 (with_end 8190 (with_pos 8190 (started [])))))
    = Some (97, m') /\
    max_ m' = 8192 /\ end_ m' = 8193 /\
    Z.of_nat (length (buf_ m')) = 8193.
Proof.
  destruct (get_block_past_buffer
              (with_in [97; 98; 99]
                 (with_blk 3 (with_end 8190 (with_pos 8190 (started [])))))
              eq_refl eq_refl ltac:(closed_bound) ltac:(closed_bound)
              ltac:(closed_bound) ltac:(closed_bound) ltac:(closed_bound))
    as (c0 & m' & Hrun & Hc0 & _ & Hmax & Hend & _ & Hlen & _).
  injection Hc0 as <-.
  exists m'. split; [exact Hrun|]. split; [exact Hmax|].
  split; [exact Hend|]. rewrite Hlen. exact Hend.
Defined.
